(* ===== verification/_CoqProject ===== *)
-Q . S2P
Prelude.v
Number.v
Float64.v
Ideal.v
Data.v
ConstraintOps.v
PointOps.v
Draw.v
ClothOps.v
Loop.v
Component.v
Topology.v
