(* ===== verification/Prelude.v ===== *)
(** * A verification library for the cloth simulation of [src/src/ClothSimulation.tsx]

    ** The program

    The source is one React component whose effect body holds a complete
    Verlet cloth simulator:

    - [class Point] (lines 58-138): a particle with position [x, y], previous
      position [px, py], accumulated force [vx, vy], an optional pin
      [pinX, pinY] and the array [constraints] of the links it created;
      methods [update] (pointer influence, gravity, Verlet step),
      [resolveConstraints] (snap to the pin, or relax every link and clamp
      into the canvas), [attach], [addForce], [pin].
    - [class Constraint] (lines 140-167): a link between two points with a
      rest [length]; [resolve] tears the link when it is stretched beyond
      [tearDistance] and otherwise moves both end points half the error.
    - [class Cloth] (lines 169-210): the row-major array [points]; the
      constructor builds the lattice, [update] runs [physicsAccuracy]
      relaxation passes and then integrates every point, [draw] emits one
      segment per link.
    - the input adapter and frame loop (lines 53-56 and 222-258): the shared
      pointer variables [mouseX, mouseY, mouseDown, mouseButton], the four
      event handlers and the self-rescheduling [update].
    - the component around them (lines 4-39, 212-220 and 260-296): the
      optional props and their defaults, the state [canvasSize], the effect
      with its guards, its dependency array and its clean-up, the resize
      listener [resizeCanvas], and the canvas element that is rendered.

    Points and links reference each other through the JavaScript heap.  The
    model makes that heap explicit: the store is the array [Cloth.points]
    (a [list Point]), a reference to a point is its index in that array, and
    every link carries the identity [cid] it was allocated with, so that the
    reference comparison [c !== this] becomes a comparison of identities.
    All numbers of the source are JavaScript numbers; the model is written
    once against the interface [Number] and instantiated twice.  The
    closure variables of the effect ([canvas], [clothSettings], the pointer
    variables) are arguments of the operations that read them.

    ** The files

    - [Prelude] (this file): shared tactics, the hint database [cloth] and
      the list and iteration lemmas every component uses.
    - [Number]: the class [Number] of the operations the source applies to
      numbers ([+ - * /], [Math.sqrt], [<], [>], [Math.max], [Math.min],
      [Math.floor], truthiness, integer and decimal literals), its notation
      scope, and
      the class [OrderLaws] of the order facts the clamp needs, which are
      asked of the [ordered] numbers only.
    - [Float64]: the instance on Rocq's primitive binary64 floats, which are
      the IEEE 754 doubles of JavaScript: every definition of the library
      evaluates on it by [vm_compute].  [Math.max] and [Math.min] follow
      ECMAScript (NaN is contagious, [-0 < +0]); [OrderLaws] holds with the
      doubles that are not NaN as the ordered numbers.
    - [Ideal]: the instance on the real numbers, with [OrderLaws]
      discharged for every real; the theorems of exact arithmetic (a
      relaxed link has its rest length, the resting cloth is an
      equilibrium, free fall) are stated on it.
    - [Data]: the records [Point], [Constraint], [Mouse],
      [ClothSimulationProps] (the optional props), [Props] (the props
      after [destructure] has applied the defaults), [Settings], [Canvas],
      and [clothSettings],
      the field setters, the well-formedness invariant [wf] of a
      store (no dangling reference, every link is stored at its first end
      point, identities are unique) and the preorder [evolves] (same length,
      same pins, link lists only shrink) with the type class [Evolving] of
      the store operations that respect it and the [Proper] instances that
      let a step [evolves s s'] rewrite under [length], [all_links] and
      [wf].
    - [ConstraintOps]: [new_Constraint] and [resolve].
    - [PointOps]: [new_Point], [addForce], [pin], [attach], [update],
      [resolveConstraints].
    - [Draw]: [draw], whose result is the list of calls made on the 2D
      context, and the meaning of those calls: [paint] is the effect of one
      call on the state of the context and [picture] what a log of calls
      leaves on the canvas; [geometry] is the cloth as a list of segments.
    - [ClothOps]: [new_Cloth] (the two nested loops of the constructor,
      threading the array and the allocation counter), the reference lattice
      [grid_point], [relax_pass], [integrate], [Cloth_update] and [frames].
    - [Loop]: the state [Sim] one run of the effect closes over (cloth,
      pointer variables, calls on the context); [handleMouseDown],
      [handleMouseMove], [handleMouseUp], [handleContextMenu] and their
      dispatch [listener]; the frame callback [frame_update]; [step] and
      [run] over the events a running simulation receives, and the same as
      the inductive relation [reachable]; [start], the effect body from the
      construction of the cloth on.
    - [Component]: the function component.  [World] holds what a call of
      the component reads or writes: the window, the props given, the state
      [canvasSize], the dependency array React recorded, the canvas element,
      the calls on its context, the scheduled loops (each a [Running]
      closure: the props of its render, its cloth, its pointer variables)
      and the loop whose listeners are registered.  [ClothSimulation] is one
      call: [destructure], [canvas_element], and, if [deps] changed,
      [effect_cleanup] and [effect].  The contract of React and of the
      browser that the component relies on is written as definitions of
      this file: [settle] and [rerender] (a queued [setCanvasSize] causes
      another call), [mount], [parent_render], [unmount], [window_resize],
      [canvas_event], [animation_frame]; [happens] is one step of the world
      and [history] a sequence of steps.

    - [Topology]: the abstract view of the cloth as the finite set of the
      identities of its live links ([live], a [gset]), the abstract machine
      whose only transition removes links, and the refinement of [resolve]
      and of the event loop to it.

    Each component file has the same layout: the operations, generic in the
    number type; the lemmas that hold for every number type (topology,
    frame, case equations); a section of exact arithmetic on [Ideal]; and
    sections of concrete runs on [Float64] and [Ideal] that apply the
    theorems and evaluate the definitions.

    ** What is proved

    - Structure: every operation is [Evolving]; hence the grid never changes
      size, pins are permanent, a torn link never comes back, and [wf] is
      the type of the store: the constructor establishes it and every
      operation preserves it ([ClothOps.operations_preserve_wf]).
      [Loop.run_invariant] states it for every trace of pointer events and
      frames from the start of the effect.
    - Construction: the loops of the constructor are equal to the reference
      lattice ([ClothOps.new_Cloth_spec]), from which the size, the
      positions, the pins, the links stored by each point, the number of
      links and the number of links that end at each point
      ([ClothOps.new_Cloth_degree]) follow.
    - Refinement: on the set of live link identities, [resolve] removes
      exactly the link it tears ([Topology.live_resolve]) and the event
      loop only ever removes links; the number of live links is a measure that every change of the topology
      decreases, so the topology changes at most as often as there are
      links ([Topology.tearing_terminates]).
    - Drawing: a frame's calls, read back through the meaning of the canvas
      calls, are the segments of the links of the cloth, once each
      ([Draw.frame_picture]); the canvas of a running simulation always
      shows its cloth ([Loop.reachable_picture]).
    - Component: whatever happens to a mounted component, every render
      settles after one more call ([Component.rerender_settles]) and the
      world stays sound ([Component.history_invariant]); a world with one
      loop runs the simulation of [Loop]
      ([Component.world_runs_loop]); the background colour is not a
      dependency ([Component.backgroundColor_keeps_simulation]); a resize
      of the window changes nothing when the dependencies stay and restarts
      the simulation on the canvas of the old size when they do not
      ([Component.window_resize_truthy]); no step ever stops a loop
      ([Component.loops_never_stop]), and of several loops only the newest
      is seen ([Component.animation_frame_picture]).
    - Function: both branches of [resolve], both branches of
      [resolveConstraints], the three pointer branches of [update] and its
      Verlet step; the shape of the constructed lattice (size, positions,
      pins, the links of every point); the segments [draw] emits.
    - Exact arithmetic (on [Ideal]): a relaxed link ends at its rest length
      and keeps its midpoint; a link at rest is a fixed point; every link
      is built at its rest length, so that without gravity the constructed
      cloth is an equilibrium of the frame step
      ([ClothOps.rest_is_equilibrium]); a lone point falls by the damped
      recurrence [d' = 0.99 d + gravity / 2 * 0.016²] ([ClothOps.free_fall]);
      the default cloth fits the width of the window
      ([Component.default_cloth_fits]).
    - Order: the clamp lands in the closed rectangle for every ordered
      number, on the reals and on the doubles
      ([PointOps.resolveConstraints_clamped], [Float64.clamp_float_bounds]).
    - Passes: unless the cut is active the integration pass is a map over
      the array ([ClothOps.integrate_map]); with the cut, and in the
      relaxation pass, the order matters (concrete runs).
    - Floating point (on [Float64]): executable witnesses of the theorems
      with a hypothesis, and what exact arithmetic cannot show, proved for
      all doubles from the specification of the primitive operations
      (the lemmas on NaN, zeros and infinities of [Float64]): the
      relaxation of a link whose end points are at the same place sends
      both to NaN ([ConstraintOps.resolve_zero_length_nan]); a NaN
      coordinate of a free point is never repaired, the class
      [NanKeeping] being to NaN what [Evolving] is to the topology
      ([ClothOps.nan_persists]); hence a cloth built with a spacing of
      zero has lost its first free point after one frame, for ever
      ([ClothOps.zero_spacing_nan]).
    - The first frame: the relaxation leaves the cloth as constructed and
      the integration moves every point, the pinned ones too, by
      [gravity / 2 * 0.016²], for a cloth of any size
      ([ClothOps.first_frame_moves_pinned], on [Ideal]).
    - Without a context: if the canvas gives no 2D context nothing ever
      runs ([Component.no_context_nothing_runs]).
    - Interaction: the modes of the pointer and their transitions; a held
      button is released by [mouseup] only; the pointer has no effect at
      its radius or beyond; a frame makes [4 + 2 * links] calls on the
      context and the log of calls of a reachable state is a sequence of
      whole frames ([Loop.reachable_frame_log], by rule induction).

    Several theorems record behaviour that differs from the prose
    specification of the component: the cut keeps the stretched links and
    removes the slack ones ([PointOps.update_cut_keeps_stretched]); a link
    is stored by the point that created it only
    ([ClothOps.new_Cloth_own_links]), so it is drawn once
    ([Draw.frame_picture]); pinned points are integrated and put back one
    frame later ([ClothOps.first_frame_moves_pinned]); the drag pull grows
    with the distance ([PointOps.update_drag_pull]); the division by the
    separation is not guarded ([ConstraintOps.resolve_zero_length_nan]) and
    no prop is validated ([ClothOps.zero_spacing_nan]); the effect gives up
    silently without a context ([Component.no_context_nothing_runs]); the
    animation frame
    request is never cancelled ([Component.loops_never_stop]); without a
    [width] prop a resize of the window rebuilds the cloth, off centre
    ([Component.window_resize_truthy], [Component.resize_off_centre]).

    ** Bounds and conventions

    The grid dimensions [clothWidth] and [clothHeight] and the iteration
    count [physicsAccuracy] are natural numbers: the loops
    [for (y = 0; y <= clothHeight; y++)] run [clothHeight + 1] times and need
    no fuel.  An index that is out of range (a dangling reference, which the
    source cannot build) makes an operation leave the store unchanged; [wf]
    excludes it and every theorem that depends on it assumes [wf] or proves
    it.  [x ** 2] is modelled as [x * x].  [resolveConstraints] iterates
    over the link list its point has when the loop starts: [resolve]
    replaces the field [constraints] by a filtered copy and never mutates
    the array being iterated.  The concrete runs use the default settings
    on a 2 by 2 grid (nine points, twelve links) in a canvas of 200 by 200,
    which is large enough to have a corner, an edge and an interior point
    and small enough to evaluate in well under a second.

    The only fuel of the development is that of [Component.settle], the
    repetition of calls of the component while a state update is queued.
    It is [update_depth = 50], the number of nested updates after which
    React gives up; [Component.rerender_settles] shows that one call is
    always enough, so the bound is never reached.  [Math.floor] is read as
    an integer: it is used for a column count only, and a width that is
    NaN or infinite, for which the count is not a number, is outside the
    model, as are fractional and negative counts given as props.  The
    counts being natural numbers, a negative [width] prop without a
    [clothWidth], for which [Math.floor(width / 14)] is negative and the
    loop [x <= clothWidth] of the source builds no point at all, is
    outside the model too: [Data.destructure] gives it zero columns, that
    is one point per row.  The theorems on the default cloth assume a
    window of nonnegative width.  The sizes of the window and of the
    canvas are taken as the numbers React is given; the coercion of the
    [width] attribute by the DOM is not modelled, and neither is the
    reset of the canvas bitmap that the browser performs when the size
    attributes change: [Component.window_resize] changes the size and
    leaves the calls made on the context as they are, and the next frame
    clears the canvas in any case.

    ** Not modelled

    React and the browser themselves: they are libraries the source calls,
    and what the component relies on is stated as the definitions named
    above, not derived from their code.  Of the DOM, what the handlers read
    (a pointer event carries its coordinates, its button and the bounding
    rectangle at that time) and the size attributes and the style of the
    canvas element; layout is not modelled.  Of the 2D context, the six
    calls the simulator makes, with [clearRect] read as clearing the whole
    canvas, which is how the source calls it.  The timing of animation
    frames: a frame is an event of the trace.  Lines 1-3 ([use client] and
    the import) have no behaviour to model. *)

From stdpp Require Export list.
From Stdlib Require Export ZArith Lia.

(** ** Automation *)

Create HintDb cloth.

(** [case_lookup] splits on the first array read [l !! i] that is the
  scrutinee of a [match] in the goal. *)
Ltac case_lookup :=
  match goal with
  | |- context [match ?l !! ?i with _ => _ end] =>
      let E := fresh "E" in destruct (l !! i) eqn:E
  end.

(** [simpl_alter] normalises reads of in-place updates. *)
Ltac simpl_alter :=
  repeat first
    [ rewrite length_alter
    | rewrite list_lookup_alter_eq
    | rewrite list_lookup_alter_ne by (done || lia) ].

(** ** Iteration *)

Section iteration.
Context {A B : Type} (R : relation A) `{!PreOrder R}.

(** A fold whose every step stays above its argument stays above its
    start: the loop rule for [forEach] and [for ... of]. *)
Lemma foldl_above (f : A → B → A) (l : list B) (a : A) :
  (∀ a x, R a (f a x)) → R a (foldl f a l).
Proof.
  intros Hf. revert a. induction l as [|x l IH]; intros a; simpl; [done|].
  by etrans; [apply (Hf a x)|apply IH].
Qed.

(** The same for a counted loop. *)
Lemma iter_above (f : A → A) (n : nat) (a : A) :
  (∀ a, R a (f a)) → R a (Nat.iter n f a).
Proof.
  intros Hf. induction n as [|n IH]; simpl; [done|].
  by etrans; [apply IH|apply Hf].
Qed.
End iteration.

(** An invariant of every step of a fold is an invariant of the fold. *)
Lemma foldl_invariant {A B} (P : A → Prop) (f : A → B → A) l a :
  (∀ a x, P a → P (f a x)) → P a → P (foldl f a l).
Proof. intros Hf. revert a. induction l; simpl; eauto. Qed.

(** The same for a counted loop. *)
Lemma iter_invariant {A} (P : A → Prop) (f : A → A) n a :
  (∀ a, P a → P (f a)) → P a → P (Nat.iter n f a).
Proof. intros Hf Ha. induction n; simpl; auto. Qed.

(** The same, when the body keeps the invariant for the elements of the
    list only. *)
Lemma foldl_invariant_elem {A B} (P : A → Prop) (f : A → B → A) l a :
  (∀ a x, x ∈ l → P a → P (f a x)) → P a → P (foldl f a l).
Proof.
  revert a. induction l as [|x l IH]; intros a Hf Ha; simpl; [done|].
  apply IH; [|apply Hf; [apply list_elem_of_here|done]].
  intros a' y Hy. apply Hf. by apply list_elem_of_further.
Qed.

(** ** Arrays *)

Section arrays.
Context {A : Type}.
Implicit Types (l : list A) (f : A → A) (i j : nat).

(** An in-place update of a slot that cannot be read changes nothing. *)
Lemma alter_None f l i : l !! i = None → alter f i l = l.
Proof.
  revert i. induction l as [|x l IH]; intros [|i] ?; simplify_eq/=; [done..|].
  f_equal. by apply IH.
Qed.

(** What a read finds after an in-place update. *)
Lemma lookup_alter_Some f l i j y :
  alter f i l !! j = Some y →
  ∃ x, l !! j = Some x ∧ ((i = j ∧ y = f x) ∨ (i ≠ j ∧ y = x)).
Proof.
  destruct (decide (i = j)) as [->|Hne].
  - rewrite list_lookup_alter_eq. destruct (l !! j) as [x|]; [|done].
    intros [= <-]. eauto.
  - rewrite list_lookup_alter_ne by done. eauto.
Qed.

Lemma lookup_alter_eq_Some f l i x :
  l !! i = Some x → alter f i l !! i = Some (f x).
Proof. intros E. by rewrite list_lookup_alter_eq, E. Qed.

(** An in-place update of a slot that holds [x] stores [f x] there. *)
Lemma alter_as_insert f l i x : l !! i = Some x → alter f i l = <[i:=f x]> l.
Proof.
  revert i. induction l as [|a l IH]; intros [|i] E; simplify_eq/=; [done|].
  f_equal. by apply IH.
Qed.

(** A projection that the update does not change reads the same array. *)
Lemma fmap_alter_keep {B} (g : A → B) f i l :
  (∀ a, g (f a) = g a) → g <$> alter f i l = g <$> l.
Proof.
  intros Hg. revert i. induction l as [|a l IH]; intros [|i]; simpl; [done..| |].
  - by rewrite Hg.
  - f_equal. apply IH.
Qed.

(** Appending one element: the new element sits at index [length l]. *)
Lemma lookup_snoc l x : (l ++ [x]) !! length l = Some x.
Proof. by rewrite lookup_app_r, Nat.sub_diag. Qed.

Lemma lookup_snoc_Some l x i y :
  (l ++ [x]) !! i = Some y ↔
  (i < length l ∧ l !! i = Some y) ∨ (i = length l ∧ y = x).
Proof.
  rewrite lookup_app_Some, list_lookup_singleton_Some.
  split; intros [H|H]; [left|right|left|right].
  - split; [by eapply lookup_lt_Some|done].
  - destruct H as (? & ? & ->). split; [lia|done].
  - by destruct H.
  - destruct H as [-> ->]. split; [lia|]. split; [lia|done].
Qed.
End arrays.

(** ** Sublists and concatenation *)

Lemma sublist_concat {A} (ls ks : list (list A)) :
  Forall2 sublist ls ks → concat ls `sublist_of` concat ks.
Proof. induction 1; simpl; [done|]. by apply sublist_app. Qed.

Lemma elem_of_concat {A} (ls : list (list A)) (x : A) :
  x ∈ concat ls ↔ ∃ l, l ∈ ls ∧ x ∈ l.
Proof.
  induction ls as [|k ls IH]; simpl.
  - split; [by intros ?%elem_of_nil|]. by intros (l & ?%elem_of_nil & _).
  - rewrite elem_of_app, IH. split.
    + intros [Hx|(l & Hl & Hx)]; [exists k|exists l];
        (split; [apply elem_of_cons; auto|done]).
    + intros (l & [->|Hl]%elem_of_cons & Hx); eauto.
Qed.

(** Concatenating [n]-element blocks, one per element. *)
Lemma length_concat_blocks {A B} (f : A → list B) (n : nat) (l : list A) :
  (∀ a, a ∈ l → length (f a) = n) → length (concat (f <$> l)) = n * length l.
Proof.
  induction l as [|a l IH]; intros H; [simpl; lia|].
  rewrite fmap_cons. cbn [concat length]. rewrite length_app, IH, H;
    [lia|apply list_elem_of_here|].
  intros b Hb. apply H. by apply list_elem_of_further.
Qed.

(** ** Filters *)

Section filters.
Context {A : Type} (P : A → Prop) `{!∀ a, Decision (P a)}.

Lemma filter_Forall_id (l : list A) : Forall P l → filter P l = l.
Proof.
  induction 1 as [|a l Ha _ IH]; [done|]. by rewrite filter_cons_True, IH.
Qed.

Lemma filter_concat (ls : list (list A)) :
  filter P (concat ls) = concat (filter P <$> ls).
Proof.
  induction ls as [|l ls IH]; simpl; [done|]. by rewrite filter_app, IH.
Qed.

Lemma filter_idemp (l : list A) : filter P (filter P l) = filter P l.
Proof. by apply list_filter_filter_r. Qed.
End filters.

(** Two arrays agree under two projections when they do so slot by slot. *)
Lemma fmap_eq_lookup {A B} (g h : A → B) (l k : list A) :
  length l = length k →
  (∀ i a, k !! i = Some a → ∃ b, l !! i = Some b ∧ g b = h a) →
  g <$> l = h <$> k.
Proof.
  intros Hlen H. apply list_eq. intros i. rewrite !list_lookup_fmap.
  destruct (k !! i) as [a|] eqn:E.
  - destruct (H i a E) as (b & -> & Hb). simpl. by rewrite Hb.
  - apply lookup_ge_None in E. rewrite <- Hlen in E.
    apply lookup_ge_None in E. by rewrite E.
Qed.

Lemma sublist_length_eq {A} (l k : list A) :
  l `sublist_of` k → length l = length k → l = k.
Proof.
  induction 1 as [|x l k _ IH|x l k Hs IH]; simpl; intros Hlen; [done| |].
  - f_equal. apply IH. lia.
  - apply sublist_length in Hs. lia.
Qed.

(** ** Fixed points *)

(** A loop whose body leaves the state unchanged for every element does
    nothing. *)
Lemma foldl_fixed {A B} (f : A → B → A) (l : list B) (a : A) :
  (∀ b, b ∈ l → f a b = a) → foldl f a l = a.
Proof.
  induction l as [|b l IH]; intros H; simpl; [done|].
  rewrite H by apply list_elem_of_here. apply IH.
  intros b' Hb'. by apply H, list_elem_of_further.
Qed.

Lemma iter_fixed {A} (f : A → A) (n : nat) (a : A) :
  f a = a → Nat.iter n f a = a.
Proof. intros H. induction n as [|n IH]; simpl; [done|]. by rewrite IH. Qed.

(** An assignment of the value a slot already holds. *)
Lemma alter_fixed {A} (f : A → A) (l : list A) (i : nat) (x : A) :
  l !! i = Some x → f x = x → alter f i l = l.
Proof.
  intros Hx Hf. rewrite (alter_as_insert f l i x), Hf by done.
  by apply list_insert_id.
Qed.

(** ** Loops over the indices of an array *)

(** A loop that updates every slot of an array in place, in index order,
    is a map over the array. *)
Lemma foldl_alter_take {A} (f : A → A) (l : list A) (n : nat) :
  n ≤ length l →
  foldl (λ l i, alter f i l) l (seq 0 n) = (f <$> take n l) ++ drop n l.
Proof.
  induction n as [|n IH]; intros Hn; [by rewrite take_0, drop_0|].
  rewrite seq_S, foldl_snoc, IH by lia. simpl.
  destruct (lookup_lt_is_Some_2 l n) as [a Ha]; [lia|].
  rewrite (drop_S l a n Ha), (take_S_r l n a Ha), fmap_app. simpl.
  rewrite <- (Nat.add_0_r n) at 1.
  replace (n + 0) with (length (f <$> take n l) + 0)
    by (rewrite length_fmap, length_take; lia).
  rewrite alter_app_r. simpl. by rewrite <- app_assoc.
Qed.

Lemma foldl_alter_seq {A} (f : A → A) (l : list A) :
  foldl (λ l i, alter f i l) l (seq 0 (length l)) = f <$> l.
Proof.
  rewrite foldl_alter_take by done. by rewrite firstn_all, drop_all, app_nil_r.
Qed.

(** Loops with pointwise equal bodies. *)
Lemma foldl_ext_all {A B} (f g : A → B → A) (l : list B) (a : A) :
  (∀ a b, f a b = g a b) → foldl f a l = foldl g a l.
Proof.
  intros H. revert a. induction l as [|b l IH]; intros a; simpl; [done|].
  by rewrite H, IH.
Qed.

(** ** Row-major indices *)

(** The cell to the left of a cell that is not in the first column is in
    the same row. *)
Lemma left_cell (k W : nat) :
  0 < W → k mod W ≠ 0 → (k - 1) mod W = k mod W - 1 ∧ (k - 1) / W = k / W.
Proof.
  intros HW Hk. pose proof (Nat.div_mod_eq k W) as E.
  pose proof (Nat.mod_upper_bound k W) as Hlt.
  split; symmetry.
  - apply (Nat.mod_unique _ _ (k / W)); lia.
  - apply (Nat.div_unique _ _ _ (k mod W - 1)); lia.
Qed.

(** The cell above a cell that is not in the first row is in the same
    column. *)
Lemma up_cell (k W : nat) :
  0 < W → k / W ≠ 0 → (k - W) mod W = k mod W ∧ (k - W) / W = k / W - 1.
Proof.
  intros HW Hk. pose proof (Nat.div_mod_eq k W) as E.
  pose proof (Nat.mod_upper_bound k W) as Hlt.
  split; symmetry.
  - apply (Nat.mod_unique _ _ (k / W - 1)); nia.
  - apply (Nat.div_unique _ _ _ (k mod W)); nia.
Qed.

#[export] Hint Resolve sublist_filter sublist_concat : cloth.
#[export] Hint Extern 1 (_ `sublist_of` _) => reflexivity : cloth.
