(* ===== verification/Number.v ===== *)
(** * Number: the interface of JavaScript numbers the simulator uses

    The source computes with [number] only through the operations below.
    The components are written against this class; [Float64] instantiates
    it with IEEE 754 doubles (what the program runs on) and [Ideal] with
    the real numbers (what its author reasons in).  [OrderLaws] states the
    order facts the clamp of [resolveConstraints] relies on, for the
    numbers that are [ordered]: every real, and every double but NaN. *)

From S2P Require Import Prelude.

(** ** Operations *)

Class Number (T : Type) := {
  of_Z : Z → T;           (* an integer literal or loop counter as a number *)
  add : T → T → T;        (* a + b *)
  sub : T → T → T;        (* a - b *)
  mul : T → T → T;        (* a * b *)
  div : T → T → T;        (* a / b *)
  sqrt : T → T;           (* Math.sqrt(a) *)
  ltb : T → T → bool;     (* a < b *)
  max2 : T → T → T;       (* Math.max(a, b) *)
  min2 : T → T → T;       (* Math.min(a, b) *)
  falsy : T → bool;       (* !a: the left operand of a || b is skipped *)
  floor : T → Z;          (* Math.floor(a), for a finite a *)
}.

Declare Scope num_scope.
Delimit Scope num_scope with num.
Infix "+" := add : num_scope.
Infix "-" := sub : num_scope.
Infix "*" := mul : num_scope.
Infix "/" := div : num_scope.
Infix "<?" := ltb : num_scope.
Notation "a >? b" := (ltb b a) (at level 70, only parsing) : num_scope.

Section literals.
Context {T : Type} `{!Number T}.

(** A loop counter used as a number, as in [x * spacing]. *)
Definition of_nat (n : nat) : T := of_Z (Z.of_nat n).

(** The decimal literal [n / 10^k], written as the quotient of two integers:
    [dec 99 100] is [0.99].  Both instances round it the way a JavaScript
    parser rounds the literal (see [Float64.dec_is_literal]). *)
Definition dec (n d : Z) : T := (of_Z n / of_Z d)%num.

(** The literals of the source. *)
Definition n0 : T := of_Z 0.
Definition n1 : T := of_Z 1.
Definition n2 : T := of_Z 2.
Definition half : T := dec 5 10.          (* 0.5 *)
Definition damping : T := dec 99 100.     (* 0.99 *)
Definition timestep : T := dec 16 1000.   (* 0.016 *)

(** [Math.max(lo, Math.min(hi, v))], the clamp of [resolveConstraints]. *)
Definition clamp (lo hi v : T) : T := max2 lo (min2 hi v).

End literals.

(** ** Order laws *)

(** What the clamp needs of [Math.max] and [Math.min]: on the [ordered]
    numbers they are an upper and a lower bound for the order [nle], and
    [Math.max] is below every common upper bound. *)
Class OrderLaws (T : Type) `{!Number T} := {
  nle : relation T;
  ordered : T → Prop;
  min2_ordered a b : ordered a → ordered b → ordered (min2 a b);
  max2_ub_l a b : ordered a → ordered b → nle a (max2 a b);
  max2_lub a b c : ordered a → ordered b → nle a c → nle b c → nle (max2 a b) c;
  min2_lb_l a b : ordered a → ordered b → nle (min2 a b) a;
}.

Section clamp.
Context {T : Type} `{!Number T, !OrderLaws T}.

(** A nonempty interval with ordered bounds, and its elements. *)
Definition interval (lo hi : T) : Prop := ordered lo ∧ ordered hi ∧ nle lo hi.
Definition within (lo hi v : T) : Prop := nle lo v ∧ nle v hi.

(** The clamp of an ordered number lands in [[lo, hi]] whenever that
    interval is not empty. *)
Lemma clamp_bounds (lo hi v : T) :
  interval lo hi → ordered v → within lo hi (clamp lo hi v).
Proof.
  intros (Hlo & Hhi & Hlh) Hv. unfold clamp.
  pose proof (min2_ordered hi v Hhi Hv) as Hm.
  split; [by apply max2_ub_l|].
  apply max2_lub; [done..|by apply min2_lb_l].
Qed.

End clamp.
