(* ===== verification/Float64.v ===== *)
(** * Float64: JavaScript numbers as IEEE 754 binary64

    Rocq's primitive [float] is the binary64 format with round-to-nearest-even,
    which is the [number] type of ECMAScript.  [+ - * /], [Math.sqrt] and [<]
    are the primitive operations; truthiness, [Math.max] and [Math.min] are
    written out from ECMAScript (7.1.2 and 21.3.2.24-25): NaN if an
    argument is NaN, [+0] above [-0].  On this instance every definition of
    the library runs by [vm_compute], and [OrderLaws] holds with the doubles
    that are not NaN as the ordered numbers.  The section [special] derives
    from the specification of the primitive operations how NaN, the zeros
    and the infinities go through them. *)

From Stdlib Require Import Floats.
From S2P Require Import Prelude Number.

(** ** The instance *)

(** An integer as the nearest double (exact below [2^53]). *)
Definition float_of_Z (z : Z) : float :=
  SF2Prim (binary_normalize prec emax z 0 false).

(** [Math.max(a, b)]. *)
Definition js_max (a b : float) : float :=
  if is_nan a || is_nan b then nan
  else if PrimFloat.ltb a b then b
  else if PrimFloat.ltb b a then a
  else if get_sign a then b else a.

(** [Math.min(a, b)]. *)
Definition js_min (a b : float) : float :=
  if is_nan a || is_nan b then nan
  else if PrimFloat.ltb a b then a
  else if PrimFloat.ltb b a then b
  else if get_sign a then a else b.

(** A number is falsy when it is [+0], [-0] or NaN. *)
Definition js_falsy (a : float) : bool := is_nan a || is_zero a.

(** [Math.floor(a)] of a finite double [(-1)^s * m * 2^e], as an integer
    ([Z.shiftr] rounds towards minus infinity).  The source uses it for a
    column count; on NaN and the infinities, which are not integers, the
    value is [0]. *)
Definition js_floor (a : float) : Z :=
  match Prim2SF a with
  | S754_finite s m e =>
      let z := if s then Z.neg m else Z.pos m in
      if (0 <=? e)%Z then z * 2 ^ e else Z.shiftr z (- e)
  | _ => 0
  end.

#[export] Instance float_number : Number float := {|
  of_Z := float_of_Z;
  add := PrimFloat.add;
  sub := PrimFloat.sub;
  mul := PrimFloat.mul;
  div := PrimFloat.div;
  sqrt := PrimFloat.sqrt;
  ltb := PrimFloat.ltb;
  max2 := js_max;
  min2 := js_min;
  falsy := js_falsy;
  floor := js_floor;
|}.

(** ** The literals are the doubles a JavaScript parser produces *)

(** [0.99], [0.5] and [0.016] as quotients of integers are the correctly
    rounded decimal literals (hexadecimal notation is exact). *)
Lemma dec_is_literal :
  (damping : float) = 0x1.fae147ae147aep-1%float ∧
  (half : float) = 0x1p-1%float ∧
  (timestep : float) = 0x1.0624dd2f1a9fcp-6%float.
Proof. by vm_compute. Qed.

(** ** Order facts of the primitive comparison *)

(** [<] is never true of a NaN. *)
Lemma ltb_not_nan (a b : float) :
  PrimFloat.ltb a b = true → is_nan a = false ∧ is_nan b = false.
Proof.
  unfold is_nan. rewrite FloatAxioms.ltb_spec, !FloatAxioms.eqb_spec. unfold SFltb, SFeqb.
  destruct (Prim2SF a) as [| s| |s m e], (Prim2SF b) as [|s'| |s' m' e'];
    simpl; try discriminate; intros _;
    repeat match goal with b : bool |- _ => destruct b end; simpl;
    rewrite ?Z.compare_refl, ?Pos.compare_refl; simpl;
    rewrite ?Pos.compare_refl; auto.
Qed.

(** [a < b] implies [a <= b]. *)
Lemma ltb_leb (a b : float) :
  PrimFloat.ltb a b = true → PrimFloat.leb a b = true.
Proof.
  rewrite FloatAxioms.ltb_spec, FloatAxioms.leb_spec. unfold SFltb, SFleb.
  by destruct (SFcompare _ _) as [[]|].
Qed.

(** ** The order away from NaN *)

(** Swapping the operands of the comparison reverses its result. *)
Lemma SFcompare_swap (u v : spec_float) :
  SFcompare v u = CompOpp <$> SFcompare u v.
Proof.
  destruct u as [s|s| |s m e], v as [s'|s'| |s' m' e']; simpl; try done;
    try (by destruct s); try (by destruct s'); try (by destruct s, s').
  change (Pos.compare_cont Eq m' m) with (m' ?= m)%positive.
  change (Pos.compare_cont Eq m m') with (m ?= m')%positive.
  rewrite (Z.compare_antisym e e'), (Pos.compare_antisym m m').
  by destruct s, s', (e ?= e')%Z, (m ?= m')%positive.
Qed.

(** A double that is not NaN compares equal to itself. *)
Lemma SFcompare_refl (a : float) :
  is_nan a = false → SFcompare (Prim2SF a) (Prim2SF a) = Some Eq.
Proof.
  unfold is_nan. rewrite FloatAxioms.eqb_spec. unfold SFeqb.
  by destruct (SFcompare _ _) as [[]|].
Qed.

(** Two doubles that are not NaN are comparable. *)
Lemma SFcompare_defined (a b : float) :
  is_nan a = false → is_nan b = false →
  ∃ o, SFcompare (Prim2SF a) (Prim2SF b) = Some o.
Proof.
  intros Ha%SFcompare_refl Hb%SFcompare_refl.
  destruct (Prim2SF a) as [s|s| |s m e], (Prim2SF b) as [s'|s'| |s' m' e'];
    try done; simpl; eauto.
Qed.

(** [<=] is reflexive away from NaN. *)
Lemma leb_refl (a : float) : is_nan a = false → PrimFloat.leb a a = true.
Proof.
  intros Ha%SFcompare_refl. rewrite FloatAxioms.leb_spec. unfold SFleb. by rewrite Ha.
Qed.

(** Two doubles neither of which is below the other are equal in the
    order (they are the same number, or the two zeros). *)
Lemma leb_of_not_ltb (a b : float) :
  is_nan a = false → is_nan b = false →
  PrimFloat.ltb a b = false → PrimFloat.ltb b a = false →
  PrimFloat.leb a b = true ∧ PrimFloat.leb b a = true.
Proof.
  intros Ha Hb. destruct (SFcompare_defined a b Ha Hb) as [o Ho].
  rewrite !FloatAxioms.ltb_spec, !FloatAxioms.leb_spec. unfold SFltb, SFleb.
  rewrite (SFcompare_swap (Prim2SF a) (Prim2SF b)), Ho. by destruct o.
Qed.

(** What [Math.max] and [Math.min] return when no argument is NaN: one of
    the arguments, above (below) both. *)
Lemma js_max_spec (a b : float) :
  is_nan a = false → is_nan b = false →
  (js_max a b = a ∨ js_max a b = b) ∧
  PrimFloat.leb a (js_max a b) = true ∧ PrimFloat.leb b (js_max a b) = true.
Proof.
  intros Ha Hb. unfold js_max. rewrite Ha, Hb. simpl.
  destruct (PrimFloat.ltb a b) eqn:E1.
  { split; [by right|]. split; [by apply ltb_leb|by apply leb_refl]. }
  destruct (PrimFloat.ltb b a) eqn:E2.
  { split; [by left|]. split; [by apply leb_refl|by apply ltb_leb]. }
  destruct (leb_of_not_ltb a b Ha Hb E1 E2) as [H1 H2].
  destruct (get_sign a); (split; [auto|]); split; auto using leb_refl.
Qed.

Lemma js_min_spec (a b : float) :
  is_nan a = false → is_nan b = false →
  (js_min a b = a ∨ js_min a b = b) ∧
  PrimFloat.leb (js_min a b) a = true ∧ PrimFloat.leb (js_min a b) b = true.
Proof.
  intros Ha Hb. unfold js_min. rewrite Ha, Hb. simpl.
  destruct (PrimFloat.ltb a b) eqn:E1.
  { split; [by left|]. split; [by apply leb_refl|by apply ltb_leb]. }
  destruct (PrimFloat.ltb b a) eqn:E2.
  { split; [by right|]. split; [by apply ltb_leb|by apply leb_refl]. }
  destruct (leb_of_not_ltb a b Ha Hb E1 E2) as [H1 H2].
  destruct (get_sign a); (split; [auto|]); split; auto using leb_refl.
Qed.

(** ** The order laws hold of the doubles that are not NaN *)

#[export] Instance float_order : OrderLaws float.
Proof.
  refine {| nle := λ a b, PrimFloat.leb a b = true;
            ordered := λ a, is_nan a = false |}.
  - intros a b Ha Hb; simpl.
    by destruct (js_min_spec a b Ha Hb) as ([-> | ->] & _).
  - intros a b Ha Hb; simpl. by destruct (js_max_spec a b Ha Hb) as (_ & ? & _).
  - intros a b c Ha Hb Hac Hbc; simpl.
    by destruct (js_max_spec a b Ha Hb) as ([-> | ->] & _).
  - intros a b Ha Hb; simpl. by destruct (js_min_spec a b Ha Hb) as (_ & ? & _).
Defined.

(** On doubles, the clamp of a number that is not NaN between bounds that
    are not NaN lands between the bounds (and is not NaN). *)
Theorem clamp_float_bounds (lo hi v : float) :
  is_nan lo = false → is_nan hi = false → is_nan v = false →
  PrimFloat.leb lo hi = true →
  PrimFloat.leb lo (@clamp float float_number lo hi v) = true ∧
  PrimFloat.leb (@clamp float float_number lo hi v) hi = true ∧
  is_nan (@clamp float float_number lo hi v) = false.
Proof.
  intros Hlo Hhi Hv Hle.
  destruct (clamp_bounds lo hi v) as [H1 H2]; [done..|].
  split; [done|]. split; [done|]. unfold clamp; simpl.
  destruct (js_min_spec hi v Hhi Hv) as (Hm & _).
  assert (is_nan (js_min hi v) = false) as Hn by (by destruct Hm as [-> | ->]).
  by destruct (js_max_spec lo (js_min hi v) Hlo Hn) as ([-> | ->] & _).
Qed.

(** [Math.max(1, Math.min(199, 300))] is [199]. *)
Lemma clamp_float_bounds_witness :
  (PrimFloat.leb 1 (@clamp float float_number 1 199 300) = true ∧
   PrimFloat.leb (@clamp float float_number 1 199 300) 199 = true ∧
   is_nan (@clamp float float_number 1 199 300) = false)%float.
Proof. by apply (clamp_float_bounds 1 199 300). Defined.

(** ** Special values

    How NaN, the zeros and the infinities go through the operations: read
    off the specification of the primitive operations
    ([FloatAxioms.add_spec] and the like) by cases on the class of the
    operands. *)

Section special.
Local Open Scope float_scope.
Implicit Types (a b : float).

(** [+0] or NaN: what [a - a] can be, and a sum of squares of such. *)
Definition zero_or_nan a : Prop :=
  Prim2SF a = S754_zero false ∨ Prim2SF a = S754_nan.

(** An infinity or NaN: what a division by such a number gives. *)
Definition inf_or_nan a : Prop :=
  (∃ s, Prim2SF a = S754_infinity s) ∨ Prim2SF a = S754_nan.

(** [is_nan] holds of the NaN datum only. *)
Lemma is_nan_datum a : is_nan a = true ↔ Prim2SF a = S754_nan.
Proof.
  unfold is_nan. rewrite FloatAxioms.eqb_spec. unfold SFeqb.
  destruct (Prim2SF a) as [[]|[]| |[] m e]; simpl;
    rewrite ?Z.compare_refl, ?Pos.compare_refl; simpl; rewrite ?Pos.compare_refl; done.
Qed.

(** [float_cases] replaces the primitive operations of the goal by their
    specifications on the data of the operands. *)
Ltac float_cases :=
  unfold zero_or_nan, inf_or_nan; rewrite ?is_nan_datum;
  rewrite ?FloatAxioms.add_spec, ?FloatAxioms.sub_spec, ?FloatAxioms.mul_spec,
    ?FloatAxioms.div_spec, ?FloatAxioms.sqrt_spec;
  unfold SF64add, SF64sub, SF64mul, SF64div, SF64sqrt,
    SFadd, SFsub, SFmul, SFdiv, SFsqrt.

(** NaN is absorbing. *)
Lemma add_nan_l a b : is_nan a = true → is_nan (a + b) = true.
Proof. float_cases. by intros ->. Qed.

Lemma add_nan_r a b : is_nan b = true → is_nan (a + b) = true.
Proof. float_cases. intros ->. by destruct (Prim2SF a). Qed.

Lemma sub_nan_l a b : is_nan a = true → is_nan (a - b) = true.
Proof. float_cases. by intros ->. Qed.

Lemma sub_nan_r a b : is_nan b = true → is_nan (a - b) = true.
Proof. float_cases. intros ->. by destruct (Prim2SF a). Qed.

Lemma mul_nan_l a b : is_nan a = true → is_nan (a * b) = true.
Proof. float_cases. by intros ->. Qed.

Lemma js_max_nan a b : is_nan b = true → is_nan (js_max a b) = true.
Proof. unfold js_max. intros ->. by rewrite orb_true_r. Qed.

Lemma js_min_nan a b : is_nan b = true → is_nan (js_min a b) = true.
Proof. unfold js_min. intros ->. by rewrite orb_true_r. Qed.

(** The clamp of [resolveConstraints] does not repair a NaN coordinate. *)
Lemma clamp_nan lo hi v :
  is_nan v = true → is_nan (@clamp float float_number lo hi v) = true.
Proof. intros Hv. by apply js_max_nan, js_min_nan. Qed.

(** A number minus itself is [+0], or NaN when it is not finite. *)
Lemma shl_align_diag m e : shl_align m e e = (m, e).
Proof. unfold shl_align. by rewrite Z.sub_diag. Qed.

Lemma sub_diag a : zero_or_nan (a - a).
Proof.
  float_cases. destruct (Prim2SF a) as [[]|[]| |s m e]; auto.
  rewrite Z.min_id, shl_align_diag, Z.sub_diag. by left.
Qed.

(** Products, sums and square roots of such numbers are such numbers. *)
Lemma mul_zero_or_nan a b : zero_or_nan a → zero_or_nan b → zero_or_nan (a * b).
Proof. float_cases. intros [Ha|Ha] [Hb|Hb]; rewrite Ha, ?Hb; auto. Qed.

Lemma add_zero_or_nan a b : zero_or_nan a → zero_or_nan b → zero_or_nan (a + b).
Proof. float_cases. intros [Ha|Ha] [Hb|Hb]; rewrite Ha, ?Hb; auto. Qed.

Lemma sqrt_zero_or_nan a : zero_or_nan a → zero_or_nan (PrimFloat.sqrt a).
Proof. float_cases. intros [Ha|Ha]; rewrite Ha; auto. Qed.

(** Nothing is below [+0] or NaN unless it is below [0]. *)
Lemma ltb_zero_or_nan a b :
  zero_or_nan b → PrimFloat.ltb a 0 = false → PrimFloat.ltb a b = false.
Proof.
  rewrite !FloatAxioms.ltb_spec. unfold SFltb.
  intros [Hb|Hb]; rewrite Hb; [done|]. by destruct (Prim2SF a).
Qed.

(** Whatever is divided by [+0] or NaN, the quotient is infinite or NaN. *)
Lemma div_zero_or_nan a b : zero_or_nan b → inf_or_nan (a / b).
Proof.
  float_cases. intros [Hb|Hb]; rewrite Hb; destruct (Prim2SF a) as [?|?| |? ? ?]; eauto.
Qed.

(** [0 * infinity] is NaN. *)
Lemma mul_zero_inf a b : zero_or_nan a → inf_or_nan b → is_nan (a * b) = true.
Proof. float_cases. by intros [Ha|Ha] [[s Hb]|Hb]; rewrite Ha, ?Hb. Qed.

End special.

(** The zeros are ordered as ECMAScript orders them. *)
Lemma js_max_min_zeros :
  js_max (-0)%float 0%float = 0%float ∧ js_max 0%float (-0)%float = 0%float ∧
  js_min (-0)%float 0%float = (-0)%float ∧ js_min 0%float (-0)%float = (-0)%float.
Proof. by vm_compute. Qed.

(** ** Identity of numbers and rounding down *)

(** [Object.is] on doubles is equality of the datum: NaN is the same as
    itself and the two zeros differ. *)
#[export] Instance float_eq_dec : EqDecision float.
Proof.
  intros a b. destruct (PrimFloat.Leibniz.eqb a b) eqn:E.
  - left. by apply FloatAxioms.Leibniz.eqb_spec.
  - right. intros H. apply FloatAxioms.Leibniz.eqb_spec in H. congruence.
Defined.

Lemma float_eq_dec_examples :
  bool_decide (nan = nan) = true ∧ bool_decide (0 = -0)%float = false ∧
  bool_decide (float_of_Z 1400 = 1400%float) = true.
Proof. by vm_compute. Qed.

(** [Math.floor] rounds towards minus infinity. *)
Lemma js_floor_examples :
  js_floor (1400 / 14) = 100%Z ∧ js_floor (1399 / 14) = 99%Z ∧
  js_floor 2.5 = 2%Z ∧ js_floor (-0.5) = (-1)%Z ∧ js_floor (-3) = (-3)%Z ∧
  js_floor 0 = 0%Z.
Proof. by vm_compute. Qed.
