(* ===== verification/Ideal.v ===== *)
(** * Ideal: the simulator in exact real arithmetic

    The instance of [Number] on the real numbers and the proof that it
    satisfies [OrderLaws], every real being ordered.  The theorems that need algebra (a relaxed link
    is at its rest length, free fall follows the damped recurrence) are
    stated on this instance in the component files' exact-arithmetic
    sections.  The instance is not executable: [<] is decided by
    [Rlt_dec]. *)

From Stdlib Require Import Reals Lra.
From S2P Require Import Prelude Number.

(** ** The instance *)

(** [a < b] on the reals. *)
Definition Rltb (a b : R) : bool := if Rlt_dec a b then true else false.

#[export] Instance real_number : Number R := {|
  of_Z := IZR;
  add := Rplus;
  sub := Rminus;
  mul := Rmult;
  div := Rdiv;
  sqrt := R_sqrt.sqrt;
  ltb := Rltb;
  max2 := Rmax;
  min2 := Rmin;
  falsy := λ a, if Req_dec_T a 0 then true else false;
  floor := Int_part;
|}.

#[export] Instance real_order : OrderLaws R.
Proof.
  refine {| nle := Rle; ordered := λ _, True |}.
  - done.
  - intros a b _ _. apply Rmax_l.
  - intros a b c _ _. apply Rmax_lub.
  - intros a b _ _. apply Rmin_l.
Defined.

(** ** Reflection of the comparison *)

Lemma Rltb_true (a b : R) : Rltb a b = true ↔ (a < b)%R.
Proof. unfold Rltb. destruct (Rlt_dec a b); split; (done || lra). Qed.

Lemma Rltb_false (a b : R) : Rltb a b = false ↔ (b <= a)%R.
Proof. unfold Rltb. destruct (Rlt_dec a b); split; (done || lra). Qed.

(** ** The literals *)

Lemma real_literals :
  (n0 : R) = 0%R ∧ (n1 : R) = 1%R ∧ (n2 : R) = 2%R ∧
  (half : R) = (1 / 2)%R ∧ (damping : R) = (99 / 100)%R ∧
  (timestep : R) = (2 / 125)%R.
Proof. unfold n0, n1, n2, half, damping, timestep, dec; simpl. lra. Qed.

(** ** The clamp *)

(** The clamp leaves a value of the interval where it is. *)
Lemma clamp_id (lo hi v : R) : (lo <= v <= hi)%R → clamp lo hi v = v.
Proof.
  intros [Hlo Hhi]. unfold clamp; simpl.
  by rewrite (Rmin_right hi v), (Rmax_right lo v).
Qed.

(** ** Loop counters *)

Lemma of_nat_INR (n : nat) : (of_nat n : R) = INR n.
Proof. unfold of_nat; simpl. by rewrite INR_IZR_INZ. Qed.

(** The counter before [n]. *)
Lemma of_nat_pred (n : nat) : n ≠ 0%nat → (of_nat (n - 1) : R) = (of_nat n - 1)%R.
Proof.
  intros Hn. rewrite !of_nat_INR. destruct n as [|n]; [done|].
  rewrite S_INR. replace (S n - 1)%nat with n by lia. simpl. lra.
Qed.

(** ** Square roots of sums of squares *)

Lemma sumsq_nonneg (a b : R) : (0 <= a * a + b * b)%R.
Proof. nra. Qed.

Lemma sqrt_sumsq_nonneg (a b : R) : (0 <= R_sqrt.sqrt (a * a + b * b))%R.
Proof. apply sqrt_pos. Qed.

Lemma sqrt_sumsq_sqr (a b : R) :
  (R_sqrt.sqrt (a * a + b * b) * R_sqrt.sqrt (a * a + b * b) = a * a + b * b)%R.
Proof. apply sqrt_sqrt. nra. Qed.

(** The length of an offset along one axis. *)
Lemma sqrt_sumsq_axis (a : R) :
  (0 <= a)%R → R_sqrt.sqrt (a * a + 0 * 0) = a ∧ R_sqrt.sqrt (0 * 0 + a * a) = a.
Proof.
  intros Ha. replace (a * a + 0 * 0)%R with (a * a)%R by lra.
  replace (0 * 0 + a * a)%R with (a * a)%R by lra. by rewrite sqrt_square.
Qed.

(** The square root of a sum of squares vanishes only at the origin. *)
Lemma sqrt_sumsq_zero (a b : R) :
  R_sqrt.sqrt (a * a + b * b) = 0%R → a = 0%R ∧ b = 0%R.
Proof.
  intros H. pose proof (sqrt_sumsq_sqr a b) as Hs. rewrite H in Hs. nra.
Qed.

(** Scaling both coordinates of an offset of norm [d] by [L / d] gives an
    offset of squared norm [L * L]. *)
Lemma scaled_sumsq (u v L d : R) :
  d ≠ 0%R → (d * d = u * u + v * v)%R →
  ((u * (L / d)) * (u * (L / d)) + (v * (L / d)) * (v * (L / d)) = L * L)%R.
Proof.
  intros Hd Hs. transitivity ((u * u + v * v) * (L / d) * (L / d))%R; [ring|].
  rewrite <- Hs. by field.
Qed.

(** ** Identity of numbers and rounding down *)

#[export] Instance real_eq_dec : EqDecision R := Req_dec_T.

(** [Math.floor] of a quotient of integers is the integer quotient. *)
Lemma floor_quotient (a b : Z) : (0 < b)%Z → floor (IZR a / IZR b)%R = (a / b)%Z.
Proof.
  intros Hb. symmetry. apply Int_part_spec.
  pose proof (Z.mul_div_le a b Hb) as Hlo. pose proof (Z.mul_succ_div_gt a b Hb) as Hhi.
  apply IZR_le in Hlo. apply IZR_lt in Hhi.
  rewrite mult_IZR in Hlo. rewrite mult_IZR, succ_IZR in Hhi.
  assert (0 < IZR b)%R as Hb' by by apply IZR_lt.
  assert (IZR a / IZR b * IZR b = IZR a)%R as Hq by (field; lra).
  nra.
Qed.
