(* ===== verification/Data.v ===== *)
(** * Data: the objects of the simulator and the invariants of the store

    The records follow the fields of [class Point] and [class Constraint],
    the pointer variables, the props and [clothSettings] of the source.  A reference to
    a [Point] is its index in [Cloth.points]; a [Constraint] object is its
    (immutable) fields together with the identity [cid] that stands for its
    address.  The store is the array [Cloth.points].

    [wf] is the invariant of the store; [evolves] is the preorder along
    which every operation of the program moves it; [Evolving] is the class
    of store operations that respect the preorder. *)

From Stdlib Require Import String.
From S2P Require Import Prelude Number.

Section data.
Context {T : Type}.

(** ** Objects *)

(** [class Constraint]: the fields [p1], [p2], [length] (named [len] here,
    [length] being the length of lists), and the object's identity. *)
Record Constraint := mkConstraint {
  cid : nat;
  p1 : nat;
  p2 : nat;
  len : T;
}.

(** [class Point]: its nine fields. *)
Record Point := mkPoint {
  x : T;
  y : T;
  px : T;
  py : T;
  vx : T;
  vy : T;
  pinX : option T;
  pinY : option T;
  constraints : list Constraint;
}.

(** The pointer variables shared by the handlers and [Point.update]. *)
Record Mouse := mkMouse {
  mouseX : T;
  mouseY : T;
  mouseDown : bool;
  mouseButton : Z;
}.

(** [clothSettings], which also holds the props the physics reads. *)
Record Settings := mkSettings {
  physicsAccuracy : nat;
  mouseInfluence : T;
  mouseCut : T;
  gravity : T;
  clothHeight : nat;
  clothWidth : nat;
  startY : T;
  spacing : T;
  tearDistance : T;
}.

(** The canvas element, of which the physics reads the size. *)
Record Canvas := mkCanvas {
  width : T;
  height : T;
}.

(** [ClothSimulationProps] (lines 4-16): every prop is optional. *)
Record ClothSimulationProps := mkGiven {
  opt_width : option T;
  opt_height : option T;
  opt_clothWidth : option nat;
  opt_clothHeight : option nat;
  opt_spacing : option T;
  opt_gravity : option T;
  opt_mouseInfluence : option T;
  opt_mouseCut : option T;
  opt_tearDistance : option T;
  opt_backgroundColor : option string;
  opt_lineColor : option string;
}.

(** The props after the defaults have been applied: the variables the
    body of the component reads (lines 18-30). *)
Record Props := mkProps {
  props_width : T;
  props_height : T;
  props_clothWidth : nat;
  props_clothHeight : nat;
  props_spacing : T;
  props_gravity : T;
  props_mouseInfluence : T;
  props_mouseCut : T;
  props_tearDistance : T;
  props_backgroundColor : string;
  props_lineColor : string;
}.

(** The destructuring of the props (lines 18-30) in a window whose inner
    size is [innerWidth] by [innerHeight] CSS pixels: a prop that is not
    given takes its default, and the default of [clothWidth] reads the
    [width] just bound.  The defaults are evaluated at every call.  The
    count is a natural number: for a negative [width], where the source
    has a negative [clothWidth] and builds no point, the model has zero
    columns. *)
Definition destructure `{!Number T} (given : ClothSimulationProps)
    (innerWidth innerHeight : Z) : Props :=
  let width := default (of_Z innerWidth) (opt_width given) in
  {| props_width := width;
     props_height := default (of_Z innerHeight) (opt_height given);
     props_clothWidth :=
       default (Z.to_nat (floor (width / of_Z 14)%num)) (opt_clothWidth given);
     props_clothHeight := default 60 (opt_clothHeight given);
     props_spacing := default (of_Z 12) (opt_spacing given);
     props_gravity := default (of_Z 1200) (opt_gravity given);
     props_mouseInfluence := default (of_Z 30) (opt_mouseInfluence given);
     props_mouseCut := default (of_Z 15) (opt_mouseCut given);
     props_tearDistance := default (of_Z 60) (opt_tearDistance given);
     props_backgroundColor := default "transparent"%string (opt_backgroundColor given);
     props_lineColor := default "#888"%string (opt_lineColor given) |}.

(** [<ClothSimulation />]: no prop is given. *)
Definition no_props : ClothSimulationProps :=
  mkGiven None None None None None None None None None None None.

(** The props when none is given. *)
Definition default_props `{!Number T} (innerWidth innerHeight : Z) : Props :=
  destructure no_props innerWidth innerHeight.

(** [clothSettings] (lines 41-51). *)
Definition clothSettings `{!Number T} (props : Props) : Settings :=
  {| physicsAccuracy := 3;
     mouseInfluence := props_mouseInfluence props;
     mouseCut := props_mouseCut props;
     gravity := props_gravity props;
     clothHeight := props_clothHeight props;
     clothWidth := props_clothWidth props;
     startY := of_Z 10;
     spacing := props_spacing props;
     tearDistance := props_tearDistance props |}.

(** ** Field assignments *)

Definition set_x (v : T) (p : Point) : Point :=
  mkPoint v (y p) (px p) (py p) (vx p) (vy p) (pinX p) (pinY p) (constraints p).
Definition set_y (v : T) (p : Point) : Point :=
  mkPoint (x p) v (px p) (py p) (vx p) (vy p) (pinX p) (pinY p) (constraints p).
Definition set_px (v : T) (p : Point) : Point :=
  mkPoint (x p) (y p) v (py p) (vx p) (vy p) (pinX p) (pinY p) (constraints p).
Definition set_py (v : T) (p : Point) : Point :=
  mkPoint (x p) (y p) (px p) v (vx p) (vy p) (pinX p) (pinY p) (constraints p).
Definition set_vx (v : T) (p : Point) : Point :=
  mkPoint (x p) (y p) (px p) (py p) v (vy p) (pinX p) (pinY p) (constraints p).
Definition set_vy (v : T) (p : Point) : Point :=
  mkPoint (x p) (y p) (px p) (py p) (vx p) v (pinX p) (pinY p) (constraints p).
Definition set_pinX (v : option T) (p : Point) : Point :=
  mkPoint (x p) (y p) (px p) (py p) (vx p) (vy p) v (pinY p) (constraints p).
Definition set_pinY (v : option T) (p : Point) : Point :=
  mkPoint (x p) (y p) (px p) (py p) (vx p) (vy p) (pinX p) v (constraints p).
Definition set_constraints (v : list Constraint) (p : Point) : Point :=
  mkPoint (x p) (y p) (px p) (py p) (vx p) (vy p) (pinX p) (pinY p) v.

(** ** The store *)

(** [this.constraints.filter((c) => c !== this)]: the array without the
    object [c]. *)
Definition without (c : Constraint) (cs : list Constraint) : list Constraint :=
  filter (λ c', cid c' ≠ cid c) cs.

(** The identities of all links of the store, in array order. *)
Definition all_cids (s : list Point) : list nat :=
  concat ((λ p, cid <$> constraints p) <$> s).

(** All links of the store, in array order. *)
Definition all_links (s : list Point) : list Constraint :=
  concat (constraints <$> s).

(** A point is pinned when both pin coordinates are set
    ([this.pinX !== null && this.pinY !== null]). *)
Definition pinned (p : Point) : bool :=
  match pinX p, pinY p with
  | Some _, Some _ => true
  | _, _ => false
  end.

(** The number of links that end at the point of index [k], whichever
    point stores them. *)
Definition degree (s : list Point) (k : nat) : nat :=
  length (filter (λ c, p1 c = k ∨ p2 c = k) (all_links s)).

(** ** Sample objects for concrete runs *)

(** [<ClothSimulation width={200} height={200} clothWidth={w}
    clothHeight={h} />]: a grid of the given size on a canvas of 200 by
    200, the other props at their defaults. *)
Definition small_given `{!Number T} (w h : nat) : ClothSimulationProps :=
  mkGiven (Some (of_Z 200)) (Some (of_Z 200)) (Some w) (Some h)
          None None None None None None None.

Definition small_props `{!Number T} (w h : nat) : Props :=
  destructure (small_given w h) 0 0.

(** Its settings. *)
Definition small `{!Number T} (w h : nat) : Settings :=
  clothSettings (small_props w h).

(** A point at rest at [(x0, y0)] holding the links [l]. *)
Definition at_rest `{!Number T} (x0 y0 : Z) (l : list Constraint) : Point :=
  mkPoint (of_Z x0) (of_Z y0) (of_Z x0) (of_Z y0) n0 n0 None None l.

(** Two points joined by one link of rest length [l]: the second at
    [(x0, y0)] stores the link, the first is at the origin. *)
Definition pair_at `{!Number T} (x0 y0 l : Z) : list Point :=
  [at_rest 0 0 []; at_rest x0 y0 [mkConstraint 0 1 0 (of_Z l)]].

(** A canvas of 200 by 200. *)
Definition canvas200 `{!Number T} : option Canvas :=
  Some (mkCanvas (of_Z 200) (of_Z 200)).

(** The pointer with no button held, and with [button] held at
    [(x0, y0)]. *)
Definition idle `{!Number T} : Mouse := mkMouse n0 n0 false 0.
Definition pointer `{!Number T} (x0 y0 button : Z) : Mouse :=
  mkMouse (of_Z x0) (of_Z y0) true button.

(** ** Well-formedness *)

(** A store is well formed when every link is stored by its first end
    point, no link dangles, and no two links share an identity. *)
Record wf (s : list Point) : Prop := mk_wf {
  wf_owner i p c : s !! i = Some p → c ∈ constraints p → p1 c = i;
  wf_target i p c : s !! i = Some p → c ∈ constraints p → p2 c < length s;
  wf_ids : NoDup (all_cids s);
}.

(** The same invariant as a conjunction of decidable list predicates, for
    checking concrete stores by evaluation. *)
Definition wf_list (s : list Point) : Prop :=
  Forall (λ ip, Forall (λ c, p1 c = ip.1 ∧ p2 c < length s) (constraints ip.2))
         (imap pair s) ∧
  NoDup (all_cids s).

(** ** Evolution *)

(** From [p] to [q] the pin is kept and no link is added. *)
Definition point_evolves (p q : Point) : Prop :=
  pinX q = pinX p ∧ pinY q = pinY p ∧
  constraints q `sublist_of` constraints p.

(** From [s] to [s'] the array keeps its length and every point evolves. *)
Definition evolves : relation (list Point) := Forall2 point_evolves.

(** A field update that keeps pins and adds no link. *)
Class PointEvolving (f : Point → Point) : Prop :=
  point_evolving p : point_evolves p (f p).

(** A store operation along [evolves]. *)
Class Evolving (f : list Point → list Point) : Prop :=
  evolving s : evolves s (f s).

(** ** Laws of the setters *)

#[export] Instance point_evolves_preorder : PreOrder point_evolves.
Proof.
  split.
  - by intros p.
  - intros p q r (? & ? & ?) (? & ? & ?). repeat split; [congruence..|].
    by etrans.
Qed.

#[export] Instance evolves_preorder : PreOrder evolves.
Proof. apply _. Qed.

#[export] Instance set_x_evolving v : PointEvolving (set_x v).
Proof. by intros p. Qed.
#[export] Instance set_y_evolving v : PointEvolving (set_y v).
Proof. by intros p. Qed.
#[export] Instance set_px_evolving v : PointEvolving (set_px v).
Proof. by intros p. Qed.
#[export] Instance set_py_evolving v : PointEvolving (set_py v).
Proof. by intros p. Qed.
#[export] Instance set_vx_evolving v : PointEvolving (set_vx v).
Proof. by intros p. Qed.
#[export] Instance set_vy_evolving v : PointEvolving (set_vy v).
Proof. by intros p. Qed.

(** Removing links is an evolution. *)
Lemma set_constraints_evolves cs p :
  cs `sublist_of` constraints p → point_evolves p (set_constraints cs p).
Proof. by intros Hs. Qed.

Lemma without_sublist c cs : without c cs `sublist_of` cs.
Proof. apply sublist_filter. Qed.

Lemma without_elem c c' cs : c' ∈ without c cs ↔ cid c' ≠ cid c ∧ c' ∈ cs.
Proof. unfold without. by rewrite list_elem_of_filter. Qed.

#[export] Instance without_evolving c :
  PointEvolving (λ p, set_constraints (without c (constraints p)) p).
Proof. intros p. apply set_constraints_evolves, without_sublist. Qed.

#[export] Instance compose_point_evolving f g :
  PointEvolving f → PointEvolving g → PointEvolving (f ∘ g).
Proof. intros Hf Hg p. etrans; [apply Hg|apply Hf]. Qed.

(** ** Store operations along [evolves] *)

#[export] Instance id_evolving : Evolving (λ s, s).
Proof. by intros s. Qed.

#[export] Instance alter_evolving f i : PointEvolving f → Evolving (alter f i).
Proof.
  intros Hf s. apply Forall2_alter_r; [done|].
  intros p q _ _ Hpq. etrans; [done|apply Hf].
Qed.

(** The step used for every assignment [points[i].field = v]. *)
Lemma evolves_alter f i s s' :
  PointEvolving f → evolves s s' → evolves s (alter f i s').
Proof. intros Hf Hs. etrans; [done|]. by apply alter_evolving. Qed.

#[export] Instance compose_evolving f g :
  Evolving f → Evolving g → Evolving (f ∘ g).
Proof. intros Hf Hg s. etrans; [apply Hg|apply Hf]. Qed.

Lemma foldl_evolving {B} (f : list Point → B → list Point) (l : list B) :
  (∀ b, Evolving (λ s, f s b)) → Evolving (λ s, foldl f s l).
Proof. intros Hf s. apply foldl_above; [apply _|]. intros a b. apply Hf. Qed.

Lemma iter_evolving (f : list Point → list Point) (n : nat) :
  Evolving f → Evolving (Nat.iter n f).
Proof. intros Hf s. apply iter_above; [apply _|]. apply Hf. Qed.

(** ** What evolution preserves *)

Lemma evolves_length s s' : evolves s s' → length s' = length s.
Proof. intros H. symmetry. by eapply Forall2_length. Qed.

Lemma evolves_lookup s s' i q :
  evolves s s' → s' !! i = Some q → ∃ p, s !! i = Some p ∧ point_evolves p q.
Proof. intros H. by apply Forall2_lookup_r. Qed.

Lemma evolves_lookup_l s s' i p :
  evolves s s' → s !! i = Some p → ∃ q, s' !! i = Some q ∧ point_evolves p q.
Proof. intros H. by apply Forall2_lookup_l. Qed.

Lemma evolves_cids s s' : evolves s s' → all_cids s' `sublist_of` all_cids s.
Proof.
  intros H. apply sublist_concat. apply Forall2_fmap, Forall2_flip.
  eapply Forall2_impl; [done|]. intros p q (_ & _ & Hs). by apply fmap_sublist.
Qed.

Lemma evolves_links s s' :
  evolves s s' → all_links s' `sublist_of` all_links s.
Proof.
  intros H. apply sublist_concat. apply Forall2_fmap, Forall2_flip.
  eapply Forall2_impl; [done|]. by intros p q (_ & _ & Hs).
Qed.

(** Well-formedness is kept along [evolves]. *)
Lemma evolves_wf s s' : wf s → evolves s s' → wf s'.
Proof.
  intros [Ho Ht Hn] H. split.
  - intros i q c Hq Hc. destruct (evolves_lookup _ _ _ _ H Hq) as (p & Hp & _ & _ & Hs).
    eapply Ho; [done|]. by eapply elem_of_sublist.
  - intros i q c Hq Hc. destruct (evolves_lookup _ _ _ _ H Hq) as (p & Hp & _ & _ & Hs).
    rewrite (evolves_length _ _ H). eapply Ht; [done|]. by eapply elem_of_sublist.
  - eapply sublist_NoDup; [done|]. by apply evolves_cids.
Qed.

(** The observations of the store are monotone along [evolves], so that
    a step [evolves s s'] rewrites under them: the length is the same, the
    links and identities shrink, well-formedness is kept. *)
#[export] Instance length_evolves : Proper (evolves ==> eq) length.
Proof. intros s s' H. by rewrite (evolves_length s s'). Qed.

#[export] Instance length_evolves_flip : Proper (flip evolves ==> eq) length.
Proof. intros s s' H. by rewrite (evolves_length s' s). Qed.

#[export] Instance all_links_evolves : Proper (evolves ==> flip sublist) all_links.
Proof. intros s s' H. by apply evolves_links. Qed.

#[export] Instance all_cids_evolves : Proper (evolves ==> flip sublist) all_cids.
Proof. intros s s' H. by apply evolves_cids. Qed.

#[export] Instance wf_evolves : Proper (evolves ==> impl) wf.
Proof. intros s s' H Hwf. by eapply evolves_wf. Qed.

#[export] Instance pinned_evolves : Proper (point_evolves ==> eq) pinned.
Proof. intros p q (Hx & Hy & _). unfold pinned. by rewrite Hx, Hy. Qed.

(** ** Links of a well-formed store *)

Lemma elem_of_all_links s c :
  c ∈ all_links s ↔ ∃ i p, s !! i = Some p ∧ c ∈ constraints p.
Proof.
  unfold all_links. rewrite elem_of_concat. split.
  - intros (cs & Hcs & Hc). apply list_elem_of_fmap in Hcs as (p & -> & Hp).
    apply list_elem_of_lookup in Hp as [i Hi]. eauto.
  - intros (i & p & Hi & Hc). exists (constraints p). split; [|done].
    apply list_elem_of_fmap. exists p. split; [done|].
    by eapply list_elem_of_lookup_2.
Qed.

Lemma all_cids_links s : all_cids s = cid <$> all_links s.
Proof.
  unfold all_cids, all_links. induction s as [|p s IH]; simpl; [done|].
  rewrite fmap_app. by f_equal.
Qed.

(** In a well-formed store an identity names one link. *)
Lemma wf_cid_inj s c c' :
  wf s → c ∈ all_links s → c' ∈ all_links s → cid c = cid c' → c = c'.
Proof.
  intros [_ _ Hn] Hc Hc' Heq. rewrite all_cids_links in Hn.
  apply list_elem_of_lookup in Hc as [i Hi], Hc' as [j Hj].
  assert (i = j) as ->; [|congruence].
  eapply NoDup_lookup; [done| |]; rewrite list_lookup_fmap.
  - by rewrite Hi.
  - by rewrite Hj, Heq.
Qed.

(** ** Deciding well-formedness *)

Lemma wf_list_iff s : wf_list s ↔ wf s.
Proof.
  unfold wf_list. rewrite Forall_lookup. split.
  - intros [Hl Hn]. split; [| |done]; intros i p c Hp Hc;
      specialize (Hl i (i, p)); rewrite list_lookup_imap, Hp in Hl;
      specialize (Hl eq_refl); rewrite Forall_forall in Hl; by apply Hl.
  - intros [Ho Ht Hn]. split; [|done]. intros i [j p].
    rewrite list_lookup_imap. destruct (s !! i) as [q|] eqn:E; [|done].
    intros [= <- <-]. apply Forall_forall. intros c Hc. split; eauto.
Qed.

#[export] Instance wf_dec s : Decision (wf s).
Proof.
  refine (cast_if (decide (wf_list s))); by rewrite <- wf_list_iff.
Defined.

(** ** Removing one link *)

Lemma without_idemp c cs : without c (without c cs) = without c cs.
Proof. apply filter_idemp. Qed.

Lemma without_absent c cs :
  (∀ c', c' ∈ cs → cid c' ≠ cid c) → without c cs = cs.
Proof. intros H. apply filter_Forall_id. by apply Forall_forall. Qed.

Lemma without_all_links c s :
  without c (all_links s) = concat (without c ∘ constraints <$> s).
Proof. unfold without, all_links. by rewrite filter_concat, <- list_fmap_compose. Qed.

(** In a well-formed store the identity of a stored link occurs only in
    the list of its first end point. *)
Lemma wf_foreign s c i p c' :
  wf s → c ∈ all_links s → s !! i = Some p → p1 c ≠ i →
  c' ∈ constraints p → cid c' ≠ cid c.
Proof.
  intros Hwf Hc Hp Hne Hc' Heq. apply Hne.
  assert (c' = c) as <-.
  { eapply wf_cid_inj; [done| |done..]. apply elem_of_all_links; eauto. }
  by eapply wf_owner.
Qed.

(** No operation along [evolves] brings back a link that is gone. *)
Lemma evolves_absent s s' c :
  evolves s s' → c ∉ all_links s → c ∉ all_links s'.
Proof.
  intros H Hc Hc'. apply Hc. eapply elem_of_sublist; [done|].
  by apply evolves_links.
Qed.

End data.

Arguments Constraint : clear implicits.
Arguments Point : clear implicits.
Arguments Mouse : clear implicits.
Arguments Settings : clear implicits.
Arguments Props : clear implicits.
Arguments ClothSimulationProps : clear implicits.
Arguments Canvas : clear implicits.

#[export] Hint Resolve without_sublist set_constraints_evolves : cloth.
#[export] Hint Resolve evolves_length evolves_wf evolves_alter : cloth.
#[export] Hint Extern 0 (evolves ?s ?s) => reflexivity : cloth.

(** An assignment to a field other than the pin adds no link, whatever the
    assigned value is computed from. *)
#[export] Hint Extern 2 (PointEvolving _) =>
  solve [intros ?; repeat split; simpl; auto with cloth] : typeclass_instances cloth.
