(* ===== verification/ConstraintOps.v ===== *)
(** * ConstraintOps: [class Constraint] (lines 140-167)

    [new_Constraint] is the constructor and [resolve] the method.  The
    first part of the file is generic in the number type: what [resolve]
    does to the topology and which fields it touches.  The section
    [exact] instantiates it on the reals and proves what the relaxation
    achieves; the section [doubles] proves, for all doubles, what the
    division by a separation of zero does, and introduces the classes
    [PointNanKeeping] and [NanKeeping] of the operations that never repair
    a NaN; the section [floating] runs [resolve] on doubles. *)

From Stdlib Require Import Reals Lra Floats.
From S2P Require Import Prelude Number Float64 Ideal Data.

Section constraint.
Context {T : Type} `{!Number T}.
Context (cs : Settings T).
Implicit Types (c : Constraint T) (s : list (Point T)) (p : Point T).

(** ** Operations *)

(** [constructor(public p1, public p2) { this.length = spacing; }], for the
    object allocated with identity [id]. *)
Definition new_Constraint (id : nat) (a b : nat) : Constraint T :=
  mkConstraint id a b (spacing cs).

(** [this.p.constraints = this.p.constraints.filter((c) => c !== this)]. *)
Definition detach c p : Point T :=
  set_constraints (without c (constraints p)) p.

(** The separation [Math.sqrt(dx * dx + dy * dy)] of two points. *)
Definition separation (a b : Point T) : T :=
  let dx := (x a - x b)%num in
  let dy := (y a - y b)%num in
  sqrt (dx * dx + dy * dy)%num.

(** [resolve()]: tear when stretched beyond [tearDistance], otherwise move
    each end point half the error along the link.  The four assignments
    are applied to the store one after the other, as in the source. *)
Definition resolve c s : list (Point T) :=
  match s !! p1 c, s !! p2 c with
  | Some a, Some b =>
      let dx := (x a - x b)%num in
      let dy := (y a - y b)%num in
      let dist := sqrt (dx * dx + dy * dy)%num in
      if (dist >? tearDistance cs)%num then
        let s := alter (detach c) (p1 c) s in
        alter (detach c) (p2 c) s
      else
        let diff := ((len c - dist) / dist)%num in
        let px_ := (dx * diff * half)%num in
        let py_ := (dy * diff * half)%num in
        let s := alter (λ p, set_x (x p + px_)%num p) (p1 c) s in
        let s := alter (λ p, set_y (y p + py_)%num p) (p1 c) s in
        let s := alter (λ p, set_x (x p - px_)%num p) (p2 c) s in
        alter (λ p, set_y (y p - py_)%num p) (p2 c) s
  | _, _ => s
  end.

(** The displacement [(px, py)] that [resolve] applies to [p1] and takes
    from [p2]. *)
Definition correction c (a b : Point T) : T * T :=
  let dx := (x a - x b)%num in
  let dy := (y a - y b)%num in
  let dist := sqrt (dx * dx + dy * dy)%num in
  let diff := ((len c - dist) / dist)%num in
  ((dx * diff * half)%num, (dy * diff * half)%num).

(** Whether [resolve] takes its tearing branch on [c] in [s]. *)
Definition tears c s : bool :=
  match s !! p1 c, s !! p2 c with
  | Some a, Some b => (separation a b >? tearDistance cs)%num
  | _, _ => false
  end.

(** ** Topology *)

#[export] Instance detach_evolving c : PointEvolving (detach c).
Proof. intros p. apply set_constraints_evolves, without_sublist. Qed.

(** [resolve] keeps the array length and the pins and adds no link. *)
#[export] Instance resolve_evolving c : Evolving (resolve c).
Proof.
  intros s. unfold resolve. repeat case_lookup; [|done..].
  case_match; auto 10 with cloth.
Qed.

(** ** The three cases of [resolve] *)

(** A dangling link is not resolved. *)
Lemma resolve_dangling c s :
  s !! p1 c = None ∨ s !! p2 c = None → resolve c s = s.
Proof. unfold resolve. intros [-> | ->]; [done|]. by case_lookup. Qed.

(** Stretched beyond [tearDistance]: the link is detached at both ends and
    nothing else happens. *)
Lemma resolve_tear_eq c s :
  tears c s = true →
  resolve c s = alter (detach c) (p2 c) (alter (detach c) (p1 c) s).
Proof.
  unfold tears, resolve, separation. repeat case_lookup; [|done..].
  by intros ->.
Qed.

(** Otherwise: the four assignments to the end points. *)
Lemma resolve_relax_eq c s a b :
  s !! p1 c = Some a → s !! p2 c = Some b → tears c s = false →
  resolve c s =
    alter (λ p, set_y (y p - (correction c a b).2)%num p) (p2 c)
   (alter (λ p, set_x (x p - (correction c a b).1)%num p) (p2 c)
   (alter (λ p, set_y (y p + (correction c a b).2)%num p) (p1 c)
   (alter (λ p, set_x (x p + (correction c a b).1)%num p) (p1 c) s))).
Proof.
  unfold tears, resolve, separation, correction. intros -> ->. by intros ->.
Qed.

(** ** Frame *)

(** [resolve] reads and writes the two end points only. *)
Lemma resolve_frame c s i :
  i ≠ p1 c → i ≠ p2 c → resolve c s !! i = s !! i.
Proof.
  intros H1 H2. unfold resolve. repeat case_lookup; [|done..].
  case_match; by simpl_alter.
Qed.

(** [resolve] never writes the previous position or the force. *)
Lemma resolve_keeps_velocity c s :
  (λ p, (px p, py p, vx p, vy p)) <$> resolve c s =
  (λ p, (px p, py p, vx p, vy p)) <$> s.
Proof.
  unfold resolve. repeat case_lookup; [|done..].
  case_match; by rewrite !fmap_alter_keep.
Qed.

(** The tearing branch moves no point. *)
Lemma resolve_tear_positions c s :
  tears c s = true →
  (λ p, (x p, y p)) <$> resolve c s = (λ p, (x p, y p)) <$> s.
Proof. intros H. rewrite resolve_tear_eq by done. by rewrite !fmap_alter_keep. Qed.

(** The relaxing branch changes no link list. *)
Lemma resolve_relax_links c s :
  tears c s = false → constraints <$> resolve c s = constraints <$> s.
Proof.
  unfold tears, resolve, separation. repeat case_lookup; [|done..].
  intros ->. by rewrite !fmap_alter_keep.
Qed.

(** ** Tearing *)

(** After a tear every link list of the store is what it was without [c]:
    the end points lose [c], and in a well-formed store no other list
    held it. *)
Lemma resolve_tear_lookup c s i p :
  wf s → c ∈ all_links s → tears c s = true → s !! i = Some p →
  ∃ q, resolve c s !! i = Some q ∧ constraints q = without c (constraints p).
Proof.
  intros Hwf Hc Ht Hp. rewrite resolve_tear_eq by done.
  assert (∀ c', c' ∈ constraints p → p1 c ≠ i → cid c' ≠ cid c) as Hforeign.
  { intros c' Hc' Hne. by eapply wf_foreign. }
  destruct (decide (p2 c = i)) as [E2|H2], (decide (p1 c = i)) as [E1|H1];
    rewrite ?E1, ?E2; simpl_alter; rewrite Hp; simpl;
    (eexists; split; [done|]); simpl; rewrite ?without_idemp; try done.
  symmetry. apply without_absent. auto.
Qed.

(** The links of the store after a tear. *)
Lemma resolve_tear_all_links c s :
  wf s → c ∈ all_links s → tears c s = true →
  all_links (resolve c s) = without c (all_links s).
Proof.
  intros Hwf Hc Ht. rewrite without_all_links. unfold all_links. f_equal.
  apply fmap_eq_lookup; [apply evolves_length, resolve_evolving|].
  intros i p Hp. by apply resolve_tear_lookup.
Qed.

(** A torn link is unreachable: no list of the store holds it. *)
Lemma resolve_tear_absent c s :
  wf s → c ∈ all_links s → tears c s = true → c ∉ all_links (resolve c s).
Proof.
  intros Hwf Hc Ht. rewrite resolve_tear_all_links by done.
  rewrite without_elem. by intros [? _].
Qed.

(** Detaching a link twice is detaching it once. *)
Lemma detach_idemp c p : detach c (detach c p) = detach c p.
Proof. unfold detach, set_constraints; simpl. by rewrite without_idemp. Qed.

(** A tear moves no point: the link is still stretched afterwards. *)
Lemma tears_after_tear c s : tears c s = true → tears c (resolve c s) = true.
Proof.
  intros Ht. rewrite resolve_tear_eq by done. unfold tears, separation in *.
  destruct (decide (p1 c = p2 c)) as [E|E]; rewrite ?E in *; simpl_alter;
    by destruct (s !! p1 c), (s !! p2 c).
Qed.

(** C29: resolving a torn link again changes nothing. *)
Theorem resolve_tear_idempotent c s :
  tears c s = true → resolve c (resolve c s) = resolve c s.
Proof.
  intros Ht. rewrite (resolve_tear_eq c (resolve c s)) by by apply tears_after_tear.
  rewrite resolve_tear_eq by done. apply list_eq. intros i.
  destruct (decide (p1 c = p2 c)) as [E|E]; rewrite ?E;
    destruct (decide (i = p2 c)) as [->|H2]; simpl_alter;
    try (destruct (decide (i = p1 c)) as [->|H1]; simpl_alter);
    try done; destruct (s !! _); simpl; by rewrite ?detach_idemp.
Qed.

(** C2: resolving a link of a well-formed store that is stretched beyond
    [tearDistance] removes that link and only it from the store, leaves it
    unreachable, and moves no point. *)
Theorem resolve_tear_links c s :
  wf s → c ∈ all_links s → tears c s = true →
  all_links (resolve c s) = without c (all_links s) ∧
  (c ∉ all_links (resolve c s)) ∧
  ((λ p, (x p, y p)) <$> resolve c s = (λ p, (x p, y p)) <$> s).
Proof.
  intros Hwf Hc Ht. split; [by apply resolve_tear_all_links|].
  split; [by apply resolve_tear_absent|by apply resolve_tear_positions].
Qed.

End constraint.

(** ** Relaxation, end point by end point *)

Section relax.
Context {T : Type} `{!Number T}.
Context (cs : Settings T).
Implicit Types (c : Constraint T) (s : list (Point T)) (a b : Point T).

(** The first end point after a relaxation: moved by the correction. *)
Lemma resolve_relax_p1 c s a b :
  p1 c ≠ p2 c → s !! p1 c = Some a → s !! p2 c = Some b →
  tears cs c s = false →
  resolve cs c s !! p1 c =
    Some (set_y (y a + (correction c a b).2)%num
         (set_x (x a + (correction c a b).1)%num a)).
Proof.
  intros Hne Ha Hb Ht. rewrite (resolve_relax_eq cs c s a b) by done.
  simpl_alter. by rewrite Ha.
Qed.

(** The second end point: moved by the opposite of the correction. *)
Lemma resolve_relax_p2 c s a b :
  p1 c ≠ p2 c → s !! p1 c = Some a → s !! p2 c = Some b →
  tears cs c s = false →
  resolve cs c s !! p2 c =
    Some (set_y (y b - (correction c a b).2)%num
         (set_x (x b - (correction c a b).1)%num b)).
Proof.
  intros Hne Ha Hb Ht. rewrite (resolve_relax_eq cs c s a b) by done.
  simpl_alter. by rewrite Hb.
Qed.

End relax.

(** ** Exact arithmetic *)

Section exact.
Context (cs : Settings R).
Implicit Types (c : Constraint R) (s : list (Point R)) (a b : Point R).
Local Open Scope R_scope.

(** The correction scales the offset between the end points by
    [length / dist]. *)
Lemma correction_scales c a b :
  separation a b ≠ 0 →
  (x a + (correction c a b).1) - (x b - (correction c a b).1)
    = (x a - x b) * (len c / separation a b) ∧
  (y a + (correction c a b).2) - (y b - (correction c a b).2)
    = (y a - y b) * (len c / separation a b).
Proof.
  unfold correction, separation, half, dec; simpl. intros Hd. split; by field.
Qed.

(** C3: in exact arithmetic, after [resolve] relaxes a link between two
    distinct points that are not at the same place, the end points are
    exactly [length] apart. *)
Theorem resolve_restores_length c s a b :
  p1 c ≠ p2 c → s !! p1 c = Some a → s !! p2 c = Some b →
  tears cs c s = false → separation a b ≠ 0 → 0 <= len c →
  ∃ a' b', resolve cs c s !! p1 c = Some a' ∧
           resolve cs c s !! p2 c = Some b' ∧
           separation a' b' = len c.
Proof.
  intros Hne Ha Hb Ht Hd Hl. eexists _, _.
  split; [by apply resolve_relax_p1|]. split; [by apply resolve_relax_p2|].
  destruct (correction_scales c a b Hd) as [Hx Hy].
  unfold separation at 1; simpl. unfold sub in Hx, Hy; simpl in Hx, Hy.
  rewrite Hx, Hy. apply sqrt_lem_1; [apply sumsq_nonneg|done|]. symmetry.
  apply scaled_sumsq; [done|apply sqrt_sumsq_sqr].
Qed.

(** In exact arithmetic the relaxation keeps the midpoint of the two
    end points: what one end gains the other loses. *)
Theorem resolve_midpoint c s a b :
  p1 c ≠ p2 c → s !! p1 c = Some a → s !! p2 c = Some b →
  tears cs c s = false →
  ∃ a' b', resolve cs c s !! p1 c = Some a' ∧
           resolve cs c s !! p2 c = Some b' ∧
           x a' + x b' = x a + x b ∧ y a' + y b' = y a + y b.
Proof.
  intros Hne Ha Hb Ht. eexists _, _.
  split; [by apply resolve_relax_p1|]. split; [by apply resolve_relax_p2|].
  simpl. lra.
Qed.

(** A link at its rest length has no correction. *)
Lemma correction_at_rest c a b :
  separation a b = len c → len c ≠ 0 → correction c a b = (0, 0).
Proof.
  unfold correction, separation, half, dec; simpl. intros -> Hl.
  f_equal; by field.
Qed.

(** Adding and subtracting nothing leaves the store as it is. *)
Lemma resolve_no_correction c s a b :
  s !! p1 c = Some a → s !! p2 c = Some b → tears cs c s = false →
  correction c a b = (0, 0) → resolve cs c s = s.
Proof.
  intros Ha Hb Ht Hc. rewrite (resolve_relax_eq cs c s a b), Hc by done. simpl.
  rewrite !list_alter_id; [done|intros [];unfold set_x, set_y; simpl; f_equal; lra..].
Qed.

(** C28: in exact arithmetic a link whose end points are exactly [length]
    apart is a fixed point of [resolve]: the store does not change. *)
Theorem resolve_fixed_point c s a b :
  s !! p1 c = Some a → s !! p2 c = Some b → tears cs c s = false →
  separation a b = len c → len c ≠ 0 → resolve cs c s = s.
Proof.
  intros Ha Hb Ht Hd Hl. apply (resolve_no_correction c s a b); [done..|].
  by apply correction_at_rest.
Qed.

End exact.

(** ** Doubles: NaN *)

(** The coordinates of a point. *)
Inductive Axis : Type := AxisX | AxisY.

(** A coordinate of a point on doubles. *)
Definition coord (ax : Axis) (p : Point float) : float :=
  match ax with AxisX => x p | AxisY => y p end.

(** A lost point: free, with a NaN coordinate. *)
Definition lost (ax : Axis) (p : Point float) : Prop :=
  pinned p = false ∧ is_nan (coord ax p) = true.

(** The store holds a lost point at index [i]. *)
Definition lost_at (ax : Axis) (i : nat) (s : list (Point float)) : Prop :=
  ∃ p, s !! i = Some p ∧ lost ax p.

(** The assignments that leave a lost point lost. *)
Class PointNanKeeping (f : Point float → Point float) : Prop :=
  point_nan_keeping : ∀ ax p, lost ax p → lost ax (f p).

(** The operations that leave every lost point of the store lost. *)
Class NanKeeping (f : list (Point float) → list (Point float)) : Prop :=
  nan_keeping : ∀ ax i s, lost_at ax i s → lost_at ax i (f s).

(** [solve_lost] proves that an assignment of the source keeps a lost
    point lost: NaN is absorbing and the pins are not assigned. *)
Ltac solve_lost :=
  intros [] [] [? ?]; (split; [done|]); simpl in *;
  auto using add_nan_l, sub_nan_l, js_max_nan, js_min_nan.

Section doubles.
Context (cs : Settings float).
Implicit Types (c : Constraint float) (s : list (Point float)) (a b p : Point float).

(** An in-place update by such an assignment keeps the lost points. *)
Lemma lost_alter (f : Point float → Point float) j ax i s :
  PointNanKeeping f → lost_at ax i s → lost_at ax i (alter f j s).
Proof.
  intros Hf (p & Hp & Hl). destruct (decide (j = i)) as [->|Hne].
  - exists (f p). split; [by simpl_alter; rewrite Hp|by apply Hf].
  - exists p. split; [by simpl_alter|done].
Qed.

#[export] Instance detach_nan_keeping c : PointNanKeeping (detach c).
Proof. solve_lost. Qed.

(** [resolve] never repairs a NaN: a lost point stays lost. *)
#[export] Instance resolve_nan_keeping c : NanKeeping (resolve cs c).
Proof.
  intros ax i s H. unfold resolve. repeat case_lookup; [|done..].
  case_match; repeat (apply lost_alter; [solve_lost|]); done.
Qed.

(** Two end points at the same place are not torn apart, unless
    [tearDistance] is negative. *)
Lemma coincident_no_tear c s a b :
  s !! p1 c = Some a → s !! p2 c = Some b → x a = x b → y a = y b →
  PrimFloat.ltb (tearDistance cs) 0 = false → tears cs c s = false.
Proof.
  intros Ha Hb Hx Hy Ht. unfold tears, separation. rewrite Ha, Hb, Hx, Hy.
  apply ltb_zero_or_nan; [|done].
  auto using sqrt_zero_or_nan, add_zero_or_nan, mul_zero_or_nan, sub_diag.
Qed.

(** The correction between two end points at the same place is NaN:
    [dist] is [+0] or NaN, [diff] is infinite or NaN, and [dx * diff] is
    [0 * infinity]. *)
Lemma correction_nan c a b :
  x a = x b → y a = y b →
  is_nan (correction c a b).1 = true ∧ is_nan (correction c a b).2 = true.
Proof.
  intros Hx Hy. unfold correction. rewrite Hx, Hy. cbn [fst snd].
  split; apply mul_nan_l, mul_zero_inf; try apply div_zero_or_nan;
    auto using sqrt_zero_or_nan, add_zero_or_nan, mul_zero_or_nan, sub_diag.
Qed.

(** The end point that stores such a link is lost when it is free. *)
Lemma resolve_coincident_lost ax c s a b :
  p1 c ≠ p2 c → s !! p1 c = Some a → s !! p2 c = Some b →
  x a = x b → y a = y b → PrimFloat.ltb (tearDistance cs) 0 = false →
  pinned a = false → lost_at ax (p1 c) (resolve cs c s).
Proof.
  intros Hne Ha Hb Hx Hy Ht Hfree.
  pose proof (coincident_no_tear c s a b Ha Hb Hx Hy Ht) as Hno.
  destruct (correction_nan c a b Hx Hy) as [Hcx Hcy]. eexists.
  split; [by apply resolve_relax_p1|]. split; [done|].
  destruct ax; simpl; auto using add_nan_r.
Qed.

(** C23: on doubles, [resolve] of a link between two distinct points that
    are at the same place sends both end points to NaN, in both
    coordinates, whatever the rest length of the link and wherever the
    points are (unless [tearDistance] is negative, when the link is torn
    instead): the division by [dist] is not guarded. *)
Theorem resolve_zero_length_nan c s a b :
  p1 c ≠ p2 c → s !! p1 c = Some a → s !! p2 c = Some b →
  x a = x b → y a = y b → PrimFloat.ltb (tearDistance cs) 0 = false →
  ∃ a' b', resolve cs c s !! p1 c = Some a' ∧ resolve cs c s !! p2 c = Some b' ∧
           is_nan (x a') = true ∧ is_nan (y a') = true ∧
           is_nan (x b') = true ∧ is_nan (y b') = true.
Proof.
  intros Hne Ha Hb Hx Hy Ht.
  pose proof (coincident_no_tear c s a b Ha Hb Hx Hy Ht) as Hno.
  destruct (correction_nan c a b Hx Hy) as [Hcx Hcy]. eexists _, _.
  split; [by apply resolve_relax_p1|]. split; [by apply resolve_relax_p2|].
  simpl. auto using add_nan_r, sub_nan_r.
Qed.

End doubles.

(** ** Concrete runs *)

Section floating.
Local Open Scope float_scope.
#[local] Abbreviation cs := (small 2 2 : Settings float).
#[local] Abbreviation c10 := (mkConstraint 0 1 0 10 : Constraint float).
#[local] Abbreviation c12 := (mkConstraint 0 1 0 12 : Constraint float).

(** A link of rest length 10 between [(0,0)] and [(3,4)] is relaxed to
    [(-1.5,-2)] and [(4.5,6)], which are 10 apart. *)
Example resolve_relax_run :
  (λ p, (x p, y p)) <$> resolve cs c10 (pair_at 3 4 10) = [(-1.5, -2); (4.5, 6)].
Proof. by vm_compute. Qed.

(** A link stretched to 100 is torn: both lists are empty afterwards and
    no point has moved. *)
Example resolve_tear_run :
  resolve cs c12 (pair_at 100 0 12) = [at_rest 0 0 []; at_rest 100 0 []].
Proof. by vm_compute. Qed.

Lemma resolve_tear_links_witness :
  all_links (resolve cs c12 (pair_at 100 0 12)) =
    without c12 (all_links (pair_at 100 0 12)) ∧
  (c12 ∉ all_links (resolve cs c12 (pair_at 100 0 12))) ∧
  ((λ p, (x p, y p)) <$> resolve cs c12 (pair_at 100 0 12) =
    (λ p, (x p, y p)) <$> pair_at 100 0 12).
Proof.
  apply resolve_tear_links; [|by apply list_elem_of_here|by vm_compute].
  by apply (bool_decide_unpack _); vm_compute.
Defined.

(** The torn link of [resolve_tear_run], resolved a second time. *)
Lemma resolve_tear_idempotent_witness :
  resolve cs c12 (resolve cs c12 (pair_at 100 0 12)) = resolve cs c12 (pair_at 100 0 12).
Proof. by apply resolve_tear_idempotent. Defined.

(** Two points at [(3, 4)] joined by a link of rest length 12. *)
Lemma resolve_zero_length_nan_witness :
  let s := [at_rest 3 4 []; at_rest 3 4 [c12]] in
  ∃ a' b', resolve cs c12 s !! 1%nat = Some a' ∧ resolve cs c12 s !! 0%nat = Some b' ∧
           is_nan (x a') = true ∧ is_nan (y a') = true ∧
           is_nan (x b') = true ∧ is_nan (y b') = true.
Proof.
  by apply (resolve_zero_length_nan cs c12 _ (at_rest 3 4 [c12]) (at_rest 3 4 [])).
Defined.

(** The same run, evaluated. *)
Example resolve_zero_length_run :
  (λ p, (x p, y p)) <$> resolve cs c12 [at_rest 3 4 []; at_rest 3 4 [c12]]
  = [(nan, nan); (nan, nan)].
Proof. by vm_compute. Qed.

End floating.

Section exact_runs.
Local Open Scope R_scope.
#[local] Abbreviation cs := (small 2 2 : Settings R).

Lemma separation_3_4 : separation (at_rest 3 4 [] : Point R) (at_rest 0 0 []) = 5.
Proof. unfold separation; simpl. apply sqrt_lem_1; lra. Qed.

Lemma tears_3_4 l : tears cs (mkConstraint 0 1 0 l) (pair_at 3 4 10) = false.
Proof.
  unfold tears; simpl. change (Rltb 60 (separation (at_rest 3 4 []) (at_rest 0 0 [])) = false).
  rewrite separation_3_4. apply Rltb_false. lra.
Qed.

Lemma resolve_restores_length_witness :
  ∃ a' b', resolve cs (mkConstraint 0 1 0 10) (pair_at 3 4 10) !! 1%nat = Some a' ∧
           resolve cs (mkConstraint 0 1 0 10) (pair_at 3 4 10) !! 0%nat = Some b' ∧
           separation a' b' = 10.
Proof.
  apply (resolve_restores_length cs (mkConstraint 0 1 0 10) (pair_at 3 4 10)
           (at_rest 3 4 [mkConstraint 0 1 0 10]) (at_rest 0 0 []));
    [done..|apply tears_3_4| |simpl; lra].
  change (separation (at_rest 3 4 [] : Point R) (at_rest 0 0 []) ≠ 0).
  rewrite separation_3_4. lra.
Defined.

Lemma resolve_midpoint_witness :
  ∃ a' b', resolve cs (mkConstraint 0 1 0 10) (pair_at 3 4 10) !! 1%nat = Some a' ∧
           resolve cs (mkConstraint 0 1 0 10) (pair_at 3 4 10) !! 0%nat = Some b' ∧
           x a' + x b' = x (at_rest 3 4 [] : Point R) + x (at_rest 0 0 [] : Point R) ∧
           y a' + y b' = y (at_rest 3 4 [] : Point R) + y (at_rest 0 0 [] : Point R).
Proof.
  apply (resolve_midpoint cs (mkConstraint 0 1 0 10) (pair_at 3 4 10)
           (at_rest 3 4 [mkConstraint 0 1 0 10]) (at_rest 0 0 []));
    [done..|apply tears_3_4].
Defined.

Lemma resolve_fixed_point_witness :
  resolve cs (mkConstraint 0 1 0 5) (pair_at 3 4 5) = pair_at 3 4 5.
Proof.
  apply (resolve_fixed_point cs (mkConstraint 0 1 0 5) (pair_at 3 4 5)
           (at_rest 3 4 [mkConstraint 0 1 0 5]) (at_rest 0 0 []));
    [done..| | |simpl; lra].
  - apply (tears_3_4 5).
  - apply separation_3_4.
Defined.

End exact_runs.
