(* ===== verification/PointOps.v ===== *)
(** * PointOps: [class Point] (lines 58-138)

    The constructor and the five methods.  [update] and
    [resolveConstraints] act on the store at the index of [this], because
    they reach other points through the links; [addForce], [pin] and
    [attach] touch [this] only.  The closure variables [canvas] and the
    settings are section variables; the pointer state is an argument of
    [update].  [dragged] is what the held primary button does to one
    point; with it [update] is an update of one slot unless the cut is
    active.  The section [doubles] shows that neither method repairs a
    NaN coordinate. *)

From Stdlib Require Import Reals Lra Floats.
From S2P Require Import Prelude Number Float64 Ideal Data ConstraintOps.

Section point.
Context {T : Type} `{!Number T}.
Context (canvas : option (Canvas T)) (cs : Settings T).
Implicit Types (c : Constraint T) (s : list (Point T)) (p : Point T).
Implicit Types (m : Mouse T) (i j : nat).

(** ** Operations *)

(** [constructor(public x, public y)] (lines 67-75). *)
Definition new_Point (x0 y0 : T) : Point T :=
  mkPoint x0 y0 x0 y0 n0 n0 None None [].

(** [addForce(x, y)] (lines 129-132). *)
Definition addForce (fx fy : T) p : Point T :=
  let p := set_vx (vx p + fx)%num p in
  set_vy (vy p + fy)%num p.

(** [pin(pinx, piny)] (lines 134-137). *)
Definition pin (pinx piny : T) p : Point T :=
  let p := set_pinX (Some pinx) p in
  set_pinY (Some piny) p.

(** [attach(point)] (lines 125-127), for [this] at index [this] and the
    new link allocated with identity [id]. *)
Definition attach (id this point : nat) p : Point T :=
  set_constraints (constraints p ++ [new_Constraint cs id this point]) p.

(** The predicate of the filter of lines 88-94: the link is longer than
    [tearDistance] in the current store. *)
Definition stretched s c : bool :=
  match s !! p1 c, s !! p2 c with
  | Some a, Some b =>
      (sqrt ((x a - x b) * (x a - x b) + (y a - y b) * (y a - y b))
         >? tearDistance cs)%num
  | _, _ => false
  end.

(** The distance from [this] to the pointer (lines 79-81). *)
Definition reach m p : T :=
  let dx := (x p - mouseX m)%num in
  let dy := (y p - mouseY m)%num in
  sqrt (dx * dx + dy * dy)%num.

(** The pointer part of [update] (lines 78-96). *)
Definition pointer_influence m i s : list (Point T) :=
  match s !! i with
  | None => s
  | Some p =>
      if mouseDown m then
        let dx := (x p - mouseX m)%num in
        let dy := (y p - mouseY m)%num in
        let dist := sqrt (dx * dx + dy * dy)%num in
        if (mouseButton m =? 0)%Z && (dist <? mouseInfluence cs)%num then
          let s := alter (λ p, set_px (x p - (mouseX m - x p) * half)%num p) i s in
          alter (λ p, set_py (y p - (mouseY m - y p) * half)%num p) i s
        else if (mouseButton m =? 2)%Z && (dist <? mouseCut cs)%num then
          alter (λ p, set_constraints (filter (λ c, stretched s c) (constraints p)) p) i s
        else s
      else s
  end.

(** What the held primary button does to a point (lines 78-87): within
    [mouseInfluence] the previous position is overwritten. *)
Definition dragged m p : Point T :=
  if mouseDown m && (mouseButton m =? 0)%Z && (reach m p <? mouseInfluence cs)%num
  then set_py (y p - (mouseY m - y p) * half)%num
         (set_px (x p - (mouseX m - x p) * half)%num p)
  else p.

(** The Verlet step of [update] (lines 99-107) on [this], for the squared
    time step [delta]. *)
Definition verlet (delta : T) p : Point T :=
  let nx := (x p + (x p - px p) * damping + (vx p / n2) * delta)%num in
  let ny := (y p + (y p - py p) * damping + (vy p / n2) * delta)%num in
  let p := set_px (x p) p in
  let p := set_py (y p) p in
  let p := set_x nx p in
  let p := set_y ny p in
  let p := set_vx n0 p in
  set_vy n0 p.

(** [update(delta)] (lines 77-108). *)
Definition update m (delta : T) i s : list (Point T) :=
  let s := pointer_influence m i s in
  let s := alter (addForce n0 (gravity cs)) i s in
  let delta := (delta * delta)%num in
  alter (verlet delta) i s.

(** [canvas?.width ?? 200] and [canvas?.height ?? 200]. *)
Definition canvas_width : T :=
  match canvas with Some cv => width cv | None => of_Z 200 end.
Definition canvas_height : T :=
  match canvas with Some cv => height cv | None => of_Z 200 end.

(** [resolveConstraints()] (lines 110-123).  The loop runs over the array
    that [this.constraints] references when the loop starts: [resolve]
    replaces that field by a new array and never changes the old one. *)
Definition resolveConstraints i s : list (Point T) :=
  match s !! i with
  | None => s
  | Some p =>
      match pinX p, pinY p with
      | Some pinx, Some piny =>
          let s := alter (set_x pinx) i s in
          alter (set_y piny) i s
      | _, _ =>
          let s := foldl (λ s c, resolve cs c s) s (constraints p) in
          let s := alter (λ p, set_x (max2 n1 (min2 (canvas_width - n1) (x p)))%num p) i s in
          alter (λ p, set_y (max2 n1 (min2 (canvas_height - n1) (y p)))%num p) i s
      end
  end.

(** ** Topology *)

#[export] Instance addForce_evolving fx fy : PointEvolving (addForce fx fy).
Proof. by intros p. Qed.

#[export] Instance verlet_evolving delta : PointEvolving (verlet delta).
Proof. by intros p. Qed.

#[export] Instance pointer_influence_evolving m i : Evolving (pointer_influence m i).
Proof.
  intros s. unfold pointer_influence. case_lookup; [|done].
  repeat case_match; auto 6 with cloth.
Qed.

(** [update] keeps the array length and the pins and adds no link. *)
#[export] Instance update_evolving m delta i : Evolving (update m delta i).
Proof.
  intros s. unfold update. do 2 (apply evolves_alter; [apply _|]).
  apply pointer_influence_evolving.
Qed.

(** So does [resolveConstraints]. *)
#[export] Instance resolveConstraints_evolving i : Evolving (resolveConstraints i).
Proof.
  intros s. unfold resolveConstraints. case_lookup; [|done].
  repeat case_match; do 2 (apply evolves_alter; [apply _|]); try done;
    apply (foldl_evolving (λ s c, resolve cs c s)); apply _.
Qed.

(** The filter of the cut tests what [resolve] tests before tearing. *)
Lemma stretched_tears s c : stretched s c = tears cs c s.
Proof. unfold stretched, tears, separation. by repeat case_lookup. Qed.

(** ** The two cases of [resolveConstraints] *)

(** A pinned point is put on its pin, and that is all: its links are not
    resolved and no other point is read or written. *)
Lemma resolveConstraints_pinned_eq i s p a b :
  s !! i = Some p → pinX p = Some a → pinY p = Some b →
  resolveConstraints i s = <[i := set_y b (set_x a p)]> s.
Proof.
  intros Hp Ha Hb. unfold resolveConstraints. rewrite Hp, Ha, Hb.
  rewrite list_alter_alter_eq. by apply (alter_as_insert (set_y b ∘ set_x a)).
Qed.

(** An unpinned point resolves its links in array order and is then
    clamped into the canvas. *)
Lemma resolveConstraints_free_eq i s p :
  s !! i = Some p → pinned p = false →
  resolveConstraints i s =
    alter (λ p, set_y (clamp n1 (canvas_height - n1) (y p))%num p) i
   (alter (λ p, set_x (clamp n1 (canvas_width - n1) (x p))%num p) i
   (foldl (λ s c, resolve cs c s) s (constraints p))).
Proof.
  intros Hp. unfold resolveConstraints, pinned. rewrite Hp.
  by destruct (pinX p), (pinY p).
Qed.

(** C6: after [resolveConstraints] a pinned point is on its pin. *)
Theorem resolveConstraints_pinned i s p a b :
  s !! i = Some p → pinX p = Some a → pinY p = Some b →
  ∃ q, resolveConstraints i s !! i = Some q ∧ x q = a ∧ y q = b.
Proof.
  intros Hp Ha Hb. rewrite (resolveConstraints_pinned_eq i s p a b) by done.
  eexists. split; [apply list_lookup_insert_eq; by eapply lookup_lt_Some|done].
Qed.

(** A pinned point that is on its pin stays where it is. *)
Lemma resolveConstraints_on_pin i s p :
  s !! i = Some p → pinX p = Some (x p) → pinY p = Some (y p) →
  resolveConstraints i s = s.
Proof.
  intros Hp Hx Hy. rewrite (resolveConstraints_pinned_eq i s p (x p) (y p)) by done.
  transitivity (<[i:=p]> s); [f_equal; by destruct p|by apply list_insert_id].
Qed.

(** [resolveConstraints] on a pinned point leaves every other point as it
    was. *)
Lemma resolveConstraints_pinned_frame i j s p :
  s !! i = Some p → pinned p = true → i ≠ j →
  resolveConstraints i s !! j = s !! j.
Proof.
  intros Hp Hpin Hne. unfold pinned in Hpin.
  destruct (pinX p) as [a|] eqn:Ha, (pinY p) as [b|] eqn:Hb; try done.
  rewrite (resolveConstraints_pinned_eq i s p a b) by done.
  by apply list_lookup_insert_ne.
Qed.

(** C35: [resolveConstraints] reads and writes [this] and the end points of
    the links of [this] only: every other point of the store is left as
    it was. *)
Theorem resolveConstraints_frame i j s p :
  s !! i = Some p → j ≠ i →
  (∀ c, c ∈ constraints p → j ≠ p1 c ∧ j ≠ p2 c) →
  resolveConstraints i s !! j = s !! j.
Proof.
  intros Hp Hne Hfar. unfold resolveConstraints. rewrite Hp.
  destruct (pinX p), (pinY p); simpl_alter; try done;
    apply (foldl_invariant_elem (λ s', s' !! j = s !! j)); try done;
    intros s' c Hc <-; apply resolve_frame; by apply Hfar.
Qed.

(** ** The clamp *)

Section clamped.
Context `{!OrderLaws T}.

(** C7: after [resolveConstraints] an unpinned point lies in the canvas
    shrunk by one unit on each side, provided the position [q'] that the
    relaxation of its links leaves it at is ordered (on doubles: is not
    NaN). *)
Theorem resolveConstraints_clamped i s p q' :
  s !! i = Some p → pinned p = false →
  foldl (λ s c, resolve cs c s) s (constraints p) !! i = Some q' →
  ordered (x q') → ordered (y q') →
  interval n1 (canvas_width - n1)%num → interval n1 (canvas_height - n1)%num →
  ∃ q, resolveConstraints i s !! i = Some q ∧
       within n1 (canvas_width - n1)%num (x q) ∧
       within n1 (canvas_height - n1)%num (y q).
Proof.
  intros Hp Hfree Hq Hx Hy Hw Hh. rewrite (resolveConstraints_free_eq i s p) by done.
  simpl_alter. rewrite Hq. eexists. split; [done|]. simpl.
  split; by apply clamp_bounds.
Qed.

(** The relaxation leaves a point at every index it started with, so the
    position [q'] above exists. *)
Lemma relaxed_position i s p :
  s !! i = Some p →
  ∃ q', foldl (λ s c, resolve cs c s) s (constraints p) !! i = Some q'.
Proof.
  intros Hp.
  destruct (evolves_lookup_l s (foldl (λ s c, resolve cs c s) s (constraints p)) i p)
    as (q & Hq & _); [|done|by exists q].
  apply (foldl_evolving (λ s c, resolve cs c s)); apply _.
Qed.

End clamped.

(** ** The cases of [update] *)

(** With the button up, [update] is gravity and the Verlet step. *)
Lemma update_idle_eq m delta i s p :
  s !! i = Some p → mouseDown m = false →
  update m delta i s =
    <[i := verlet (delta * delta)%num (addForce n0 (gravity cs) p)]> s.
Proof.
  intros Hp Hm. unfold update, pointer_influence. rewrite Hp, Hm.
  rewrite list_alter_alter_eq.
  by apply (alter_as_insert (verlet _ ∘ addForce _ _)).
Qed.

(** Primary button held within [mouseInfluence]: the previous position is
    overwritten before the Verlet step. *)
Lemma update_drag_eq m delta i s p :
  s !! i = Some p → mouseDown m = true → mouseButton m = 0%Z →
  (reach m p <? mouseInfluence cs)%num = true →
  update m delta i s =
    <[i := verlet (delta * delta)%num (addForce n0 (gravity cs)
             (set_py (y p - (mouseY m - y p) * half)%num
             (set_px (x p - (mouseX m - x p) * half)%num p)))]> s.
Proof.
  unfold reach. intros Hp Hm Hb Hr. unfold update, pointer_influence.
  rewrite Hp, Hm, Hb, Hr. simpl. rewrite !list_alter_alter_eq.
  by rewrite (alter_as_insert _ _ _ p).
Qed.

(** Secondary button held within [mouseCut]: the link list is filtered
    before the Verlet step. *)
Lemma update_cut_eq m delta i s p :
  s !! i = Some p → mouseDown m = true → mouseButton m = 2%Z →
  (reach m p <? mouseCut cs)%num = true →
  update m delta i s =
    <[i := verlet (delta * delta)%num (addForce n0 (gravity cs)
             (set_constraints (filter (λ c, stretched s c) (constraints p)) p))]> s.
Proof.
  unfold reach. intros Hp Hm Hb Hr. unfold update, pointer_influence.
  rewrite Hp, Hm, Hb, Hr. simpl. rewrite !list_alter_alter_eq.
  by rewrite (alter_as_insert _ _ _ p).
Qed.

(** Unless the secondary button is held, [update] reads and writes the
    fields of [this] only: it is an update of one slot of the array. *)
Lemma update_pointwise m delta i s :
  mouseDown m = false ∨ mouseButton m ≠ 2%Z →
  update m delta i s =
    alter (λ p, verlet (delta * delta)%num (addForce n0 (gravity cs) (dragged m p))) i s.
Proof.
  intros Hm. unfold update, pointer_influence, dragged, reach.
  destruct (s !! i) as [p|] eqn:Hp; [|by rewrite !(alter_None _ s i Hp)].
  rewrite list_alter_alter_eq.
  destruct (mouseDown m); simpl;
    [|by apply list_alter_ext; [intros q _|]].
  destruct Hm as [|Hm]; [done|].
  destruct (mouseButton m =? 0)%Z eqn:E0; simpl.
  - destruct (_ <? _)%num eqn:Er; simpl.
    + rewrite !list_alter_alter_eq. apply list_alter_ext; [|done].
      intros q Hq. simplify_eq. simpl. by rewrite Er.
    + assert ((mouseButton m =? 2)%Z = false) as -> by lia. simpl.
      apply list_alter_ext; [|done]. intros q Hq. simplify_eq. simpl. by rewrite Er.
  - assert ((mouseButton m =? 2)%Z = false) as -> by lia. simpl.
    by apply list_alter_ext; [intros q _|].
Qed.

(** What the filter of the cut asks of a link: both end points are in the
    store, more than [tearDistance] apart. *)
Lemma stretched_spec s c :
  stretched s c = true ↔
  ∃ a b, s !! p1 c = Some a ∧ s !! p2 c = Some b ∧
         (tearDistance cs <?
            sqrt ((x a - x b) * (x a - x b) + (y a - y b) * (y a - y b)))%num = true.
Proof.
  unfold stretched. split.
  - destruct (s !! p1 c) as [a|], (s !! p2 c) as [b|]; try done. by exists a, b.
  - by intros (a & b & -> & -> & H).
Qed.

(** C5: the cut keeps, in their order, the links of [this] whose end
    points are more than [tearDistance] apart in the store as [update]
    finds it, and removes every other link of [this]: the slack ones. *)
Theorem update_cut_keeps_stretched m delta i s p :
  s !! i = Some p → mouseDown m = true → mouseButton m = 2%Z →
  (reach m p <? mouseCut cs)%num = true →
  ∃ q, update m delta i s !! i = Some q ∧
       constraints q `sublist_of` constraints p ∧
       ∀ c, c ∈ constraints q ↔
            c ∈ constraints p ∧
            ∃ a b, s !! p1 c = Some a ∧ s !! p2 c = Some b ∧
                   (tearDistance cs <?
                      sqrt ((x a - x b) * (x a - x b)
                            + (y a - y b) * (y a - y b)))%num = true.
Proof.
  intros Hp Hm Hb Hr. rewrite (update_cut_eq m delta i s p) by done.
  eexists. split; [apply list_lookup_insert_eq; by eapply lookup_lt_Some|].
  simpl. split; [apply sublist_filter|].
  intros c. rewrite list_elem_of_filter, Is_true_true, stretched_spec. tauto.
Qed.

(** C34: the pointer acts within its radii only: at [mouseInfluence] or
    beyond for the primary button, at [mouseCut] or beyond for the
    secondary one, [update] is gravity and the Verlet step, as with the
    button up. *)
Theorem update_out_of_reach m delta i s p :
  s !! i = Some p →
  (mouseButton m = 0%Z → (reach m p <? mouseInfluence cs)%num = false) →
  (mouseButton m = 2%Z → (reach m p <? mouseCut cs)%num = false) →
  update m delta i s =
    <[i := verlet (delta * delta)%num (addForce n0 (gravity cs) p)]> s.
Proof.
  intros Hp H0 H2. unfold update, pointer_influence, reach in *. rewrite Hp.
  assert ((if mouseDown m then
             if (mouseButton m =? 0)%Z && (_ <? mouseInfluence cs)%num then _
             else if (mouseButton m =? 2)%Z && (_ <? mouseCut cs)%num then _ else s
           else s) = s) as ->.
  { destruct (mouseDown m); [|done].
    destruct (mouseButton m =? 0)%Z eqn:E0; [rewrite H0 by lia|]; simpl;
      (destruct (mouseButton m =? 2)%Z eqn:E2; [rewrite H2 by lia|]; done). }
  rewrite list_alter_alter_eq. by apply (alter_as_insert (verlet _ ∘ addForce _ _)).
Qed.

(** [update] reads and writes [this] only (the filter of the cut reads the
    end points of its links). *)
Lemma update_frame m delta i j s :
  i ≠ j → update m delta i s !! j = s !! j.
Proof.
  intros Hne. unfold update, pointer_influence. simpl_alter.
  case_lookup; [|done]. repeat case_match; by simpl_alter.
Qed.

(** After [update] the force is reset and the previous position is the
    position before the call. *)
Lemma update_resets m delta i s p :
  s !! i = Some p →
  ∃ q, update m delta i s !! i = Some q ∧
       px q = x p ∧ py q = y p ∧ vx q = n0 ∧ vy q = n0.
Proof.
  intros Hp. unfold update, pointer_influence. rewrite Hp. simpl_alter.
  repeat case_match; simpl_alter; rewrite Hp; eexists; (split; [done|]); done.
Qed.

End point.

(** ** Exact arithmetic *)

Section exact.
Context (cs : Settings R).
Implicit Types (s : list (Point R)) (p : Point R) (m : Mouse R).
Local Open Scope R_scope.

(** C10: in exact arithmetic, with no button held [update] is the damped
    Verlet step: the point advances by 0.99 of its last displacement plus
    half the acceleration times the squared time step, gravity acting on
    [y] only. *)
Theorem update_verlet_step m delta i s p :
  s !! i = Some p → mouseDown m = false →
  ∃ q, update cs m delta i s !! i = Some q ∧
       x q = x p + (x p - px p) * (99 / 100) + vx p / 2 * (delta * delta) ∧
       y q = y p + (y p - py p) * (99 / 100)
             + (vy p + gravity cs) / 2 * (delta * delta).
Proof.
  intros Hp Hm. rewrite (update_idle_eq cs m delta i s p) by done.
  eexists. split; [apply list_lookup_insert_eq; by eapply lookup_lt_Some|].
  unfold damping, dec, n0, n2; simpl. split; lra.
Qed.

(** C33: in exact arithmetic, a point within [mouseInfluence] of the held
    primary button moves by 0.495 of its offset to the pointer: the pull
    grows with the distance and does not fade towards the boundary. *)
Theorem update_drag_pull m delta i s p :
  s !! i = Some p → mouseDown m = true → mouseButton m = 0%Z →
  (reach m p <? mouseInfluence cs)%num = true →
  ∃ q, update cs m delta i s !! i = Some q ∧
       x q = x p + (mouseX m - x p) * (99 / 200) + vx p / 2 * (delta * delta) ∧
       y q = y p + (mouseY m - y p) * (99 / 200)
             + (vy p + gravity cs) / 2 * (delta * delta).
Proof.
  intros Hp Hm Hb Hr. rewrite (update_drag_eq cs m delta i s p) by done.
  eexists. split; [apply list_lookup_insert_eq; by eapply lookup_lt_Some|].
  unfold damping, half, dec, n0, n2; simpl. split; lra.
Qed.

(** A point at rest under no force stays where it is. *)
Lemma update_at_rest m delta i s p :
  s !! i = Some p → mouseDown m = false → gravity cs = 0 →
  px p = x p → py p = y p → vx p = 0 → vy p = 0 →
  update cs m delta i s = s.
Proof.
  intros Hp Hm Hg Hpx Hpy Hvx Hvy. rewrite (update_idle_eq cs m delta i s p) by done.
  transitivity (<[i:=p]> s); [f_equal|by apply list_insert_id].
  destruct p as [x0 y0 px0 py0 vx0 vy0 pinx piny l]; simpl in *; subst.
  cbv [verlet addForce set_vy set_vx set_y set_x set_py set_px
       x y px py vx vy pinX pinY constraints].
  rewrite Hg. f_equal; unfold n0, n2, damping, dec; simpl; lra.
Qed.

(** [resolveConstraints] does nothing to a point that is on its pin, or
    that is inside the canvas and whose links are all fixed points of
    [resolve]. *)
Lemma resolveConstraints_at_rest canvas i s p :
  s !! i = Some p →
  (pinned p = true → pinX p = Some (x p) ∧ pinY p = Some (y p)) →
  (pinned p = false →
     (∀ c, c ∈ constraints p → resolve cs c s = s) ∧
     1 <= x p <= canvas_width canvas - 1 ∧ 1 <= y p <= canvas_height canvas - 1) →
  resolveConstraints canvas cs i s = s.
Proof.
  intros Hp Hpin Hfree. destruct (pinned p) eqn:E.
  - destruct Hpin as [Hx Hy]; [done|].
    rewrite (resolveConstraints_pinned_eq canvas cs i s p (x p) (y p)) by done.
    transitivity (<[i:=p]> s); [f_equal; by destruct p|by apply list_insert_id].
  - destruct Hfree as (Hres & Hx & Hy); [done|].
    rewrite (resolveConstraints_free_eq canvas cs i s p), foldl_fixed by done.
    rewrite !(alter_fixed _ s i p); try done.
    + change (set_y (clamp 1 (canvas_height canvas - 1) (y p)) p = p).
      rewrite clamp_id by done. by destruct p.
    + change (set_x (clamp 1 (canvas_width canvas - 1) (x p)) p = p).
      rewrite clamp_id by done. by destruct p.
Qed.

End exact.

(** ** Doubles: NaN is never repaired *)

Section doubles.
Context (canvas : option (Canvas float)) (cs : Settings float).
Implicit Types (s : list (Point float)) (p : Point float) (m : Mouse float).

#[export] Instance addForce_nan_keeping fx fy : PointNanKeeping (addForce fx fy).
Proof. solve_lost. Qed.

(** The new position is a sum that starts with the old one. *)
#[export] Instance verlet_nan_keeping delta : PointNanKeeping (verlet delta).
Proof. solve_lost. Qed.

(** [update] keeps a lost point lost: the pointer assigns the previous
    position and the link list only. *)
#[export] Instance update_nan_keeping m delta j : NanKeeping (update cs m delta j).
Proof.
  intros ax i s H. unfold update. do 2 (apply lost_alter; [apply _|]).
  unfold pointer_influence. case_lookup; [|done].
  repeat case_match; try done; repeat (apply lost_alter; [solve_lost|]); done.
Qed.

(** So does [resolveConstraints]: the pins are assigned to pinned points
    only, and neither the relaxation nor the clamp repairs a NaN. *)
#[export] Instance resolveConstraints_nan_keeping j :
  NanKeeping (resolveConstraints canvas cs j).
Proof.
  intros ax i s (p & Hp & Hl). unfold resolveConstraints.
  destruct (s !! j) as [q|] eqn:Hq; [|by exists p].
  destruct (pinned q) eqn:Hpin.
  - assert (j ≠ i) as Hne by (intros ->; destruct Hl as [Hl _]; simplify_eq; congruence).
    unfold pinned in Hpin.
    destruct (pinX q), (pinY q); try done. exists p. by simpl_alter.
  - assert (lost_at ax i (foldl (λ s c, resolve cs c s) s (constraints q))) as Hres.
    { apply (foldl_invariant (lost_at ax i)); [|by exists p].
      intros s' c. apply resolve_nan_keeping. }
    unfold pinned in Hpin. destruct (pinX q), (pinY q); try done;
      repeat (apply lost_alter; [solve_lost|]); done.
Qed.

End doubles.

(** ** Concrete runs *)

Section floating.
Local Open Scope float_scope.
#[local] Abbreviation cs := (small 2 2 : Settings float).
#[local] Abbreviation pinned_away := ([pin 5 7 (at_rest 0 0 [])] : list (Point float)).

(** A pinned point that was moved away is put back on its pin. *)
Lemma resolveConstraints_pinned_witness :
  ∃ q, resolveConstraints canvas200 cs 0 pinned_away !! 0%nat = Some q ∧
       x q = 5 ∧ y q = 7.
Proof. by apply (resolveConstraints_pinned canvas200 cs 0 pinned_away (pin 5 7 (at_rest 0 0 []))). Defined.

(** The cut at a point with a slack link (5 long, to its neighbour) and a
    stretched one (more than 100 long, to the origin). *)
Lemma update_cut_keeps_stretched_witness :
  let s := [at_rest 0 0 []; at_rest 100 0 [];
            at_rest 103 4 [mkConstraint 0 2 1 12; mkConstraint 1 2 0 12]] in
  ∃ q, update cs (pointer 103 4 2) timestep 2 s !! 2%nat = Some q ∧
       constraints q `sublist_of` [mkConstraint 0 2 1 12; mkConstraint 1 2 0 12] ∧
       ∀ c, c ∈ constraints q ↔
            c ∈ [mkConstraint 0 2 1 12; mkConstraint 1 2 0 12] ∧
            ∃ a b, s !! p1 c = Some a ∧ s !! p2 c = Some b ∧
                   (tearDistance cs <?
                      sqrt ((x a - x b) * (x a - x b)
                            + (y a - y b) * (y a - y b)))%num = true.
Proof.
  intros s.
  by apply (update_cut_keeps_stretched cs (pointer 103 4 2) timestep 2 s
              (at_rest 103 4 [mkConstraint 0 2 1 12; mkConstraint 1 2 0 12])).
Defined.

(** The same run, evaluated: the slack link is removed, the stretched one
    stays. *)
Example update_cut_both_run :
  constraints <$>
    update cs (pointer 103 4 2) timestep 2
      [at_rest 0 0 []; at_rest 100 0 [];
       at_rest 103 4 [mkConstraint 0 2 1 12; mkConstraint 1 2 0 12]]
  = [[]; []; [mkConstraint 1 2 0 12]].
Proof. by vm_compute. Qed.

(** In a chain of three points, the relaxation of the last one leaves
    the first one alone. *)
Lemma resolveConstraints_frame_witness :
  let s := [at_rest 10 50 []; at_rest 26 50 [mkConstraint 0 1 0 8];
            at_rest 42 50 [mkConstraint 1 2 1 8]] in
  resolveConstraints canvas200 cs 2 s !! 0%nat = s !! 0%nat.
Proof.
  apply (resolveConstraints_frame canvas200 cs 2 0 _ (at_rest 42 50 [mkConstraint 1 2 1 8]));
    [done..|].
  intros c ->%list_elem_of_singleton. done.
Defined.

(** A point outside the canvas of 200 by 200, at [(300, -7)], is brought
    back to [(199, 1)]. *)
Lemma resolveConstraints_clamped_witness :
  ∃ q, resolveConstraints canvas200 cs 0 [at_rest 300 (-7) []] !! 0%nat = Some q ∧
       within n1 (canvas_width canvas200 - n1)%num (x q) ∧
       within n1 (canvas_height canvas200 - n1)%num (y q).
Proof.
  by apply (resolveConstraints_clamped canvas200 cs 0 [at_rest 300 (-7) []]
              (at_rest 300 (-7) []) (at_rest 300 (-7) [])).
Defined.

Example resolveConstraints_clamped_run :
  (λ p, (x p, y p)) <$> resolveConstraints canvas200 cs 0 [at_rest 300 (-7) []]
  = [(199, 1)].
Proof. by vm_compute. Qed.

(** The primary button held at [(33, 4)], exactly [mouseInfluence = 30]
    away from the point at [(3, 4)]: no pull. *)
Lemma update_out_of_reach_witness :
  update cs (pointer 33 4 0) timestep 1 (pair_at 3 4 12) =
  <[1%nat := verlet (timestep * timestep)%num
               (addForce n0 (gravity cs) (at_rest 3 4 [mkConstraint 0 1 0 12]))]>
    (pair_at 3 4 12).
Proof.
  by apply (update_out_of_reach cs (pointer 33 4 0) timestep 1 (pair_at 3 4 12)
              (at_rest 3 4 [mkConstraint 0 1 0 12])).
Defined.

(** The same run, evaluated: the link is 5 long, which is not more than
    [tearDistance], so the cut removes it. *)
Example update_cut_run :
  constraints <$> update cs (pointer 3 4 2) timestep 1 (pair_at 3 4 12) = [[]; []].
Proof. by vm_compute. Qed.

(** A link stretched to 100 survives the cut. *)
Example update_cut_stretched_run :
  constraints <$> update cs (pointer 100 0 2) timestep 1 (pair_at 100 0 12)
  = [[]; [mkConstraint 0 1 0 12]].
Proof. by vm_compute. Qed.

(** [update] moves a pinned point: gravity pulls it off its pin. *)
Example update_moves_pinned :
  (λ p, (y p, pinY p)) <$> update cs idle timestep 0 [pin 5 5 (at_rest 5 5 [])]
  = [(0x1.49d495182a993p+2, Some 5)].
Proof. by vm_compute. Qed.

End floating.

Section exact_runs.
Local Open Scope R_scope.
#[local] Abbreviation cs := (small 2 2 : Settings R).

(** A point at [(3, 4)] at rest, one frame without the pointer. *)
Lemma update_verlet_step_witness :
  ∃ q, update cs idle timestep 1 (pair_at 3 4 12) !! 1%nat = Some q ∧
       x q = 3 + (3 - 3) * (99 / 100) + 0 / 2 * (timestep * timestep) ∧
       y q = 4 + (4 - 4) * (99 / 100) + (0 + 1200) / 2 * (timestep * timestep).
Proof.
  exact (update_verlet_step cs idle timestep 1 (pair_at 3 4 12)
           (at_rest 3 4 [mkConstraint 0 1 0 12]) eq_refl eq_refl).
Defined.

(** The same point dragged by a pointer at [(13, 4)], which is 10 away and
    within the radius of 30. *)
Lemma update_drag_pull_witness :
  ∃ q, update cs (pointer 13 4 0) timestep 1 (pair_at 3 4 12) !! 1%nat = Some q ∧
       x q = 3 + (13 - 3) * (99 / 200) + 0 / 2 * (timestep * timestep) ∧
       y q = 4 + (4 - 4) * (99 / 200) + (0 + 1200) / 2 * (timestep * timestep).
Proof.
  refine (update_drag_pull cs (pointer 13 4 0) timestep 1 (pair_at 3 4 12)
            (at_rest 3 4 [mkConstraint 0 1 0 12]) eq_refl eq_refl eq_refl _).
  apply Rltb_true. unfold reach; simpl.
  replace ((3 - 13) * (3 - 13) + (4 - 4) * (4 - 4)) with (10 * 10) by lra.
  rewrite sqrt_square; lra.
Defined.

End exact_runs.
