(* ===== verification/Draw.v ===== *)
(** * Draw: [Cloth.draw] and the picture on the canvas (lines 198-209)

    [draw] is the list of calls the method makes on the 2D context, after
    the calls made before.  [paint] gives the calls their meaning in the
    canvas API (the current path, the stroke style, the strokes painted
    since the canvas was last cleared), and [picture] is what a log of
    calls leaves on the canvas.  [geometry] is the cloth as the list of the
    segments between the end points of its links: a frame's calls paint
    exactly that, whatever was on the canvas before. *)

From Stdlib Require Import Floats String.
From S2P Require Import Prelude Number Float64 Data.

(** The calls on the 2D context that the simulator makes. *)
Inductive DrawCmd (T : Type) : Type :=
  | ClearRect (x0 y0 w h : T)
  | BeginPath
  | StrokeStyle (color : string)
  | MoveTo (x0 y0 : T)
  | LineTo (x0 y0 : T)
  | Stroke.
Arguments ClearRect {T}.
Arguments BeginPath {T}.
Arguments StrokeStyle {T}.
Arguments MoveTo {T}.
Arguments LineTo {T}.
Arguments Stroke {T}.

(** A segment from [(x1, y1)] to [(x2, y2)]. *)
Definition Segment (T : Type) : Type := T * T * T * T.

(** The state of a 2D context that the calls of the simulator read or
    write. *)
Record Context2D (T : Type) := mkContext2D {
  strokeStyle : string;                          (* the current stroke style *)
  pen : option (T * T);                          (* the last point of the current path *)
  path : list (Segment T);                       (* the lines of the current path *)
  painted : list (string * list (Segment T));    (* the strokes on the canvas *)
}.
Arguments mkContext2D {T}.
Arguments strokeStyle {T}.
Arguments pen {T}.
Arguments path {T}.
Arguments painted {T}.

Section draw.
Context {T : Type}.
Implicit Types (c : Constraint T) (s : list (Point T)) (p : Point T).
Implicit Types (g : Context2D T) (d : DrawCmd T).

(** ** The method *)

(** [ctx.moveTo(c.p1.x, c.p1.y); ctx.lineTo(c.p2.x, c.p2.y)]. *)
Definition segment s c : list (DrawCmd T) :=
  match s !! p1 c, s !! p2 c with
  | Some a, Some b => [MoveTo (x a) (y a); LineTo (x b) (y b)]
  | _, _ => []
  end.

(** The two nested [forEach] of [draw]. *)
Definition segments s : list (DrawCmd T) :=
  concat ((λ p, concat (segment s <$> constraints p)) <$> s).

(** [draw()] (lines 198-209): the context is the list of the calls made
    on it so far; without a context nothing is drawn. *)
Definition draw (lineColor : string) (ctx : option (list (DrawCmd T))) s :
    option (list (DrawCmd T)) :=
  match ctx with
  | None => None
  | Some calls =>
      Some (calls ++ [BeginPath; StrokeStyle lineColor] ++ segments s ++ [Stroke])
  end.

(** The commands that extend the current path. *)
Definition path_cmd (d : DrawCmd T) : Prop :=
  match d with MoveTo _ _ | LineTo _ _ => True | _ => False end.

(** ** The canvas *)

(** A new context: an empty path, a black stroke style, nothing painted. *)
Definition blank : Context2D T := mkContext2D "#000000" None [] [].

(** The effect of one call.  The simulator clears the whole canvas, so
    [clearRect] erases every stroke; [lineTo] without a current point only
    sets the point. *)
Definition paint g d : Context2D T :=
  match d with
  | ClearRect _ _ _ _ => mkContext2D (strokeStyle g) (pen g) (path g) []
  | BeginPath => mkContext2D (strokeStyle g) None [] (painted g)
  | StrokeStyle color => mkContext2D color (pen g) (path g) (painted g)
  | MoveTo x0 y0 => mkContext2D (strokeStyle g) (Some (x0, y0)) (path g) (painted g)
  | LineTo x0 y0 =>
      match pen g with
      | Some (a, b) =>
          mkContext2D (strokeStyle g) (Some (x0, y0)) (path g ++ [(a, b, x0, y0)])
                      (painted g)
      | None => mkContext2D (strokeStyle g) (Some (x0, y0)) (path g) (painted g)
      end
  | Stroke => mkContext2D (strokeStyle g) (pen g) (path g)
                          (painted g ++ [(strokeStyle g, path g)])
  end.

(** What a log of calls leaves on the canvas. *)
Definition picture (calls : list (DrawCmd T)) : list (string * list (Segment T)) :=
  painted (foldl paint blank calls).

(** ** The cloth as a set of segments *)

(** The segment between the end points of a link. *)
Definition endpoints s c : option (Segment T) :=
  match s !! p1 c, s !! p2 c with
  | Some a, Some b => Some (x a, y a, x b, y b)
  | _, _ => None
  end.

(** The segments of all links, in array order. *)
Definition geometry s : list (Segment T) := omap (endpoints s) (all_links s).

(** ** What is drawn *)

(** The nested loops of [draw] visit the links of the store in array
    order. *)
Lemma segments_links s : segments s = concat (segment s <$> all_links s).
Proof.
  unfold segments, all_links. generalize (segment s). intros f.
  induction s as [|p s IH]; [done|].
  simpl. rewrite fmap_app, concat_app. by f_equal.
Qed.

(** In a well-formed store every link has both end points, so it is drawn
    as one segment. *)
Lemma segment_wf s c : wf s → c ∈ all_links s → length (segment s c) = 2.
Proof.
  intros Hwf (i & p & Hp & Hc)%elem_of_all_links. unfold segment.
  rewrite (wf_owner s Hwf i p c Hp Hc), Hp.
  destruct (lookup_lt_is_Some_2 s (p2 c)) as [b ->]; [|done].
  by eapply wf_target.
Qed.

(** Two calls per link. *)
Lemma segments_length s : wf s → length (segments s) = 2 * length (all_links s).
Proof.
  intros Hwf. rewrite segments_links. apply length_concat_blocks.
  intros c Hc. by apply segment_wf.
Qed.

(** C9: on a well-formed store [draw] makes [2 * links + 3] calls on the
    context: [beginPath], [strokeStyle], two calls for each link of the
    store, and [stroke].  (What the calls paint is [frame_picture].) *)
Theorem draw_calls lineColor calls s :
  wf s →
  ∃ calls', draw lineColor (Some calls) s = Some calls' ∧
            length calls' = length calls + 2 * length (all_links s) + 3.
Proof.
  intros Hwf. eexists. split; [done|].
  rewrite !length_app, segments_length by done. simpl. lia.
Qed.

(** Between [beginPath] and [stroke], [draw] only extends the path. *)
Lemma segments_path s : Forall path_cmd (segments s).
Proof.
  unfold segments. apply Forall_concat, Forall_fmap, Forall_forall. intros p _.
  apply Forall_concat, Forall_fmap, Forall_forall. intros c _. simpl.
  unfold segment. repeat case_match; by repeat constructor.
Qed.

(** Without a context [draw] does nothing. *)
Lemma draw_no_context lineColor s : draw lineColor None s = None.
Proof. done. Qed.

(** ** The picture *)

(** The two calls of a link add its segment to the current path. *)
Lemma paint_segment g s c :
  foldl paint g (segment s c) =
  match endpoints s c with
  | Some seg => mkContext2D (strokeStyle g) (Some (seg.1.2, seg.2)) (path g ++ [seg]) (painted g)
  | None => g
  end.
Proof. unfold segment, endpoints. by destruct (s !! p1 c), (s !! p2 c). Qed.

(** The calls of a list of links extend the path by their segments and
    touch neither the stroke style nor the canvas. *)
Lemma paint_links g s (l : list (Constraint T)) :
  let g' := foldl paint g (concat (segment s <$> l)) in
  strokeStyle g' = strokeStyle g ∧ painted g' = painted g ∧
  path g' = path g ++ omap (endpoints s) l.
Proof.
  revert g. induction l as [|c l IH]; intros g.
  { simpl. by rewrite app_nil_r. }
  rewrite fmap_cons. cbn [concat]. rewrite foldl_app, paint_segment. cbn [omap list_omap].
  destruct (endpoints s c) as [seg|]; [|apply IH].
  pose proof (IH (mkContext2D (strokeStyle g) (Some (seg.1.2, seg.2)) (path g ++ [seg])
                              (painted g))) as H.
  simpl in H. destruct H as (-> & -> & ->). by rewrite <- app_assoc.
Qed.

(** [draw] paints one stroke: the segments of the links, in the line
    colour, over what was on the canvas. *)
Lemma draw_paints lineColor calls s :
  picture <$> draw lineColor (Some calls) s =
  Some (picture calls ++ [(lineColor, geometry s)]).
Proof.
  unfold picture, draw; simpl. rewrite foldl_app; simpl. rewrite foldl_app; simpl.
  rewrite segments_links.
  by destruct (paint_links (mkContext2D lineColor None [] (painted (foldl paint blank calls)))
                 s (all_links s)) as (-> & -> & ->).
Qed.

(** Clearing the canvas erases the picture. *)
Lemma picture_clear calls x0 y0 w h : picture (calls ++ [ClearRect x0 y0 w h]) = [].
Proof. unfold picture. by rewrite foldl_app. Qed.

(** C13: the picture of a frame is the cloth: after [clearRect], [draw] leaves
    on the canvas the segment of every link of the store, once, in the line
    colour, and nothing of what was drawn before. *)
Theorem frame_picture lineColor calls x0 y0 w h s :
  picture <$> draw lineColor (Some (calls ++ [ClearRect x0 y0 w h])) s =
  Some [(lineColor, geometry s)].
Proof. by rewrite draw_paints, picture_clear. Qed.

(** Drawing twice without an update in between emits the same calls both
    times, and paints the same stroke twice. *)
Lemma draw_twice lineColor calls s :
  let emitted := [BeginPath; StrokeStyle lineColor] ++ segments s ++ [Stroke] in
  draw lineColor (draw lineColor (Some calls) s) s = Some (calls ++ emitted ++ emitted) ∧
  picture <$> draw lineColor (draw lineColor (Some calls) s) s =
    Some (picture calls ++ [(lineColor, geometry s); (lineColor, geometry s)]).
Proof.
  split; [by unfold draw; rewrite <- !app_assoc|].
  pose proof (draw_paints lineColor calls s) as H1.
  destruct (draw lineColor (Some calls) s) as [calls'|] eqn:E; [|done].
  rewrite draw_paints. injection H1 as ->. by rewrite <- app_assoc.
Qed.

(** In a well-formed store every link has its segment. *)
Lemma geometry_length s : wf s → length (geometry s) = length (all_links s).
Proof.
  intros Hwf. unfold geometry.
  assert (Forall (λ c, is_Some (endpoints s c)) (all_links s)) as H.
  { apply Forall_forall. intros c (i & p & Hp & Hc)%elem_of_all_links. unfold endpoints.
    rewrite (wf_owner s Hwf i p c Hp Hc), Hp.
    destruct (lookup_lt_is_Some_2 s (p2 c)) as [b ->]; [|done].
    by eapply wf_target. }
  induction H as [|c l [seg Hc] _ IH]; [done|]. simpl. rewrite Hc. simpl. by f_equal.
Qed.

End draw.

(** ** Concrete runs *)

Section floating.
Local Open Scope string_scope.
#[local] Abbreviation pair := (pair_at 3 4 5 : list (Point float)).

(** A pair of points joined by one link: five calls. *)
Lemma draw_calls_witness :
  ∃ calls', draw "#888" (Some []) pair = Some calls' ∧
            length calls' = 0 + 2 * length (all_links pair) + 3.
Proof.
  apply (draw_calls "#888" [] pair). by apply (bool_decide_unpack _); vm_compute.
Defined.

(** Its picture, drawn over an earlier stroke of an empty path: the canvas
    keeps the earlier stroke and gains the segment from [(3, 4)] to the
    origin. *)
Example picture_pair :
  picture <$> draw "#888" (Some [Stroke]) pair =
  Some [("#000000", []); ("#888", [(3, 4, 0, 0)%float])].
Proof. by vm_compute. Qed.

End floating.
