(* ===== verification/ClothOps.v ===== *)
(** * ClothOps: [class Cloth] (lines 169-210)

    [new_Cloth] is the constructor: two nested counted loops that push one
    point per grid cell, threading the array built so far and the number of
    links allocated so far (the identity of the next link).  [grid_point]
    is the reference description of the lattice, cell by cell, and
    [new_Cloth_spec] shows that the loops build exactly that.
    [Cloth_update] is the frame step ([draw] is in [Draw]).  The
    sections of exact arithmetic show that the cloth is built at rest (an
    equilibrium without gravity), what its first frame does and how a
    lone point falls; the section [doubles] shows that a NaN is never
    repaired and that a spacing of zero produces one. *)

From Stdlib Require Import Reals Lra Floats String.
From S2P Require Import Prelude Number Float64 Ideal Data ConstraintOps PointOps.

Section cloth.
Context {T : Type} `{!Number T}.
Context (canvas : option (Canvas T)) (cs : Settings T).
Implicit Types (c : Constraint T) (s : list (Point T)) (p : Point T).
Implicit Types (m : Mouse T) (i j k gx gy : nat).

(** ** The constructor *)

(** [startX = (canvas?.width ?? 200) / 2 - (clothWidth * spacing) / 2]. *)
Definition startX : T :=
  (canvas_width canvas / n2 - (of_nat (clothWidth cs) * spacing cs) / n2)%num.

(** The body of the inner loop (lines 177-186) for the cell in column [gx]
    of row [gy]; the state is the array and the allocation counter. *)
Definition build_point gy gx (st : list (Point T) * nat) : list (Point T) * nat :=
  let points := st.1 in
  let this := length points in
  let p := new_Point (startX + of_nat gx * spacing cs)%num
                     (startY cs + of_nat gy * spacing cs)%num in
  let st1 := if decide (gx ≠ 0)
             then (attach cs st.2 this (length points - 1) p, S st.2)
             else (p, st.2) in
  let p := if decide (gy = 0) then pin (x st1.1) (y st1.1) st1.1 else st1.1 in
  let st2 := if decide (gy ≠ 0)
             then (attach cs st1.2 this (gx + (gy - 1) * (clothWidth cs + 1)) p,
                   S st1.2)
             else (p, st1.2) in
  (points ++ [st2.1], st2.2).

(** The inner loop [for (let x = 0; x <= clothWidth; x++)]. *)
Definition build_row gy (st : list (Point T) * nat) : list (Point T) * nat :=
  foldl (λ st gx, build_point gy gx st) st (seq 0 (clothWidth cs + 1)).

(** [new Cloth()]: the outer loop [for (let y = 0; y <= clothHeight; y++)],
    from the empty array. *)
Definition new_Cloth : list (Point T) :=
  (foldl (λ st gy, build_row gy st) ([], 0) (seq 0 (clothHeight cs + 1))).1.

(** ** The lattice, cell by cell *)

(** The number of links the cell of index [k] creates: one to the left
    unless it is in the first column, one upwards unless it is in the
    first row. *)
Definition links_of_cell k : nat :=
  (if decide (k mod (clothWidth cs + 1) ≠ 0) then 1 else 0) +
  (if decide (k / (clothWidth cs + 1) ≠ 0) then 1 else 0).

(** The number of links allocated before the cell of index [k]. *)
Fixpoint alloc_before k : nat :=
  match k with
  | 0 => 0
  | S j => alloc_before j + links_of_cell j
  end.

(** The links of the cell of index [k]. *)
Definition grid_links k : list (Constraint T) :=
  let W := clothWidth cs + 1 in
  (if decide (k mod W ≠ 0)
   then [new_Constraint cs (alloc_before k) k (k - 1)] else []) ++
  (if decide (k / W ≠ 0)
   then [new_Constraint cs
           (alloc_before k + if decide (k mod W ≠ 0) then 1 else 0) k (k - W)]
   else []).

(** The point of the cell of index [k]. *)
Definition grid_point k : Point T :=
  let W := clothWidth cs + 1 in
  let x0 := (startX + of_nat (k mod W) * spacing cs)%num in
  let y0 := (startY cs + of_nat (k / W) * spacing cs)%num in
  mkPoint x0 y0 x0 y0 n0 n0
    (if decide (k / W = 0) then Some x0 else None)
    (if decide (k / W = 0) then Some y0 else None)
    (grid_links k).

(** The number of links that end at the cell [k] among the links created
    by the cell [n]: its own links when [n] is [k], the link to its left
    when [n] is the right neighbour of [k], the link upwards when [n] is
    the cell below [k]. *)
Definition incident_from n k : nat :=
  (if decide (n = k) then links_of_cell k else 0) +
  (if decide (n = k + 1 ∧ n mod (clothWidth cs + 1) ≠ 0) then 1 else 0) +
  (if decide (n = k + (clothWidth cs + 1)) then 1 else 0).

(** The state of the loops after [k] cells. *)
Definition built k : list (Point T) * nat :=
  (grid_point <$> seq 0 k, alloc_before k).

(** ** The frame step *)

(** One pass of [this.points.forEach((p) => p.resolveConstraints())]. *)
Definition relax_pass s : list (Point T) :=
  foldl (λ s i, resolveConstraints canvas cs i s) s (seq 0 (length s)).

(** [this.points.forEach((p) => p.update(0.016))]. *)
Definition integrate m s : list (Point T) :=
  foldl (λ s i, update cs m timestep i s) s (seq 0 (length s)).

(** [update()] (lines 191-196). *)
Definition Cloth_update m s : list (Point T) :=
  let s := Nat.iter (physicsAccuracy cs) relax_pass s in
  integrate m s.

(** The state after the frames whose pointer states are [ms]. *)
Definition frames (ms : list (Mouse T)) s : list (Point T) :=
  foldl (λ s m, Cloth_update m s) s ms.

(** ** The constructor builds the lattice *)

(** The cell in column [gx] of row [gy] has index [gy * W + gx]. *)
Lemma cell_mod gy gx W : gx < W → (gy * W + gx) mod W = gx.
Proof.
  intros H. rewrite Nat.add_comm, Nat.Div0.mod_add. by apply Nat.mod_small.
Qed.

Lemma cell_div gy gx W : gx < W → (gy * W + gx) / W = gy.
Proof.
  intros H. rewrite Nat.add_comm, Nat.div_add by lia.
  rewrite Nat.div_small by done. lia.
Qed.

(** One iteration of the inner loop adds the next cell. *)
Lemma build_point_step gy gx :
  gx < clothWidth cs + 1 →
  build_point gy gx (built (gy * (clothWidth cs + 1) + gx)) =
  built (S (gy * (clothWidth cs + 1) + gx)).
Proof.
  intros Hgx. set (W := clothWidth cs + 1) in *. set (k := gy * W + gx).
  unfold built, build_point. rewrite seq_S, fmap_app. simpl.
  rewrite length_fmap, length_seq. unfold links_of_cell, grid_point, grid_links.
  fold W. fold k.
  assert (k mod W = gx) as -> by by apply cell_mod.
  assert (k / W = gy) as -> by by apply cell_div.
  assert (gy ≠ 0 → gx + (gy - 1) * W = k - W) as Hup.
  { unfold k. destruct gy; [done|]. intros _. simpl. lia. }
  destruct (decide (gx ≠ 0)), (decide (gy ≠ 0)), (decide (gy = 0));
    try lia; simpl; rewrite ?Hup by done;
    unfold attach, pin, new_Point, set_constraints; simpl;
    rewrite ?Nat.add_0_r, ?Nat.add_1_r; repeat f_equal; lia.
Qed.

(** The inner loop adds a row. *)
Lemma build_row_spec gy :
  build_row gy (built (gy * (clothWidth cs + 1))) =
  built (S gy * (clothWidth cs + 1)).
Proof.
  unfold build_row. set (W := clothWidth cs + 1).
  enough (∀ n, n ≤ W →
    foldl (λ st gx, build_point gy gx st) (built (gy * W)) (seq 0 n) =
    built (gy * W + n)) as H.
  { rewrite H by done. f_equal. lia. }
  induction n as [|n IH]; intros Hn.
  - simpl. f_equal. lia.
  - rewrite seq_S, foldl_snoc, IH by lia. simpl.
    rewrite build_point_step by (fold W; lia). f_equal. lia.
Qed.

(** The two loops build the lattice cell by cell. *)
Lemma new_Cloth_cells :
  new_Cloth = grid_point <$> seq 0 ((clothHeight cs + 1) * (clothWidth cs + 1)).
Proof.
  unfold new_Cloth. set (W := clothWidth cs + 1).
  enough (∀ n, foldl (λ st gy, build_row gy st) ([], 0) (seq 0 n) = built (n * W))
    as H by by rewrite H.
  induction n as [|n IH]; [done|].
  by rewrite seq_S, foldl_snoc, IH, build_row_spec.
Qed.

(** ** The constructed cloth *)

(** The number of points. *)
Lemma new_Cloth_length :
  length new_Cloth = (clothHeight cs + 1) * (clothWidth cs + 1).
Proof. by rewrite new_Cloth_cells, length_fmap, length_seq. Qed.

(** The point at a grid index. *)
Lemma new_Cloth_lookup k :
  k < (clothHeight cs + 1) * (clothWidth cs + 1) →
  new_Cloth !! k = Some (grid_point k).
Proof.
  intros Hk. rewrite new_Cloth_cells, list_lookup_fmap.
  by rewrite lookup_seq_lt.
Qed.

Lemma new_Cloth_lookup_Some k p :
  new_Cloth !! k = Some p →
  k < (clothHeight cs + 1) * (clothWidth cs + 1) ∧ p = grid_point k.
Proof.
  intros Hp. assert (k < (clothHeight cs + 1) * (clothWidth cs + 1)) as Hk.
  { rewrite <- new_Cloth_length. by eapply lookup_lt_Some. }
  rewrite new_Cloth_lookup in Hp by done. by simplify_eq.
Qed.

(** The identities of the cell [k] are the next [links_of_cell k] ones. *)
Lemma grid_links_cids k :
  cid <$> grid_links k = seq (alloc_before k) (links_of_cell k).
Proof.
  unfold grid_links, links_of_cell. repeat case_decide; simpl; try done.
  by rewrite Nat.add_1_r.
  by rewrite Nat.add_0_r.
Qed.

(** Identities are allocated consecutively from [0]. *)
Lemma grid_cids n : all_cids (grid_point <$> seq 0 n) = seq 0 (alloc_before n).
Proof.
  unfold all_cids. induction n as [|n IH]; [done|].
  rewrite seq_S, !fmap_app, concat_app, IH. simpl.
  by rewrite grid_links_cids, app_nil_r, <- seq_app.
Qed.

(** The end points of the links of a cell are the cell and an earlier
    cell. *)
Lemma grid_links_ends k c :
  c ∈ grid_links k → p1 c = k ∧ (k ≠ 0 → p2 c < k) ∧ len c = spacing cs.
Proof.
  unfold grid_links. intros Hc. apply elem_of_app in Hc.
  assert (k / (clothWidth cs + 1) ≠ 0 → clothWidth cs + 1 ≤ k) as Hrow.
  { intros H. destruct (decide (clothWidth cs + 1 ≤ k)); [done|].
    rewrite Nat.div_small in H by lia. done. }
  repeat case_decide; destruct Hc as [Hc|Hc];
    repeat (apply elem_of_cons in Hc as [->|Hc]);
    try (by apply elem_of_nil in Hc); simpl; (split; [done|]); (split; [lia|done]).
Qed.

(** The first cell has no link. *)
Lemma grid_links_first : grid_links 0 = [].
Proof.
  unfold grid_links. rewrite Nat.Div0.mod_0_l, Nat.Div0.div_0_l.
  by repeat case_decide.
Qed.

(** The constructed cloth is well formed: no link dangles, every link is
    stored by its first end point, identities are unique. *)
Lemma new_Cloth_wf : wf new_Cloth.
Proof.
  split.
  - intros i p c [Hi ->]%new_Cloth_lookup_Some Hc. simpl in Hc.
    by apply grid_links_ends in Hc as [? _].
  - intros i p c [Hi ->]%new_Cloth_lookup_Some Hc. simpl in Hc.
    rewrite new_Cloth_length. destruct (decide (i = 0)) as [->|Hne].
    + rewrite grid_links_first in Hc. by apply elem_of_nil in Hc.
    + apply grid_links_ends in Hc as (_ & Hlt & _). specialize (Hlt Hne). lia.
  - rewrite new_Cloth_cells, grid_cids. apply NoDup_seq.
Qed.

(** C4: the constructor's loops build the reference lattice: the array
    has [(clothHeight + 1) * (clothWidth + 1)] points and holds
    [grid_point k] at every index [k], row-major. *)
Theorem new_Cloth_spec :
  length new_Cloth = (clothHeight cs + 1) * (clothWidth cs + 1) ∧
  ∀ gy gx, gy ≤ clothHeight cs → gx ≤ clothWidth cs →
    new_Cloth !! (gy * (clothWidth cs + 1) + gx) =
    Some (grid_point (gy * (clothWidth cs + 1) + gx)).
Proof.
  split; [apply new_Cloth_length|]. intros gy gx Hy Hx.
  apply new_Cloth_lookup. nia.
Qed.

(** The first row is pinned where it is created, and no other point
    is pinned. *)
Theorem new_Cloth_pins k p :
  new_Cloth !! k = Some p →
  if decide (k < clothWidth cs + 1)
  then pinX p = Some (x p) ∧ pinY p = Some (y p)
  else pinX p = None ∧ pinY p = None.
Proof.
  intros [Hk ->]%new_Cloth_lookup_Some. simpl.
  destruct (decide (k < clothWidth cs + 1)) as [Hlt|Hge].
  - rewrite Nat.div_small by done. by rewrite !decide_True.
  - assert (k / (clothWidth cs + 1) ≠ 0).
    { intros H%Nat.div_small_iff; lia. }
    by rewrite !decide_False.
Qed.

(** Every point of the constructed cloth is at rest. *)
Lemma new_Cloth_at_rest k p :
  new_Cloth !! k = Some p → px p = x p ∧ py p = y p ∧ vx p = n0 ∧ vy p = n0.
Proof. by intros [Hk ->]%new_Cloth_lookup_Some. Qed.

(** C39: the links a point stores are the ones it created: at most two, whatever
    the number of links that end at it. *)
Theorem new_Cloth_own_links k p :
  new_Cloth !! k = Some p → length (constraints p) = links_of_cell k.
Proof.
  intros [Hk ->]%new_Cloth_lookup_Some. simpl.
  by rewrite <- (length_fmap cid), grid_links_cids, length_seq.
Qed.

(** The links allocated before the cell in column [n] of row [gy]. *)
Lemma alloc_before_cell gy n :
  n ≤ clothWidth cs + 1 →
  alloc_before (gy * (clothWidth cs + 1) + n) =
  alloc_before (gy * (clothWidth cs + 1)) + (n - 1) +
  (if decide (gy ≠ 0) then n else 0).
Proof.
  induction n as [|n IH]; intros Hn.
  - rewrite Nat.add_0_r. case_decide; lia.
  - rewrite Nat.add_succ_r. simpl. rewrite IH by lia. unfold links_of_cell.
    rewrite cell_mod, cell_div by lia. repeat case_decide; lia.
Qed.

(** The links allocated before row [gy]: [clothWidth] to the left in every
    row, and [clothWidth + 1] upwards in every row but the first. *)
Lemma alloc_before_rows gy :
  alloc_before (gy * (clothWidth cs + 1)) =
  gy * clothWidth cs + (gy - 1) * (clothWidth cs + 1).
Proof.
  induction gy as [|gy IH]; [done|].
  replace (S gy * (clothWidth cs + 1))
    with (gy * (clothWidth cs + 1) + (clothWidth cs + 1)) by lia.
  rewrite alloc_before_cell, IH by done.
  destruct gy as [|g]; [simpl; lia|]. rewrite decide_True by done.
  replace (S (S g) - 1) with (S g) by lia. replace (S g - 1) with g by lia.
  lia.
Qed.

(** The constructed cloth has [clothWidth * (clothHeight + 1)]
    horizontal and [(clothWidth + 1) * clothHeight] vertical links. *)
Theorem new_Cloth_link_count :
  length (all_links new_Cloth) =
  clothWidth cs * (clothHeight cs + 1) + (clothWidth cs + 1) * clothHeight cs.
Proof.
  rewrite <- (length_fmap cid), <- all_cids_links, new_Cloth_cells, grid_cids.
  rewrite length_seq, alloc_before_rows. replace (clothHeight cs + 1 - 1)
    with (clothHeight cs) by lia. lia.
Qed.

(** ** Incident links *)

(** The links of the cell [n] that end at [k]. *)
Lemma grid_links_incident n k :
  length (filter (λ c, p1 c = k ∨ p2 c = k) (grid_links n)) = incident_from n k.
Proof.
  unfold incident_from, grid_links, links_of_cell. set (W := clothWidth cs + 1).
  assert (n / W ≠ 0 ↔ W ≤ n) as Hrow.
  { split; [intros H; destruct (decide (W ≤ n)); [done|];
            rewrite Nat.div_small in H by lia; done|].
    intros H E. apply Nat.div_small_iff in E; lia. }
  assert (n mod W ≠ 0 → n ≠ 0) as Hcol.
  { intros H ->. by rewrite Nat.Div0.mod_0_l in H. }
  rewrite filter_app, length_app.
  destruct (decide (n mod W ≠ 0)) as [Hm|Hm], (decide (n / W ≠ 0)) as [Hd|Hd];
    rewrite ?filter_cons, ?filter_nil; simpl;
    repeat case_decide; simpl; try lia;
    repeat match goal with H : _ ∨ _ |- _ => destruct H end; subst; lia.
Qed.

(** The links that end at [k] among those of the first [n] cells. *)
Lemma built_degree n k :
  length (filter (λ c, p1 c = k ∨ p2 c = k) (concat (grid_links <$> seq 0 n))) =
  (if decide (k < n) then links_of_cell k else 0) +
  (if decide (k + 1 < n ∧ (k + 1) mod (clothWidth cs + 1) ≠ 0) then 1 else 0) +
  (if decide (k + (clothWidth cs + 1) < n) then 1 else 0).
Proof.
  assert (∀ j, j mod (clothWidth cs + 1) ≠ 0 → 1 < clothWidth cs + 1) as Hmod.
  { intros j Hj. destruct (decide (clothWidth cs = 0)) as [E|]; [|lia].
    by rewrite E, Nat.mod_1_r in Hj. }
  induction n as [|n IH]; [simpl; repeat case_decide; lia|].
  rewrite seq_S, fmap_app, concat_app, filter_app, length_app, IH. simpl.
  rewrite app_nil_r, grid_links_incident. unfold incident_from.
  destruct (decide (n = k + 1)) as [->|Hn];
    repeat case_decide; try lia;
    repeat match goal with H : _ ∧ _ |- _ => destruct H end; subst; try lia;
    try match goal with H : _ mod _ ≠ 0 |- _ => pose proof (Hmod _ H) end;
    try lia; exfalso; intuition lia.
Qed.

(** C38: the number of links that end at a point of the constructed cloth:
    the links it created, to its left and upwards, and the links its
    right and lower neighbours created. *)
Theorem new_Cloth_degree k :
  degree (new_Cloth) k =
  (if decide (k < (clothHeight cs + 1) * (clothWidth cs + 1))
   then links_of_cell k else 0) +
  (if decide (k + 1 < (clothHeight cs + 1) * (clothWidth cs + 1) ∧
              (k + 1) mod (clothWidth cs + 1) ≠ 0) then 1 else 0) +
  (if decide (k + (clothWidth cs + 1) < (clothHeight cs + 1) * (clothWidth cs + 1))
   then 1 else 0).
Proof.
  unfold degree, all_links. rewrite new_Cloth_cells, <- list_fmap_compose.
  apply built_degree.
Qed.

(** A point inside the lattice has four links, the first corner two. *)
Lemma new_Cloth_degree_inside gy gx :
  0 < gy < clothHeight cs → 0 < gx < clothWidth cs →
  degree (new_Cloth) (gy * (clothWidth cs + 1) + gx) = 4.
Proof.
  intros Hy Hx. unfold degree, all_links.
  rewrite new_Cloth_cells, <- list_fmap_compose, built_degree. unfold links_of_cell.
  replace (gy * (clothWidth cs + 1) + gx + 1)
    with (gy * (clothWidth cs + 1) + (gx + 1)) by lia.
  rewrite !cell_mod, cell_div by lia.
  repeat case_decide; try lia; exfalso; intuition nia.
Qed.
(** ** The frame step keeps the lattice *)

#[export] Instance relax_pass_evolving : Evolving relax_pass.
Proof.
  intros s. unfold relax_pass.
  apply (foldl_evolving (λ s i, resolveConstraints canvas cs i s)); apply _.
Qed.

#[export] Instance integrate_evolving m : Evolving (integrate m).
Proof.
  intros s. unfold integrate.
  apply (foldl_evolving (λ s i, update cs m _ i s)); apply _.
Qed.

(** [Cloth.update] keeps the array length and the pins and adds no link. *)
#[export] Instance Cloth_update_evolving m : Evolving (Cloth_update m).
Proof.
  intros s. unfold Cloth_update. etrans; [|apply integrate_evolving].
  apply iter_evolving, _.
Qed.

#[export] Instance frames_evolving ms : Evolving (frames ms).
Proof.
  intros s. unfold frames. apply (foldl_evolving (λ s m, Cloth_update m s)), _.
Qed.

(** C27: unless the secondary button is held, the integration pass is a
    map over the array: every point is advanced from its own fields only,
    so the order of the pass is irrelevant. *)
Theorem integrate_map m s :
  mouseDown m = false ∨ mouseButton m ≠ 2%Z →
  integrate m s =
    (λ p, verlet (timestep * timestep)%num
            (addForce n0 (gravity cs) (dragged cs m p))) <$> s.
Proof.
  intros Hm. unfold integrate. rewrite <- foldl_alter_seq.
  apply foldl_ext_all. intros s' i. by apply update_pointwise.
Qed.

(** With no button held the integration pass is gravity and the Verlet
    step of every point. *)
Lemma integrate_idle m s :
  mouseDown m = false →
  integrate m s =
    (λ p, verlet (timestep * timestep)%num (addForce n0 (gravity cs) p)) <$> s.
Proof.
  intros Hm. unfold integrate. rewrite <- foldl_alter_seq.
  apply foldl_ext_all. intros s' i. rewrite update_pointwise by auto.
  unfold dragged. by rewrite Hm.
Qed.

(** The first row of the constructed cloth is on its pins: the part of a
    relaxation pass that visits it changes nothing. *)
Lemma relax_first_row :
  foldl (λ s i, resolveConstraints canvas cs i s) new_Cloth (seq 0 (clothWidth cs + 1))
  = new_Cloth.
Proof.
  apply foldl_fixed. intros i [_ Hi]%elem_of_seq.
  assert (new_Cloth !! i = Some (grid_point i)) as Hp by (apply new_Cloth_lookup; nia).
  pose proof (new_Cloth_pins i _ Hp) as Hpin. rewrite decide_True in Hpin by lia.
  destruct Hpin. by apply (resolveConstraints_on_pin canvas cs i _ (grid_point i)).
Qed.

(** The first free point, below the first pinned one, stores one link: the
    link between the two. *)
Lemma grid_links_first_free :
  grid_links (clothWidth cs + 1) =
  [new_Constraint cs (alloc_before (clothWidth cs + 1)) (clothWidth cs + 1) 0].
Proof.
  unfold grid_links. rewrite Nat.Div0.mod_same, Nat.div_same by lia.
  destruct (decide (0 ≠ 0)), (decide (1 ≠ 0)); try lia; simpl.
  by rewrite Nat.add_0_r, Nat.sub_diag.
Qed.

(** C16: well-formedness is the type of the store: the constructor builds a
    well-formed store and every operation of the three classes keeps it
    well formed, so no operation ever follows a dangling reference. *)
Theorem operations_preserve_wf m c i delta ms s :
  wf s →
  wf new_Cloth ∧ wf (resolve cs c s) ∧ wf (resolveConstraints canvas cs i s) ∧
  wf (update cs m delta i s) ∧ wf (relax_pass s) ∧ wf (integrate m s) ∧
  wf (Cloth_update m s) ∧ wf (frames ms s).
Proof.
  intros H. split; [apply new_Cloth_wf|].
  assert (∀ f, Evolving f → wf (f s)) as Hev.
  { intros f Hf. eapply evolves_wf; [exact H|apply Hf]. }
  repeat (split; [apply Hev; apply _|]). apply Hev, _.
Qed.

(** Whatever the pointer does, after any number of frames the cloth
    is well formed, has its initial size, and holds no link that the
    constructor did not create. *)
Theorem frames_invariant ms :
  wf (frames ms new_Cloth) ∧
  length (frames ms new_Cloth) = (clothHeight cs + 1) * (clothWidth cs + 1) ∧
  all_links (frames ms new_Cloth) `sublist_of` all_links new_Cloth.
Proof.
  pose proof (frames_evolving ms new_Cloth) as H. split; [|split].
  - eapply evolves_wf; [apply new_Cloth_wf|done].
  - by rewrite (evolves_length _ _ H), new_Cloth_length.
  - by apply evolves_links.
Qed.

(** C20: pins are permanent: after any number of frames the first row is
    still pinned where it was created and no other point is pinned. *)
Theorem frames_pins ms k q :
  frames ms new_Cloth !! k = Some q →
  pinX q = pinX (grid_point k) ∧ pinY q = pinY (grid_point k).
Proof.
  intros Hq. destruct (evolves_lookup _ _ _ _ (frames_evolving ms new_Cloth) Hq)
    as (p & [_ ->]%new_Cloth_lookup_Some & Hx & Hy & _). done.
Qed.

(** A link that is gone stays gone. *)
Lemma frames_torn_forever ms s c :
  c ∉ all_links s → c ∉ all_links (frames ms s).
Proof. apply evolves_absent, frames_evolving. Qed.

(** C30: tearing is irreversible: once [resolve] has torn a link of a
    well-formed store, no later frame holds that link again, whatever the
    pointer does. *)
Theorem torn_link_stays_torn ms s c :
  wf s → c ∈ all_links s → tears cs c s = true →
  c ∉ all_links (frames ms (resolve cs c s)).
Proof. intros Hwf Hc Ht. by apply frames_torn_forever, resolve_tear_absent. Qed.

End cloth.

(** ** Exact arithmetic: the cloth is built at rest *)

Section exact.
Context (canvas : option (Canvas R)) (cs : Settings R).
Implicit Types (c : Constraint R) (s : list (Point R)) (p : Point R).
Implicit Types (m : Mouse R) (i k : nat).
Local Open Scope R_scope.

(** The separation of two points with a given offset. *)
Lemma separation_offset (a b : Point R) dx dy :
  x a - x b = dx → y a - y b = dy → separation a b = R_sqrt.sqrt (dx * dx + dy * dy).
Proof. by intros <- <-. Qed.

(** A cell is [spacing] to the right of its left neighbour. *)
Lemma grid_point_left k :
  (k mod (clothWidth cs + 1) ≠ 0)%nat →
  x (grid_point canvas cs k) - x (grid_point canvas cs (k - 1)) = spacing cs ∧
  y (grid_point canvas cs k) - y (grid_point canvas cs (k - 1)) = 0.
Proof.
  intros Hk. destruct (left_cell k (clothWidth cs + 1)) as [Hm Hd]; [lia|done|].
  unfold grid_point; cbn [x y]. rewrite Hm, Hd, of_nat_pred by done. simpl. lra.
Qed.

(** A cell is [spacing] below its upper neighbour. *)
Lemma grid_point_up k :
  (k / (clothWidth cs + 1) ≠ 0)%nat →
  x (grid_point canvas cs k) - x (grid_point canvas cs (k - (clothWidth cs + 1))) = 0 ∧
  y (grid_point canvas cs k) - y (grid_point canvas cs (k - (clothWidth cs + 1)))
    = spacing cs.
Proof.
  intros Hk. destruct (up_cell k (clothWidth cs + 1)) as [Hm Hd]; [lia|done|].
  unfold grid_point; cbn [x y]. rewrite Hm, Hd, of_nat_pred by done. simpl. lra.
Qed.

(** The links of a cell have the length of the gap they span. *)
Lemma grid_links_at_rest k c :
  0 <= spacing cs → c ∈ grid_links cs k →
  separation (grid_point canvas cs k) (grid_point canvas cs (p2 c)) = len c.
Proof.
  intros Hsp Hc. unfold grid_links in Hc. apply elem_of_app in Hc.
  destruct (sqrt_sumsq_axis (spacing cs) Hsp) as [Hh Hv].
  destruct Hc as [Hc|Hc]; case_decide; try (by apply elem_of_nil in Hc);
    apply list_elem_of_singleton in Hc as ->; cbn [p2 len new_Constraint].
  - destruct (grid_point_left k) as [Hx Hy]; [done|].
    by rewrite (separation_offset _ _ _ _ Hx Hy).
  - destruct (grid_point_up k) as [Hx Hy]; [done|].
    by rewrite (separation_offset _ _ _ _ Hx Hy).
Qed.

(** Every link of the constructed cloth joins two points of the array
    that are exactly its rest length apart. *)
Lemma new_Cloth_link_at_rest i p c :
  0 <= spacing cs → new_Cloth canvas cs !! i = Some p → c ∈ constraints p →
  ∃ b, new_Cloth canvas cs !! p1 c = Some p ∧ new_Cloth canvas cs !! p2 c = Some b ∧
       separation p b = len c ∧ len c = spacing cs.
Proof.
  intros Hsp Hp Hc. pose proof Hp as [Hi ->]%new_Cloth_lookup_Some. simpl in Hc.
  destruct (grid_links_ends cs i c Hc) as (E1 & Hlt & El).
  assert (i ≠ 0%nat) as Hne.
  { intros ->. rewrite grid_links_first in Hc. by apply elem_of_nil in Hc. }
  exists (grid_point canvas cs (p2 c)). rewrite E1.
  split; [done|]. split; [apply new_Cloth_lookup; specialize (Hlt Hne); lia|].
  split; [by apply grid_links_at_rest|done].
Qed.

(** [resolve] leaves the constructed cloth as it is. *)
Lemma new_Cloth_resolve_rest i p c :
  0 < spacing cs <= tearDistance cs →
  new_Cloth canvas cs !! i = Some p → c ∈ constraints p →
  resolve cs c (new_Cloth canvas cs) = new_Cloth canvas cs.
Proof.
  intros [Hpos Hle] Hp Hc.
  destruct (new_Cloth_link_at_rest i p c) as (b & Ha & Hb & Hsep & Hlen);
    [lra|done..|].
  apply (resolve_no_correction cs c _ p b); [done..| |apply correction_at_rest; [done|lra]].
  unfold tears. rewrite Ha, Hb. apply Rltb_false. rewrite Hsep, Hlen. lra.
Qed.

(** A pinned cell is on its pin. *)
Lemma grid_point_on_pin k :
  pinned (grid_point canvas cs k) = true →
  pinX (grid_point canvas cs k) = Some (x (grid_point canvas cs k)) ∧
  pinY (grid_point canvas cs k) = Some (y (grid_point canvas cs k)).
Proof. unfold pinned, grid_point; cbn [pinX pinY x y]. by case_decide. Qed.

(** The relaxation passes leave the constructed cloth as it is, provided
    its links are not longer than [tearDistance] and its free points are
    inside the canvas. *)
Lemma new_Cloth_relaxed n :
  0 < spacing cs <= tearDistance cs →
  (∀ k p, new_Cloth canvas cs !! k = Some p → pinned p = false →
     1 <= x p <= canvas_width canvas - 1 ∧ 1 <= y p <= canvas_height canvas - 1) →
  Nat.iter n (relax_pass canvas cs) (new_Cloth canvas cs) = new_Cloth canvas cs.
Proof.
  intros Hsp Hin. apply iter_fixed, foldl_fixed.
  intros i [p Hp]%elem_of_seq%proj2%lookup_lt_is_Some_2.
  apply (resolveConstraints_at_rest cs canvas i _ p); [done| |].
  - intros Hpin. apply new_Cloth_lookup_Some in Hp as [_ ->].
    by apply grid_point_on_pin.
  - intros Hfree. split; [|by apply (Hin i)].
    intros c Hc. by apply (new_Cloth_resolve_rest i p).
Qed.

(** C17: without gravity and with the pointer up, the constructed cloth
    is an equilibrium of the frame step, provided its links are not longer
    than [tearDistance] and its free points are inside the canvas. *)
Theorem rest_is_equilibrium m :
  gravity cs = 0 → 0 < spacing cs <= tearDistance cs → mouseDown m = false →
  (∀ k p, new_Cloth canvas cs !! k = Some p → pinned p = false →
     1 <= x p <= canvas_width canvas - 1 ∧ 1 <= y p <= canvas_height canvas - 1) →
  Cloth_update canvas cs m (new_Cloth canvas cs) = new_Cloth canvas cs.
Proof.
  intros Hg Hsp Hm Hin. unfold Cloth_update. rewrite new_Cloth_relaxed by done.
  apply foldl_fixed. intros i [p Hp]%elem_of_seq%proj2%lookup_lt_is_Some_2.
  destruct (new_Cloth_at_rest canvas cs i p Hp) as (? & ? & ? & ?).
  by apply (update_at_rest cs m timestep i _ p).
Qed.

(** C19: in exact arithmetic, the first frame of a cloth as constructed,
    with no button held: the relaxation changes nothing and the
    integration then moves every point, pinned or not, down by
    [gravity / 2 * 0.016²].  The frame is drawn in that state, so a pinned
    point is drawn below its pin by that much. *)
Theorem first_frame_moves_pinned m k :
  0 < spacing cs <= tearDistance cs → mouseDown m = false →
  (∀ k p, new_Cloth canvas cs !! k = Some p → pinned p = false →
     1 <= x p <= canvas_width canvas - 1 ∧ 1 <= y p <= canvas_height canvas - 1) →
  (k < (clothHeight cs + 1) * (clothWidth cs + 1))%nat →
  ∃ q, Cloth_update canvas cs m (new_Cloth canvas cs) !! k = Some q ∧
       x q = x (grid_point canvas cs k) ∧
       y q = y (grid_point canvas cs k) + gravity cs / 2 * (timestep * timestep) ∧
       ((k <= clothWidth cs)%nat →
        pinX q = Some (x q) ∧
        pinY q = Some (y q - gravity cs / 2 * (timestep * timestep))).
Proof.
  intros Hsp Hm Hin Hk. unfold Cloth_update.
  rewrite new_Cloth_relaxed, integrate_idle, list_lookup_fmap, new_Cloth_lookup by done.
  eexists. split; [done|].
  cbn [x y pinX pinY verlet addForce grid_point set_vy set_vx set_y set_x
       set_py set_px px py vx vy].
  set (x0 := (startX canvas cs + _)%num). set (y0 := (startY cs + _)%num).
  unfold damping, timestep, dec, n0, n2; simpl.
  split; [lra|]. split; [lra|]. intros Hrow.
  rewrite Nat.div_small, !decide_True by (done || lia). split; f_equal; lra.
Qed.

(** ** Exact arithmetic: free fall *)

(** The acceleration term of one frame: [gravity / 2 * 0.016²]. *)
Definition frame_acceleration : R := gravity cs / 2 * (timestep * timestep).

(** The displacement of a falling point in its [n]-th frame: each frame
    keeps 0.99 of the last displacement and adds the acceleration term. *)
Fixpoint fall_step (n : nat) : R :=
  match n with
  | O => 0
  | S n => 99 / 100 * fall_step n + frame_acceleration
  end.

(** The height of a point that started at rest at [y0], after [n]
    frames. *)
Fixpoint fall (y0 : R) (n : nat) : R :=
  match n with
  | O => y0
  | S n => fall y0 n + fall_step (S n)
  end.

(** A lone point, free and without links, [n] frames into its fall. *)
Definition falling (x0 y0 : R) (n : nat) : Point R :=
  mkPoint x0 (fall y0 n) x0 (fall y0 (n - 1)) 0 0 None None [].

(** The displacement in closed form: it approaches the terminal value
    [100 * frame_acceleration] geometrically. *)
Lemma fall_step_closed n :
  fall_step n = 100 * frame_acceleration * (1 - (99 / 100) ^ n).
Proof. induction n as [|n IH]; simpl; [lra|]. rewrite IH. lra. Qed.

Lemma fall_pred y0 n : fall y0 n - fall y0 (n - 1) = fall_step n.
Proof.
  destruct n as [|n]; simpl; [lra|]. replace (n - 0)%nat with n by lia. lra.
Qed.

(** One frame of the fall, while the point is inside the canvas. *)
Lemma falling_frame m x0 y0 n :
  mouseDown m = false →
  1 <= x0 <= canvas_width canvas - 1 → 1 <= fall y0 n <= canvas_height canvas - 1 →
  Cloth_update canvas cs m [falling x0 y0 n] = [falling x0 y0 (S n)].
Proof.
  intros Hm Hx Hy. unfold Cloth_update. rewrite iter_fixed.
  - unfold integrate. cbn [length seq foldl].
    rewrite (update_idle_eq cs m timestep 0 _ (falling x0 y0 n)) by done.
    cbn [insert list_insert]. f_equal.
    pose proof (fall_pred y0 n) as Hd.
    unfold falling in *. cbv [verlet addForce set_vy set_vx set_y set_x set_py set_px
      x y px py vx vy pinX pinY constraints].
    replace (S n - 1)%nat with n by lia.
    f_equal; cbn [fall fall_step]; unfold frame_acceleration, n0, n2, damping, dec;
      simpl; lra.
  - unfold relax_pass. cbn [length seq foldl].
    apply (resolveConstraints_at_rest cs canvas 0 _ (falling x0 y0 n)); [done..|].
    intros _. split; [|done]. intros c Hc. by apply elem_of_nil in Hc.
Qed.

(** C8: a lone free point dropped at rest falls by the damped recurrence
    for as long as it stays inside the canvas. *)
Theorem free_fall m x0 y0 n :
  mouseDown m = false →
  1 <= x0 <= canvas_width canvas - 1 →
  (∀ k, (k < n)%nat → 1 <= fall y0 k <= canvas_height canvas - 1) →
  frames canvas cs (replicate n m) [falling x0 y0 0] = [falling x0 y0 n].
Proof.
  intros Hm Hx Hy. induction n as [|n IH]; [done|].
  rewrite replicate_S_end. unfold frames in *. rewrite foldl_snoc, IH by auto.
  apply falling_frame; auto.
Qed.

(** The displacement per frame never exceeds the terminal value. *)
Lemma fall_step_bound n :
  0 <= gravity cs → 0 <= fall_step n <= 100 * frame_acceleration.
Proof.
  intros Hg. rewrite fall_step_closed.
  assert (0 <= frame_acceleration) as Ha.
  { unfold frame_acceleration, timestep, dec; simpl. nra. }
  assert (0 <= (99 / 100) ^ n <= 1) as Hp.
  { split; [apply pow_le; lra|]. rewrite <- (pow1 n). apply pow_incr. lra. }
  nra.
Qed.

End exact.

(** ** Doubles: NaN *)

Section doubles.
Context (canvas : option (Canvas float)) (cs : Settings float).
Implicit Types (s : list (Point float)) (p : Point float) (m : Mouse float).

(** No pass of the frame step repairs a NaN. *)
#[export] Instance relax_pass_nan_keeping : NanKeeping (relax_pass canvas cs).
Proof.
  intros ax i s. unfold relax_pass. apply (foldl_invariant (lost_at ax i)).
  intros s' j. apply resolveConstraints_nan_keeping.
Qed.

#[export] Instance integrate_nan_keeping m : NanKeeping (integrate cs m).
Proof.
  intros ax i s. unfold integrate. apply (foldl_invariant (lost_at ax i)).
  intros s' j. apply update_nan_keeping.
Qed.

#[export] Instance Cloth_update_nan_keeping m : NanKeeping (Cloth_update canvas cs m).
Proof.
  intros ax i s H. unfold Cloth_update. apply integrate_nan_keeping.
  apply (iter_invariant (lost_at ax i)); [|done]. intros s'. apply relax_pass_nan_keeping.
Qed.

#[export] Instance frames_nan_keeping ms : NanKeeping (frames canvas cs ms).
Proof.
  intros ax i s. unfold frames. apply (foldl_invariant (lost_at ax i)).
  intros s' m. apply Cloth_update_nan_keeping.
Qed.

(** C22: on doubles, a NaN coordinate of a free point is never repaired:
    whatever the pointer does, after any number of frames that coordinate
    of that point is still NaN.  Neither the relaxation, nor the clamp of
    [resolveConstraints], nor the Verlet step tests for NaN. *)
Theorem nan_persists ax ms k s p :
  s !! k = Some p → pinned p = false → is_nan (coord ax p) = true →
  ∃ q, frames canvas cs ms s !! k = Some q ∧ is_nan (coord ax q) = true.
Proof.
  intros Hp Hfree Hnan.
  destruct (frames_nan_keeping ms ax k s) as (q & Hq & _ & Hn); [by exists p|].
  by exists q.
Qed.

(** With a spacing of zero the first free point, the one below the first
    pinned point, is built on top of it: relaxing it loses it. *)
Lemma first_free_lost ax :
  spacing cs = 0%float → 1 ≤ clothHeight cs →
  PrimFloat.ltb (tearDistance cs) 0 = false →
  lost_at ax (clothWidth cs + 1)
    (resolveConstraints canvas cs (clothWidth cs + 1) (new_Cloth canvas cs)).
Proof.
  intros Hsp Hh Ht. set (W := clothWidth cs + 1).
  assert (new_Cloth canvas cs !! W = Some (grid_point canvas cs W)) as Hp
    by (apply new_Cloth_lookup; nia).
  assert (new_Cloth canvas cs !! 0 = Some (grid_point canvas cs 0)) as H0
    by (apply new_Cloth_lookup; nia).
  assert (pinned (grid_point canvas cs W) = false) as Hfree.
  { pose proof (new_Cloth_pins canvas cs W _ Hp) as H.
    rewrite decide_False in H by (unfold W; lia). unfold pinned. by destruct H as [-> _]. }
  rewrite (resolveConstraints_free_eq canvas cs W _ _ Hp Hfree).
  do 2 (apply lost_alter; [solve_lost|]).
  cbn [constraints grid_point]. unfold W. rewrite grid_links_first_free. cbn [foldl].
  set (c := new_Constraint cs _ _ 0).
  change (lost_at ax (p1 c) (resolve cs c (new_Cloth canvas cs))).
  apply (resolve_coincident_lost cs ax c _ (grid_point canvas cs (clothWidth cs + 1))
           (grid_point canvas cs 0)); try done.
  - cbn; lia.
  - cbn [x grid_point]. by rewrite Nat.Div0.mod_same, Nat.Div0.mod_0_l.
  - cbn [y grid_point]. rewrite Nat.div_same, Nat.Div0.div_0_l, Hsp by lia. done.
Qed.

(** The first relaxation pass of such a cloth. *)
Lemma first_pass_lost ax :
  spacing cs = 0%float → 1 ≤ clothHeight cs →
  PrimFloat.ltb (tearDistance cs) 0 = false →
  lost_at ax (clothWidth cs + 1) (relax_pass canvas cs (new_Cloth canvas cs)).
Proof.
  intros Hsp Hh Ht. unfold relax_pass. rewrite new_Cloth_length.
  replace ((clothHeight cs + 1) * (clothWidth cs + 1))
    with ((clothWidth cs + 1) + S (clothHeight cs * (clothWidth cs + 1) - 1)) by nia.
  rewrite seq_app, foldl_app, relax_first_row. cbn [seq foldl].
  apply (foldl_invariant (lost_at ax (clothWidth cs + 1))); [|by apply first_free_lost].
  intros s' j. apply resolveConstraints_nan_keeping.
Qed.

(** C24: on doubles, a spacing of zero is accepted and loses the cloth:
    whatever its size (one row of links at least), the canvas and the
    pointer, from the first frame on the first free point of the cloth is
    at NaN in both coordinates, for ever. *)
Theorem zero_spacing_nan m ms :
  spacing cs = 0%float → 1 ≤ clothHeight cs → 1 ≤ physicsAccuracy cs →
  PrimFloat.ltb (tearDistance cs) 0 = false →
  ∃ q, frames canvas cs (m :: ms) (new_Cloth canvas cs) !! (clothWidth cs + 1) = Some q ∧
       is_nan (x q) = true ∧ is_nan (y q) = true.
Proof.
  intros Hsp Hh Ha Ht.
  assert (∀ ax, lost_at ax (clothWidth cs + 1)
                  (frames canvas cs (m :: ms) (new_Cloth canvas cs))) as H.
  { intros ax. apply (frames_nan_keeping ms), integrate_nan_keeping.
    destruct (physicsAccuracy cs) as [|n]; [lia|]. rewrite Nat.iter_succ_r.
    apply (iter_invariant (lost_at ax (clothWidth cs + 1)));
      [intros s'; apply relax_pass_nan_keeping|by apply first_pass_lost]. }
  destruct (H AxisX) as (q & Hq & _ & Hx), (H AxisY) as (q' & Hq' & _ & Hy).
  simplify_eq. by exists q.
Qed.

End doubles.

(** ** Concrete runs *)

Section floating.
Local Open Scope string_scope.
#[local] Abbreviation cs := (small 2 2 : Settings float).
#[local] Abbreviation cloth := (new_Cloth canvas200 cs).

(** The grid of the specification's example: nine points, spaced by 12 and
    centred in a canvas 200 wide, starting at [y = 10]. *)
Example new_Cloth_2x2_positions :
  (λ p, (x p, y p)) <$> cloth =
  [(88, 10); (100, 10); (112, 10);
   (88, 22); (100, 22); (112, 22);
   (88, 34); (100, 34); (112, 34)]%float.
Proof. by vm_compute. Qed.

(** Three points are pinned, the first row. *)
Example new_Cloth_2x2_pinned :
  pinned <$> cloth = [true; true; true; false; false; false; false; false; false].
Proof. by vm_compute. Qed.

(** Corners have two incident links, edges three, the centre four; but a
    point stores only the links it created, two at most. *)
Example new_Cloth_2x2_degrees :
  degree cloth <$> seq 0 9 = [2; 3; 2; 3; 4; 3; 2; 3; 2] ∧
  (λ p, length (constraints p)) <$> cloth = [0; 1; 1; 1; 2; 2; 1; 2; 2].
Proof. by vm_compute. Qed.

(** The lattice for [clothWidth = 2], [clothHeight = 2] and
    [spacing = 10]: nine points, the three of the first row pinned, two
    links at every corner, three at every edge and four at the centre. *)
Example new_Cloth_2x2_grid :
  let s := new_Cloth canvas200
             (clothSettings (mkProps 200 200 2%nat 2%nat 10 1200 30 15 60 "transparent" "#888")%float) in
  length s = 9 ∧
  pinned <$> s = [true; true; true; false; false; false; false; false; false] ∧
  degree s <$> seq 0 9 = [2; 3; 2; 3; 4; 3; 2; 3; 2] ∧
  (λ p, (x p, y p)) <$> s =
    [(90, 10); (100, 10); (110, 10);
     (90, 20); (100, 20); (110, 20);
     (90, 30); (100, 30); (110, 30)]%float.
Proof. by vm_compute. Qed.

Lemma new_Cloth_pins_witness :
  pinX (grid_point canvas200 cs 0) = Some (x (grid_point canvas200 cs 0)) ∧
  pinY (grid_point canvas200 cs 0) = Some (y (grid_point canvas200 cs 0)).
Proof. by apply (new_Cloth_pins canvas200 cs 0 (grid_point canvas200 cs 0)). Defined.

(** The centre point stores two links although four end at it. *)
Lemma new_Cloth_own_links_witness :
  length (constraints (grid_point canvas200 cs 4)) = links_of_cell cs 4.
Proof. by apply (new_Cloth_own_links canvas200 cs 4 (grid_point canvas200 cs 4)). Defined.

(** The operations on the 2 by 2 cloth as built, for its centre point and
    the link to its left. *)
Lemma operations_preserve_wf_witness :
  let c := mkConstraint 5 4 3 12%float in
  wf (new_Cloth canvas200 cs) ∧ wf (resolve cs c cloth) ∧
  wf (resolveConstraints canvas200 cs 4 cloth) ∧
  wf (update cs (pointer 100 22 2) timestep 4 cloth) ∧
  wf (relax_pass canvas200 cs cloth) ∧ wf (integrate cs (pointer 100 22 2) cloth) ∧
  wf (Cloth_update canvas200 cs (pointer 100 22 2) cloth) ∧
  wf (frames canvas200 cs [idle; idle] cloth).
Proof. intros c. apply operations_preserve_wf, new_Cloth_wf. Defined.

Lemma frames_pins_witness :
  ∃ q, frames canvas200 cs [idle; pointer 100 22 0] cloth !! 4%nat = Some q ∧
       pinX q = None ∧ pinY q = None.
Proof.
  destruct (frames canvas200 cs [idle; pointer 100 22 0] cloth !! 4%nat)
    as [q|] eqn:E; [|by vm_compute in E].
  exists q. split; [done|].
  exact (frames_pins canvas200 cs [idle; pointer 100 22 0] 4 q E).
Defined.

Lemma torn_link_stays_torn_witness :
  mkConstraint 0 1 0 (12 : float)%float ∉
  all_links (frames canvas200 cs [idle; pointer 0 0 2]
               (resolve cs (mkConstraint 0 1 0 12%float) (pair_at 100 0 12))).
Proof.
  apply torn_link_stays_torn; [|by apply list_elem_of_here|by vm_compute].
  by apply (bool_decide_unpack _); vm_compute.
Defined.

(** The integration of the resting cloth with the primary button held at
    its centre, as a map. *)
Lemma integrate_map_witness :
  integrate cs (pointer 100 22 0) cloth =
    (λ p, verlet (timestep * timestep)%num
            (addForce n0 (gravity cs) (dragged cs (pointer 100 22 0) p))) <$> cloth.
Proof. apply integrate_map. by right. Defined.

(** With the secondary button held the order of the pass matters: the
    filter of the cut reads the end points of the links, one of which an
    earlier step of the pass has already moved.  Here a link of length
    [60.008] is kept when its owner is integrated first and removed when
    the other end, which falls by [0.1536], is integrated first. *)
Example integrate_cut_order_matters :
  let s := pair_at 1 60 12 in
  let m := pointer 1 60 2 in
  constraints <$> update cs m timestep 1 (update cs m timestep 0 s) = [[]; []] ∧
  constraints <$> update cs m timestep 0 (update cs m timestep 1 s)
    = [[]; [mkConstraint 0 1 0 12%float]].
Proof. by vm_compute. Qed.

(** The relaxation pass is sequential too: in a chain of three points the
    result depends on which link is resolved first. *)
Example relax_order_matters :
  let s := [at_rest 10 50 []; at_rest 26 50 [mkConstraint 0 1 0 8%float];
            at_rest 42 50 [mkConstraint 1 2 1 8%float]] in
  (λ p, x p) <$> resolveConstraints canvas200 cs 2 (resolveConstraints canvas200 cs 1 s)
    = [14; 28; 36]%float ∧
  (λ p, x p) <$> resolveConstraints canvas200 cs 1 (resolveConstraints canvas200 cs 2 s)
    = [16; 24; 38]%float.
Proof. by vm_compute. Qed.

(** The first frame of the 2 by 2 cloth on doubles: gravity moves the
    pinned points by [0.1536] too. *)
Example first_frame_run :
  (λ p, (y p, pinY p)) <$> take 3 (Cloth_update canvas200 cs idle cloth) =
  [(0x1.44ea4a8c154cap+3, Some 10); (0x1.44ea4a8c154cap+3, Some 10);
   (0x1.44ea4a8c154cap+3, Some 10)]%float.
Proof. by vm_compute. Qed.

(** A cloth of one cell with a spacing of zero: after the first frame the
    first free point, at index 2, is at NaN. *)
Lemma zero_spacing_nan_witness :
  let cs0 := clothSettings (mkProps 200 200 1%nat 1%nat 0 1200 30 15 60 "transparent" "#888")%float in
  ∃ q, frames canvas200 cs0 [idle] (new_Cloth canvas200 cs0) !! 2%nat = Some q ∧
       is_nan (x q) = true ∧ is_nan (y q) = true.
Proof.
  intros cs0. by apply (zero_spacing_nan canvas200 cs0 idle []); [done|simpl; lia..|done].
Defined.

(** In that cloth every point is at NaN after the first frame, the
    pinned ones included. *)
Example zero_spacing_run :
  let cs0 := clothSettings (mkProps 200 200 1%nat 1%nat 0 1200 30 15 60 "transparent" "#888")%float in
  (λ p, (x p, y p)) <$> Cloth_update canvas200 cs0 idle (new_Cloth canvas200 cs0)
  = [(nan, nan); (nan, nan); (nan, nan); (nan, nan)].
Proof. by vm_compute. Qed.

(** A point that has reached NaN, ten frames on with the pointer dragging
    at its place. *)
Lemma nan_persists_witness :
  ∃ q, frames canvas200 cs (replicate 10 (pointer 3 4 0))
         [set_x nan (at_rest 3 4 [])] !! 0%nat = Some q ∧
       is_nan (coord AxisX q) = true.
Proof.
  by apply (nan_persists canvas200 cs AxisX (replicate 10 (pointer 3 4 0)) 0 _
              (set_x nan (at_rest 3 4 []))).
Defined.

(** The secondary button at the centre of the resting cloth: the five
    points within [mouseCut] lose every link they store. *)
Example cut_at_centre :
  (λ p, length (constraints p)) <$> Cloth_update canvas200 cs (pointer 100 22 2) cloth
  = [0; 0; 1; 0; 0; 0; 1; 0; 2].
Proof. by vm_compute. Qed.

End floating.

Section exact_runs.
Local Open Scope R_scope.
Local Open Scope string_scope.
#[local] Abbreviation one_cell g :=
  (clothSettings (mkProps 200 200 1%nat 1%nat 12 g 30 15 60 "transparent" "#888") : Settings R).

(** The free points of a cloth of one cell are inside a canvas of 200 by
    200. *)
Lemma one_cell_inside g k p :
  new_Cloth canvas200 (one_cell g) !! k = Some p → pinned p = false →
  1 <= x p <= canvas_width canvas200 - 1 ∧ 1 <= y p <= canvas_height canvas200 - 1.
Proof.
  intros [Hk ->]%new_Cloth_lookup_Some.
  assert (k = 0 ∨ k = 1 ∨ k = 2 ∨ k = 3)%nat as Hcases by (simpl in Hk; lia).
  destruct Hcases as [E|[E|[E|E]]]; rewrite E;
    unfold pinned, grid_point, startX, canvas_width, canvas_height, n1, n2, of_nat;
    cbn; try done; intros _; cbv [Z.of_nat Pos.of_succ_nat Pos.succ]; lra.
Qed.

(** A weightless cloth of one cell in a canvas of 200 by 200 does not
    move. *)
Lemma rest_is_equilibrium_witness :
  Cloth_update canvas200 (one_cell 0) idle (new_Cloth canvas200 (one_cell 0))
  = new_Cloth canvas200 (one_cell 0).
Proof.
  apply rest_is_equilibrium; [done|simpl; lra|done|apply one_cell_inside].
Defined.

(** Under the default gravity the first pinned point of that cloth is
    drawn [1200 / 2 * 0.016²] below its pin in the first frame. *)
Lemma first_frame_moves_pinned_witness :
  ∃ q, Cloth_update canvas200 (one_cell 1200) idle
         (new_Cloth canvas200 (one_cell 1200)) !! 0%nat = Some q ∧
       x q = x (grid_point canvas200 (one_cell 1200) 0) ∧
       y q = y (grid_point canvas200 (one_cell 1200) 0)
             + gravity (one_cell 1200) / 2 * (timestep * timestep) ∧
       ((0 <= clothWidth (one_cell 1200%R))%nat →
        pinX q = Some (x q) ∧
        pinY q = Some (y q - gravity (one_cell 1200) / 2 * (timestep * timestep))).
Proof.
  apply first_frame_moves_pinned;
    [simpl; lra|done|apply one_cell_inside|simpl; lia].
Defined.

(** Three frames of a point dropped at [(100, 10)] in a canvas of 200 by
    200 under the default gravity. *)
Lemma free_fall_witness :
  frames canvas200 (small 2 2) (replicate 3 idle) [falling (small 2 2) 100 10 0]
  = [falling (small 2 2) 100 10 3].
Proof.
  apply free_fall; [done|simpl; lra|].
  intros k Hk. assert (k = 0 ∨ k = 1 ∨ k = 2)%nat as Hcases by lia.
  destruct Hcases as [E|[E|E]]; rewrite E;
    unfold fall, fall_step, frame_acceleration, timestep, dec; simpl; lra.
Defined.

End exact_runs.
