(* ===== verification/Loop.v ===== *)
(** * Loop: the input adapter and the frame loop (lines 53-56 and 222-258)

    [Sim] is the state one run of the effect closes over: its cloth, its
    pointer variables and the calls it has made on the 2D context.  The
    four handlers and the frame callback are functions on it; [step]
    dispatches an event to them and [run] a trace of events.  [reachable]
    is the set of states of a running simulation as an inductive
    relation.  The life cycle around the loop is in [Component]. *)

From Stdlib Require Import Reals Lra Floats String.
From S2P Require Import Prelude Number Float64 Ideal Data ConstraintOps PointOps ClothOps Draw.

(** ** Events and state *)

(** The fields of a [MouseEvent] that the handlers read. *)
Record MouseEvent (T : Type) := mkMouseEvent {
  clientX : T;
  clientY : T;
  button : Z;
}.
Arguments mkMouseEvent {T}.
Arguments clientX {T}.
Arguments clientY {T}.
Arguments button {T}.

(** The fields of [canvas.getBoundingClientRect()] that the handlers read. *)
Record Rect (T : Type) := mkRect {
  rect_left : T;
  rect_top : T;
}.
Arguments mkRect {T}.
Arguments rect_left {T}.
Arguments rect_top {T}.

(** What can happen to a running simulation: the four DOM events it
    listens to, each pointer event with the bounding rectangle at that
    time, and the animation frame. *)
Inductive Event (T : Type) : Type :=
  | MouseDownE (e : MouseEvent T) (rect : Rect T)
  | MouseMoveE (e : MouseEvent T) (rect : Rect T)
  | MouseUpE
  | ContextMenuE
  | FrameE.
Arguments MouseDownE {T}.
Arguments MouseMoveE {T}.
Arguments MouseUpE {T}.
Arguments ContextMenuE {T}.
Arguments FrameE {T}.

(** The variables one run of the effect closes over. *)
Record Sim (T : Type) := mkSim {
  cloth : list (Point T);
  mouse : Mouse T;
  calls : list (DrawCmd T);
}.
Arguments mkSim {T}.
Arguments cloth {T}.
Arguments mouse {T}.
Arguments calls {T}.

(** The interaction modes of the specification, read off the pointer
    variables. *)
Inductive Mode : Type := Idle | Drag | Cut | Held.

Section loop.
Context {T : Type} `{!Number T}.
Context (canvas : Canvas T) (cs : Settings T) (lineColor : string).
Implicit Types (sim : Sim T) (m : Mouse T) (e : MouseEvent T) (rect : Rect T).
Implicit Types (ev : Event T).

(** ** Handlers *)

(** [handleMouseDown] (lines 224-230). *)
Definition handleMouseDown e rect m : Mouse T :=
  mkMouse (clientX e - rect_left rect)%num (clientY e - rect_top rect)%num
          true (button e).

(** [handleMouseMove] (lines 232-236). *)
Definition handleMouseMove e rect m : Mouse T :=
  mkMouse (clientX e - rect_left rect)%num (clientY e - rect_top rect)%num
          (mouseDown m) (mouseButton m).

(** [handleMouseUp] (lines 238-240). *)
Definition handleMouseUp m : Mouse T :=
  mkMouse (mouseX m) (mouseY m) false (mouseButton m).

(** [handleContextMenu] (lines 242-244) only prevents the default menu. *)
Definition handleContextMenu m : Mouse T := m.

(** The initial pointer variables (lines 53-56). *)
Definition initial_mouse : Mouse T := mkMouse n0 n0 false 0.

(** ** The frame callback *)

(** [update] (lines 246-251): clear, advance the cloth, draw.  The call of
    [requestAnimationFrame] keeps the loop scheduled, which is what
    [loops] records. *)
Definition frame_update sim : Sim T :=
  let calls1 := calls sim ++ [ClearRect n0 n0 (width canvas) (height canvas)] in
  let cloth1 := Cloth_update (Some canvas) cs (mouse sim) (cloth sim) in
  let calls2 := default calls1 (draw lineColor (Some calls1) cloth1) in
  mkSim cloth1 (mouse sim) calls2.

(** The listeners registered on the canvas (lines 253-256), as the
    dispatch of a DOM event to its handler.  The animation frame is not an
    event of the canvas. *)
Definition listener ev m : Mouse T :=
  match ev with
  | MouseDownE e rect => handleMouseDown e rect m
  | MouseMoveE e rect => handleMouseMove e rect m
  | MouseUpE => handleMouseUp m
  | ContextMenuE => handleContextMenu m
  | FrameE => m
  end.

(** One event. *)
Definition step ev sim : Sim T :=
  match ev with
  | MouseDownE e rect => mkSim (cloth sim) (handleMouseDown e rect (mouse sim)) (calls sim)
  | MouseMoveE e rect => mkSim (cloth sim) (handleMouseMove e rect (mouse sim)) (calls sim)
  | MouseUpE => mkSim (cloth sim) (handleMouseUp (mouse sim)) (calls sim)
  | ContextMenuE => mkSim (cloth sim) (handleContextMenu (mouse sim)) (calls sim)
  | FrameE => frame_update sim
  end.

(** A trace of events. *)
Definition run (evs : list (Event T)) sim : Sim T :=
  foldl (λ sim ev, step ev sim) sim evs.

(** The body of the effect after its guards (lines 41-258): build the
    cloth and run the first frame. *)
Definition start : Sim T :=
  frame_update (mkSim (new_Cloth (Some canvas) cs) initial_mouse []).

(** The interaction mode. *)
Definition mode m : Mode :=
  if mouseDown m then
    if (mouseButton m =? 0)%Z then Drag
    else if (mouseButton m =? 2)%Z then Cut else Held
  else Idle.

(** ** Reachable states and the log of calls *)

(** The states a running simulation goes through. *)
Inductive reachable : Sim T → Prop :=
  | reachable_start : reachable start
  | reachable_step ev sim : reachable sim → reachable (step ev sim).

(** A log of whole frames: each frame clears the canvas, begins a path,
    sets the stroke style, extends the path and strokes it. *)
Inductive frame_log : list (DrawCmd T) → Prop :=
  | frame_log_nil : frame_log []
  | frame_log_frame log path :
      frame_log log → Forall path_cmd path →
      frame_log (log ++ [ClearRect n0 n0 (width canvas) (height canvas)] ++
                 [BeginPath; StrokeStyle lineColor] ++ path ++ [Stroke]).

(** ** The cloth under events *)

(** Only the animation frame touches the cloth and the context. *)
Lemma step_pointer_only ev sim :
  ev ≠ FrameE → cloth (step ev sim) = cloth sim ∧ calls (step ev sim) = calls sim.
Proof. by destruct ev. Qed.

(** A DOM event runs its listener on the pointer variables. *)
Lemma step_listener ev sim :
  ev ≠ FrameE → step ev sim = mkSim (cloth sim) (listener ev (mouse sim)) (calls sim).
Proof. by destruct ev. Qed.

(** The cloth of a frame does not depend on the calls made so far. *)
Lemma frame_update_cloth sim :
  cloth (frame_update sim) = Cloth_update (Some canvas) cs (mouse sim) (cloth sim) ∧
  mouse (frame_update sim) = mouse sim.
Proof. done. Qed.

(** Every event moves the cloth along [evolves]. *)
Lemma step_evolves ev sim : evolves (cloth sim) (cloth (step ev sim)).
Proof. destruct ev; simpl; try done. apply Cloth_update_evolving. Qed.

Lemma run_evolves evs sim : evolves (cloth sim) (cloth (run evs sim)).
Proof.
  unfold run. revert sim. induction evs as [|ev evs IH]; intros sim; simpl; [done|].
  etrans; [apply (step_evolves ev)|apply IH].
Qed.

Lemma start_evolves : evolves (new_Cloth (Some canvas) cs) (cloth start).
Proof. apply Cloth_update_evolving. Qed.

(** C1: whatever the user and the browser do, the cloth of a running
    simulation is well formed (no dangling link, unique identities), has
    its initial number of points, and every link it holds is one the
    constructor created: the topology only ever loses links. *)
Theorem run_invariant evs :
  wf (cloth (run evs start)) ∧
  length (cloth (run evs start)) = (clothHeight cs + 1) * (clothWidth cs + 1) ∧
  all_links (cloth (run evs start)) `sublist_of` all_links (new_Cloth (Some canvas) cs).
Proof.
  assert (evolves (new_Cloth (Some canvas) cs) (cloth (run evs start))) as H.
  { etrans; [apply start_evolves|apply run_evolves]. }
  split; [|split].
  - rewrite <- H. apply new_Cloth_wf.
  - rewrite <- H. apply new_Cloth_length.
  - by rewrite <- H.
Qed.

(** The reachable states are the states after a trace of events. *)
Lemma reachable_run sim : reachable sim ↔ ∃ evs, sim = run evs start.
Proof.
  split.
  - induction 1 as [|ev sim _ [evs ->]]; [by exists []|].
    exists (evs ++ [ev]). unfold run. by rewrite foldl_snoc.
  - intros [evs ->]. induction evs as [|ev evs IH] using rev_ind; [constructor|].
    unfold run in *. rewrite foldl_snoc. by constructor.
Qed.

(** A frame appends one whole frame to the log. *)
Lemma frame_update_log sim : frame_log (calls sim) → frame_log (calls (frame_update sim)).
Proof.
  intros H. unfold frame_update, draw; simpl. rewrite <- app_assoc.
  apply frame_log_frame; [done|apply segments_path].
Qed.

(** C32: the calls a running simulation has made on the context are a
    sequence of whole frames: every path that was begun has been stroked,
    and nothing but [moveTo] and [lineTo] happens in between. *)
Theorem reachable_frame_log sim : reachable sim → frame_log (calls sim).
Proof.
  induction 1 as [|ev sim _ IH].
  - apply frame_update_log. constructor.
  - destruct ev; simpl; try done. by apply frame_update_log.
Qed.

(** The calls of one frame. *)
Lemma frame_update_calls sim :
  Some (calls (frame_update sim)) =
  draw lineColor (Some (calls sim ++ [ClearRect n0 n0 (width canvas) (height canvas)]))
       (cloth (frame_update sim)).
Proof. done. Qed.

(** A frame leaves the advanced cloth on the canvas, and nothing else. *)
Lemma frame_update_picture sim :
  picture (calls (frame_update sim)) = [(lineColor, geometry (cloth (frame_update sim)))].
Proof.
  apply (inj Some). change (Some (picture ?l)) with (picture <$> Some l).
  by rewrite frame_update_calls, draw_paints, picture_clear.
Qed.

(** The canvas of a running simulation shows its cloth: in every
    reachable state the picture is the segment of each link of the cloth as
    it is, in the line colour. *)
Theorem reachable_picture sim :
  reachable sim → picture (calls sim) = [(lineColor, geometry (cloth sim))].
Proof.
  induction 1 as [|ev sim _ IH]; [apply frame_update_picture|].
  destruct ev; simpl; try done. apply frame_update_picture.
Qed.

(** ** The pointer *)

(** The interaction modes: a press enters drag, cut or (for any other
    button) a mode without effect; a release returns to idle; a move
    keeps the mode; the context menu event changes nothing. *)
Theorem mode_transitions e rect m :
  mode (handleMouseDown e rect m) =
    (if (button e =? 0)%Z then Drag else if (button e =? 2)%Z then Cut else Held) ∧
  mode (handleMouseUp m) = Idle ∧
  mode (handleMouseMove e rect m) = mode m ∧
  handleContextMenu m = m.
Proof. done. Qed.

(** Only [handleMouseUp] releases the button. *)
Lemma step_keeps_button_down ev sim :
  ev ≠ MouseUpE → mouseDown (mouse sim) = true →
  mouseDown (mouse (step ev sim)) = true.
Proof. by destruct ev. Qed.

(** C36: a held button stays held until a [mouseup] reaches the canvas:
    no other event of the simulation releases it (in particular there is
    no handler for the pointer leaving the canvas). *)
Theorem held_until_mouseup evs sim :
  mouseDown (mouse sim) = true → Forall (λ ev, ev ≠ MouseUpE) evs →
  mouseDown (mouse (run evs sim)) = true.
Proof.
  unfold run. intros Hd Hevs. revert sim Hd.
  induction Hevs as [|ev evs Hev _ IH]; intros sim Hd; simpl; [done|].
  by apply IH, step_keeps_button_down.
Qed.

(** ** The frame *)

(** An animation frame over a well-formed cloth clears the canvas and
    strokes one segment per link of the advanced cloth: it makes
    [4 + 2 * links] calls on the context. *)
Theorem frame_calls sim :
  wf (cloth sim) →
  length (calls (frame_update sim)) =
  length (calls sim) + 4 + 2 * length (all_links (cloth (frame_update sim))).
Proof.
  intros Hwf. unfold frame_update, draw; simpl.
  rewrite length_app. cbn [length]. rewrite !length_app, segments_length;
    [cbn [length]; lia|].
  eapply evolves_wf; [done|apply Cloth_update_evolving].
Qed.

End loop.

(** ** Concrete runs *)

Section floating.
Local Open Scope string_scope.
#[local] Abbreviation cv := (mkCanvas 200 200 : Canvas float)%float.
#[local] Abbreviation cs := (small 2 2 : Settings float).
#[local] Abbreviation origin := (mkRect 0 0 : Rect float)%float.
#[local] Abbreviation at_centre b := (mkMouseEvent 100 22 b : MouseEvent float)%float.

(** The secondary button pressed at the centre point, then moved and two
    frames drawn: the button is still held. *)
Lemma held_until_mouseup_witness :
  mouseDown (mouse (run cv cs "#888"
    [MouseMoveE (at_centre 0) origin; FrameE; ContextMenuE; FrameE]
    (step cv cs "#888" (MouseDownE (at_centre 2) origin) (start cv cs "#888")))) = true.
Proof.
  apply held_until_mouseup; [done|]. repeat (constructor; [done|]). constructor.
Defined.

(** The log after a press and two frames. *)
Lemma reachable_frame_log_witness :
  frame_log cv "#888"
    (calls (run cv cs "#888" [MouseDownE (at_centre 0) origin; FrameE; FrameE]
              (start cv cs "#888"))).
Proof. apply (reachable_frame_log cv cs "#888"), reachable_run. by eexists. Defined.

(** The canvas after a cut at the centre and a frame shows the cloth of
    that state. *)
Lemma reachable_picture_witness :
  let sim := run cv cs "#888" [MouseDownE (at_centre 2) origin; FrameE]
                 (start cv cs "#888") in
  picture (calls sim) = [("#888", geometry (cloth sim))].
Proof. apply (reachable_picture cv cs "#888"), reachable_run. by eexists. Defined.

(** The first frame of the 2 by 2 cloth makes [4 + 2 * 12] calls. *)
Lemma frame_calls_witness :
  length (calls (frame_update cv cs "#888" (start cv cs "#888"))) =
  length (calls (start cv cs "#888")) + 4 +
  2 * length (all_links (cloth (frame_update cv cs "#888" (start cv cs "#888")))).
Proof.
  apply frame_calls. eapply evolves_wf; [apply new_Cloth_wf|apply start_evolves].
Defined.

(** The picture after the first frame of the 2 by 2 cloth: twelve segments
    in the line colour. *)
Example picture_2x2 :
  (λ stroke, (stroke.1, length stroke.2)) <$> picture (calls (start cv cs "#888")) =
  [("#888", 12)].
Proof. by vm_compute. Qed.

(** A press of the secondary button at the centre and one frame: eight of
    the twelve links are cut, and the frame strokes the four left. *)
Example cut_scenario :
  let sim := run cv cs "#888" [MouseDownE (at_centre 2) origin; FrameE]
                 (start cv cs "#888") in
  length (all_links (cloth sim)) = 4 ∧ mode (mouse sim) = Cut ∧
  length (calls sim) = (4 + 2 * 12) + (4 + 2 * 4).
Proof. by vm_compute. Qed.

End floating.
