(* ===== verification/Component.v ===== *)
(** * Component: the React component around the simulation
    (lines 18-39, 212-220 and 260-296)

    [ClothSimulation] is one call of the function component: it
    destructures the props with their defaults, renders the canvas element
    from [canvasSize], and runs the effect when an entry of the dependency
    array has changed.  [World] is everything such a call reads or
    writes: the window, the props the parent passes, the state of
    [useState], the dependency array of the last render, the canvas element
    and the calls made on its context, the scheduled animation loops and
    the loop whose listeners are registered.

    The component relies on the contract of React hooks, which is stated
    here as definitions: a state update queued by [setCanvasSize] causes
    another call of the component ([settle], with React's limit on nested
    updates as its fuel); an effect runs after the element is committed,
    after the clean-up of the previous run, and only when a dependency has
    changed for [Object.is]; unmounting runs the clean-up.  The browser
    runs the callbacks of [requestAnimationFrame] in the order of their
    registration ([animation_frame]) and delivers a DOM event to the
    registered listeners ([canvas_event], [window_resize]).  [happens] is one
    step of the world and [history] a sequence of them. *)

From Stdlib Require Import Reals Lra Floats String.
From S2P Require Import Prelude Number Float64 Ideal Data ConstraintOps PointOps ClothOps Draw Loop.

(** ** The rendered element *)

(** The [style] object of the element (lines 285-294). *)
Record Style := mkStyle {
  style_position : string;
  style_top : Z;
  style_left : Z;
  style_width : string;
  style_height : string;
  style_backgroundColor : string;
  style_zIndex : Z;
  style_pointerEvents : string;
}.

(** The [<canvas>] element (lines 281-295): its size attributes and its
    style. *)
Record Element (T : Type) := mkElement {
  attr_width : T;
  attr_height : T;
  style : Style;
}.
Arguments mkElement {T}.
Arguments attr_width {T}.
Arguments attr_height {T}.
Arguments style {T}.

(** ** The world of a mounted component *)

(** [window.innerWidth] and [window.innerHeight]. *)
Record Window := mkWindow {
  innerWidth : Z;
  innerHeight : Z;
}.

(** The dependency array of the effect (lines 267-278), as a tuple. *)
Definition Deps (T : Type) : Type := T * T * nat * nat * T * T * T * T * T * string.

(** A scheduled animation loop: what one run of the effect closes over,
    namely the props of its render (from which [clothSettings], the stroke
    colour and [resizeCanvas] are made), its cloth and its pointer
    variables. *)
Record Running (T : Type) := mkRunning {
  closure : Props T;
  run_cloth : list (Point T);
  run_mouse : Mouse T;
}.
Arguments mkRunning {T}.
Arguments closure {T}.
Arguments run_cloth {T}.
Arguments run_mouse {T}.

Record World (T : Type) := mkWorld {
  window : Window;                    (* the browser window *)
  given : ClothSimulationProps T;     (* the props the parent passes *)
  has_context : bool;                 (* getContext("2d") is not null *)
  mounted : bool;                     (* the element is in the document *)
  canvasSize : Canvas T;              (* the state of useState (line 32) *)
  last_deps : option (Deps T);        (* the dependencies of the last render *)
  element : Element T;                (* the canvas element as committed *)
  context : list (DrawCmd T);         (* the calls made on the 2D context *)
  loops : list (Running T);           (* the animation loops, oldest first *)
  listening : option nat;             (* the loop whose listeners are registered *)
}.
Arguments mkWorld {T}.
Arguments window {T}.
Arguments given {T}.
Arguments has_context {T}.
Arguments mounted {T}.
Arguments canvasSize {T}.
Arguments last_deps {T}.
Arguments element {T}.
Arguments context {T}.
Arguments loops {T}.
Arguments listening {T}.

(** What can happen to the world: a DOM event of the canvas or an
    animation frame; the window is resized; the parent renders the
    component with new props; the component is unmounted. *)
Inductive Happening (T : Type) : Type :=
  | Browser (ev : Event T)
  | Resize (win : Window)
  | Rerender (props : ClothSimulationProps T)
  | Unmount.
Arguments Browser {T}.
Arguments Resize {T}.
Arguments Rerender {T}.
Arguments Unmount {T}.

(** Reduces the projections of a world that is given by its fields, and
    nothing else. *)
Ltac world_simpl :=
  cbn [window given has_context mounted canvasSize last_deps element context
       loops listening fst snd] in *.

(** React gives up after this many nested updates. *)
Definition update_depth : nat := 50.

#[export] Instance string_eq_dec : EqDecision string := string_dec.

Section component.
Context {T : Type} `{!Number T, !EqDecision T}.
Implicit Types (w : World T) (props : Props T) (l : Running T).
Implicit Types (size : Canvas T) (win : Window).

(** ** Rendering *)

(** The element the component returns (lines 280-296). *)
Definition canvas_element props size : Element T :=
  {| attr_width := width size;
     attr_height := height size;
     style := {| style_position := "fixed";
                 style_top := 0;
                 style_left := 0;
                 style_width := "100%";
                 style_height := "100%";
                 style_backgroundColor := props_backgroundColor props;
                 style_zIndex := -20;
                 style_pointerEvents := "auto" |} |}.

(** The dependency array (lines 267-278): [backgroundColor] is not in it. *)
Definition deps props : Deps T :=
  (props_width props, props_height props, props_clothWidth props,
   props_clothHeight props, props_spacing props, props_gravity props,
   props_mouseInfluence props, props_mouseCut props, props_tearDistance props,
   props_lineColor props).

(** [useState({ width, height })] (line 32): the initial state. *)
Definition initial_canvasSize props : Canvas T :=
  mkCanvas (props_width props) (props_height props).

(** [resizeCanvas] (lines 212-217) in a window of inner size [innerWidth]
    by [innerHeight]: the value passed to [setCanvasSize].  [a || b] is [b]
    when [a] is falsy. *)
Definition resizeCanvas props (innerWidth innerHeight : Z) : Canvas T :=
  mkCanvas
    (if falsy (props_width props) then of_Z innerWidth else props_width props)
    (if falsy (props_height props) then of_Z innerHeight else props_height props).

(** [canvasRef.current] (line 31): the element while it is mounted. *)
Definition canvasRef w : option (Canvas T) :=
  if mounted w then Some (mkCanvas (attr_width (element w)) (attr_height (element w)))
  else None.

(** The canvas the loops draw on: a loop keeps its reference to the
    element, so it reads the size of the element as it is now, also after
    the element has left the document. *)
Definition canvas_now w : Canvas T :=
  mkCanvas (attr_width (element w)) (attr_height (element w)).

(** The props of a render in the world as it is. *)
Definition props_of w : Props T :=
  destructure (given w) (innerWidth (window w)) (innerHeight (window w)).

(** ** The effect *)

(** The loop a run of the effect starts (lines 222-258): the cloth built
    on [canvas] after its first frame, drawn on the context after the calls
    [ctx]. *)
Definition first_frame props (canvas : Canvas T) (ctx : list (DrawCmd T)) : Sim T :=
  frame_update canvas (clothSettings props) (props_lineColor props)
    (mkSim (new_Cloth (Some canvas) (clothSettings props)) initial_mouse ctx).

(** The closure the effect leaves scheduled. *)
Definition started props (canvas : Canvas T) (ctx : list (DrawCmd T)) : Running T :=
  mkRunning props (cloth (first_frame props canvas ctx))
            (mouse (first_frame props canvas ctx)).

(** The body of the effect (lines 34-258) for the props of the current
    render: after the two guards it queues the size [resizeCanvas]
    computes, registers the listeners, builds the cloth on the canvas as it
    is and runs the first frame, which schedules the loop.  The result is
    the new world and the queued state update, if any. *)
Definition effect props w : World T * option (Canvas T) :=
  match canvasRef w with
  | None => (w, None)
  | Some canvas =>
      if has_context w then
        (mkWorld (window w) (given w) (has_context w) (mounted w) (canvasSize w)
                 (last_deps w) (element w) (calls (first_frame props canvas (context w)))
                 (loops w ++ [started props canvas (context w)])
                 (Some (length (loops w))),
         Some (resizeCanvas props (innerWidth (window w)) (innerHeight (window w))))
      else (w, None)
  end.

(** The clean-up (lines 260-266): the listeners are removed.  The
    animation frame request is not cancelled. *)
Definition effect_cleanup w : World T :=
  mkWorld (window w) (given w) (has_context w) (mounted w) (canvasSize w)
          (last_deps w) (element w) (context w) (loops w) None.

(** ** One call of the component *)

(** The render is committed: the element is updated and React records
    the dependency array. *)
Definition commit props w : World T :=
  mkWorld (window w) (given w) (has_context w) (mounted w) (canvasSize w)
          (Some (deps props)) (canvas_element props (canvasSize w))
          (context w) (loops w) (listening w).

(** The component (lines 18-296): destructure the props in the window as
    it is, render the element from [canvasSize], and, once it is
    committed, clean up and run the effect if a dependency differs from
    the last render's. *)
Definition ClothSimulation w : World T * option (Canvas T) :=
  let props := props_of w in
  if decide (last_deps w = Some (deps props)) then (commit props w, None)
  else effect props (effect_cleanup (commit props w)).

(** [setCanvasSize(size)]. *)
Definition setCanvasSize size w : World T :=
  mkWorld (window w) (given w) (has_context w) (mounted w) size
          (last_deps w) (element w) (context w) (loops w) (listening w).

(** The component is called again while a state update is queued: [None]
    when the updates do not settle within [fuel] calls. *)
Fixpoint settle (fuel : nat) w (queued : option (Canvas T)) : option (World T) :=
  match queued, fuel with
  | None, _ => Some w
  | Some _, 0 => None
  | Some size, S fuel =>
      let '(w', queued') := ClothSimulation (setCanvasSize size w) in
      settle fuel w' queued'
  end.

(** A render with whatever it queues. *)
Definition rerender w : option (World T) :=
  let '(w', queued) := ClothSimulation w in settle update_depth w' queued.

(** The first render: the state starts at the size of the props. *)
Definition unrendered (win : Window) (props : ClothSimulationProps T) (ctx : bool) :
    World T :=
  let p := destructure props (innerWidth win) (innerHeight win) in
  mkWorld win props ctx true (initial_canvasSize p) None
          (canvas_element p (initial_canvasSize p)) [] [] None.

Definition mount (win : Window) (props : ClothSimulationProps T) (ctx : bool) :
    option (World T) :=
  rerender (unrendered win props ctx).

(** ** The browser *)

(** One loop runs its frame callback (lines 246-251) on the shared
    context. *)
Definition loop_frame (canvas : Canvas T) (acc : list (DrawCmd T) * list (Running T)) l :
    list (DrawCmd T) * list (Running T) :=
  let sim := frame_update canvas (clothSettings (closure l)) (props_lineColor (closure l))
               (mkSim (run_cloth l) (run_mouse l) acc.1) in
  (calls sim, acc.2 ++ [mkRunning (closure l) (cloth sim) (mouse sim)]).

(** An animation frame: every scheduled loop runs its callback, in the
    order in which the loops were started. *)
Definition animation_frame w : World T :=
  let r := foldl (loop_frame (canvas_now w)) (context w, []) (loops w) in
  mkWorld (window w) (given w) (has_context w) (mounted w) (canvasSize w)
          (last_deps w) (element w) r.1 r.2 (listening w).

(** A DOM event of the canvas reaches the registered listeners, if any. *)
Definition canvas_event (ev : Event T) w : World T :=
  match listening w with
  | Some k =>
      mkWorld (window w) (given w) (has_context w) (mounted w) (canvasSize w)
              (last_deps w) (element w) (context w)
              (alter (λ l, mkRunning (closure l) (run_cloth l) (listener ev (run_mouse l)))
                     k (loops w))
              (listening w)
  | None => w
  end.

(** The world in a window of another size, and with other props given. *)
Definition resized win w : World T :=
  mkWorld win (given w) (has_context w) (mounted w) (canvasSize w)
          (last_deps w) (element w) (context w) (loops w) (listening w).

Definition passed (props : ClothSimulationProps T) w : World T :=
  mkWorld (window w) props (has_context w) (mounted w) (canvasSize w)
          (last_deps w) (element w) (context w) (loops w) (listening w).

(** The window takes a new size: the registered [resizeCanvas], with the
    props of its own render, sets the state, and the component is called
    again. *)
Definition window_resize win w : option (World T) :=
  match closure <$> (listening w ≫= (loops w !!.)) with
  | Some props =>
      rerender (setCanvasSize (resizeCanvas props (innerWidth win) (innerHeight win))
                              (resized win w))
  | None => Some (resized win w)
  end.

(** The parent renders the component with new props. *)
Definition parent_render (props : ClothSimulationProps T) w : option (World T) :=
  if mounted w then rerender (passed props w) else Some w.

(** The component is unmounted: the clean-up runs, the element leaves the
    document and React forgets the render. *)
Definition unmount w : World T :=
  let w' := effect_cleanup w in
  mkWorld (window w') (given w') (has_context w') false (canvasSize w')
          None (element w') (context w') (loops w') (listening w').

(** One step of the world. *)
Definition happens (h : Happening T) w : option (World T) :=
  match h with
  | Browser FrameE => Some (animation_frame w)
  | Browser ev => Some (canvas_event ev w)
  | Resize win => window_resize win w
  | Rerender props => parent_render props w
  | Unmount => Some (unmount w)
  end.

(** A sequence of steps. *)
Definition history (hs : list (Happening T)) w : option (World T) :=
  foldl (λ o h, o ≫= happens h) (Some w) hs.

(** ** The render settles *)

(** A world in which a call of the component changes nothing: the last
    render is the render of the props and the state as they are. *)
Definition settled w : Prop :=
  last_deps w = Some (deps (props_of w)) ∧
  element w = canvas_element (props_of w) (canvasSize w).

Lemma ClothSimulation_same w :
  last_deps w = Some (deps (props_of w)) →
  ClothSimulation w = (commit (props_of w) w, None).
Proof. intros H. unfold ClothSimulation. by rewrite decide_True. Qed.

Lemma ClothSimulation_changed w :
  last_deps w ≠ Some (deps (props_of w)) →
  ClothSimulation w = effect (props_of w) (effect_cleanup (commit (props_of w) w)).
Proof. intros H. unfold ClothSimulation. by rewrite decide_False. Qed.

(** The effect changes neither the window, the props given, the state nor
    what React recorded of the render. *)
Lemma effect_keeps props w :
  let w' := (effect props w).1 in
  window w' = window w ∧ given w' = given w ∧ has_context w' = has_context w ∧
  mounted w' = mounted w ∧ canvasSize w' = canvasSize w ∧
  last_deps w' = last_deps w ∧ element w' = element w.
Proof.
  unfold effect. destruct (canvasRef w); [|done].
  by destruct (has_context w) eqn:E; simpl; rewrite ?E.
Qed.

(** A call of the component records the dependencies of its props and
    leaves the window, the props given and the state as they are. *)
Lemma ClothSimulation_keeps w :
  let w' := (ClothSimulation w).1 in
  window w' = window w ∧ given w' = given w ∧ has_context w' = has_context w ∧
  mounted w' = mounted w ∧ canvasSize w' = canvasSize w ∧
  last_deps w' = Some (deps (props_of w)) ∧
  element w' = canvas_element (props_of w) (canvasSize w).
Proof.
  unfold ClothSimulation. case_decide; [done|].
  by destruct (effect_keeps (props_of w) (effect_cleanup (commit (props_of w) w)))
    as (-> & -> & -> & -> & -> & -> & ->).
Qed.

(** A settled world is a fixed point of the component. *)
Lemma settled_fixed w : settled w → ClothSimulation w = (w, None).
Proof.
  intros [Hd He]. rewrite ClothSimulation_same by done.
  unfold commit. rewrite <- Hd, <- He. by destruct w.
Qed.

(** After a call of the component, the call that a queued update causes
    finds the dependencies unchanged: it commits the new size and queues
    nothing. *)
Lemma settle_queued w fuel size :
  last_deps w = Some (deps (props_of w)) →
  settle (S fuel) w (Some size) = Some (commit (props_of w) (setCanvasSize size w)).
Proof.
  intros H. simpl. rewrite ClothSimulation_same by done. by destruct fuel.
Qed.

(** The world after a render and the update it queues. *)
Definition rendered w : World T :=
  let r := ClothSimulation w in
  match r.2 with
  | None => r.1
  | Some size => commit (props_of w) (setCanvasSize size r.1)
  end.

(** One more call of the component is enough for what a call queues. *)
Lemma settle_rendered fuel w :
  settle (S fuel) (ClothSimulation w).1 (ClothSimulation w).2 = Some (rendered w).
Proof.
  unfold rendered. pose proof (ClothSimulation_keeps w) as H.
  destruct (ClothSimulation w) as [w' [size|]]; cbn [fst snd] in *; [|done].
  destruct H as (Hw & Hg & _ & _ & _ & Hd & _).
  assert (props_of w' = props_of w) as Hp by (unfold props_of; by rewrite Hw, Hg).
  rewrite settle_queued; rewrite Hp; done.
Qed.

Lemma rerender_rendered w : rerender w = Some (rendered w).
Proof.
  unfold rerender. rewrite (surjective_pairing (ClothSimulation w)).
  apply settle_rendered.
Qed.

Lemma rendered_settled w : settled (rendered w).
Proof.
  unfold rendered. pose proof (ClothSimulation_keeps w) as H.
  destruct (ClothSimulation w) as [w' [size|]]; simpl in *.
  - destruct H as (Hw & Hg & _). split; simpl; unfold props_of; simpl; by rewrite Hw, Hg.
  - destruct H as (Hw & Hg & _ & _ & Hs & Hd & He).
    split; unfold props_of; rewrite Hw, Hg; [done|]. by rewrite Hs.
Qed.

(** C14: a render settles: whatever the world, the calls of the component that
    its state updates cause come to an end, after one call more than the
    first and far below React's limit, in a world that a further call would
    leave as it is. *)
Theorem rerender_settles w :
  ∃ w', rerender w = Some w' ∧
        settle 1 (ClothSimulation w).1 (ClothSimulation w).2 = Some w' ∧
        ClothSimulation w' = (w', None).
Proof.
  exists (rendered w). split; [apply rerender_rendered|]. split; [apply settle_rendered|].
  apply settled_fixed, rendered_settled.
Qed.

(** ** The three outcomes of a render *)

(** The world after a render that runs the effect: a new loop, built on
    the canvas of the size the state had during the render, is appended and
    holds the listeners; the state is the size its [resizeCanvas] computed. *)
Definition restarted w : World T :=
  let props := props_of w in
  let size := resizeCanvas props (innerWidth (window w)) (innerHeight (window w)) in
  mkWorld (window w) (given w) (has_context w) (mounted w) size (Some (deps props))
          (canvas_element props size)
          (calls (first_frame props (canvasSize w) (context w)))
          (loops w ++ [started props (canvasSize w) (context w)])
          (Some (length (loops w))).

(** No dependency has changed: the element is committed, nothing else
    happens. *)
Lemma rendered_same w :
  last_deps w = Some (deps (props_of w)) → rendered w = commit (props_of w) w.
Proof. intros H. unfold rendered. by rewrite ClothSimulation_same. Qed.

(** A dependency has changed and the canvas has a context: the effect
    runs. *)
Lemma rendered_restart w :
  mounted w = true → has_context w = true →
  last_deps w ≠ Some (deps (props_of w)) → rendered w = restarted w.
Proof.
  intros Hm Hc H. unfold rendered. rewrite ClothSimulation_changed by done.
  unfold effect, canvasRef, restarted, effect_cleanup, commit, setCanvasSize, props_of.
  world_simpl. rewrite Hm, Hc. world_simpl. by destruct (canvasSize w).
Qed.

(** A dependency has changed and there is no context: the clean-up runs
    and the effect stops at its guard. *)
Lemma rendered_guard w :
  mounted w = false ∨ has_context w = false →
  last_deps w ≠ Some (deps (props_of w)) →
  rendered w = effect_cleanup (commit (props_of w) w).
Proof.
  intros Hg H. unfold rendered. rewrite ClothSimulation_changed by done.
  unfold effect, canvasRef, effect_cleanup, commit. world_simpl.
  destruct (mounted w); [|done]. by destruct Hg as [[=]| ->].
Qed.

(** ** The browser's steps *)

(** One frame of a loop on the canvas as it is. *)
Definition advance (canvas : Canvas T) l : Running T :=
  mkRunning (closure l)
    (Cloth_update (Some canvas) (clothSettings (closure l)) (run_mouse l) (run_cloth l))
    (run_mouse l).

Lemma loop_frame_fold canvas acc ls :
  (foldl (loop_frame canvas) acc ls).2 = acc.2 ++ (advance canvas <$> ls).
Proof.
  revert acc. induction ls as [|l ls IH]; intros acc; simpl; [by rewrite app_nil_r|].
  rewrite IH. simpl. by rewrite <- app_assoc.
Qed.

(** An animation frame advances every loop. *)
Lemma animation_frame_loops w :
  loops (animation_frame w) = advance (canvas_now w) <$> loops w.
Proof. unfold animation_frame; simpl. by rewrite loop_frame_fold. Qed.

(** The loops keep their closures. *)
Lemma animation_frame_closures w :
  closure <$> loops (animation_frame w) = closure <$> loops w.
Proof. rewrite animation_frame_loops, <- list_fmap_compose. by apply list_fmap_ext. Qed.

Lemma canvas_event_closures ev w : closure <$> loops (canvas_event ev w) = closure <$> loops w.
Proof. unfold canvas_event. destruct (listening w); [|done]. by apply fmap_alter_keep. Qed.

(** After a frame the canvas shows the cloth of the loop that ran last. *)
Lemma loop_frame_picture canvas acc ls l :
  picture (foldl (loop_frame canvas) acc (ls ++ [l])).1 =
  [(props_lineColor (closure l), geometry (run_cloth (advance canvas l)))].
Proof. rewrite foldl_snoc. apply frame_update_picture. Qed.

(** C25: only the newest loop is seen: after an animation frame every loop has
    advanced by a frame on the canvas as it is, and the canvas shows the
    cloth of the loop that was started last; what the older loops drew was
    erased within the same frame. *)
Theorem animation_frame_picture w ls l :
  loops w = ls ++ [l] →
  loops (animation_frame w) = advance (canvas_now w) <$> loops w ∧
  picture (context (animation_frame w)) =
    [(props_lineColor (closure l), geometry (run_cloth (advance (canvas_now w) l)))].
Proof.
  intros H. split; [apply animation_frame_loops|].
  unfold animation_frame; world_simpl. rewrite H. apply loop_frame_picture.
Qed.

(** ** The invariant of the world *)

(** A loop holds a well-formed cloth of the size of its props. *)
Definition loop_ok l : Prop :=
  wf (run_cloth l) ∧
  length (run_cloth l) =
    (props_clothHeight (closure l) + 1) * (props_clothWidth (closure l) + 1).

(** The newest loop is the loop of the last render: React recorded its
    dependencies, and the state is the size its [resizeCanvas] computes in
    the window as it is. *)
Definition current w props : Prop :=
  last (closure <$> loops w) = Some props ∧
  last_deps w = Some (deps props) ∧
  canvasSize w = resizeCanvas props (innerWidth (window w)) (innerHeight (window w)).

(** What holds of the world between two steps: every loop is sound;
    without a context no loop was ever started; the listeners are those of
    the newest loop exactly while the component is mounted with a context,
    and then the world is settled; an unmounted component has no recorded
    render. *)
Record world_ok w : Prop := mk_world_ok {
  ok_loops : Forall loop_ok (loops w);
  ok_no_context : has_context w = false → loops w = [];
  ok_listening :
    listening w = if mounted w && has_context w then Some (pred (length (loops w))) else None;
  ok_current : mounted w = true → has_context w = true → ∃ props, current w props;
  ok_settled : mounted w = true → has_context w = true → settled w;
  ok_unmounted : mounted w = false → last_deps w = None;
}.

(** [resizeCanvas] reads the width and the height only. *)
Lemma resizeCanvas_deps props props' iw ih :
  deps props = deps props' → resizeCanvas props iw ih = resizeCanvas props' iw ih.
Proof. unfold deps, resizeCanvas. intros [= -> -> _ _ _ _ _ _ _ _]. done. Qed.

(** A frame keeps a loop sound. *)
Lemma advance_ok canvas l : loop_ok l → loop_ok (advance canvas l).
Proof.
  intros [Hwf Hlen]. pose proof (Cloth_update_evolving (Some canvas)
    (clothSettings (closure l)) (run_mouse l) (run_cloth l)) as H.
  split; simpl; by rewrite <- H.
Qed.

(** The loop an effect starts is sound. *)
Lemma started_ok props canvas ctx : loop_ok (started props canvas ctx).
Proof.
  pose proof (Cloth_update_evolving (Some canvas) (clothSettings props) initial_mouse
    (new_Cloth (Some canvas) (clothSettings props))) as H.
  split; simpl; rewrite <- H; [apply new_Cloth_wf|apply new_Cloth_length].
Qed.

(** What a render needs of the world it starts from: the component is
    mounted, the loops are sound, and the listeners and the recorded render,
    if any, are those of the newest loop. *)
Record renderable w : Prop := mk_renderable {
  pre_mounted : mounted w = true;
  pre_loops : Forall loop_ok (loops w);
  pre_no_context : has_context w = false → loops w = [] ∧ listening w = None;
  pre_current :
    has_context w = true → last_deps w ≠ None →
    listening w = Some (pred (length (loops w))) ∧ ∃ props, current w props;
}.

Lemma commit_ok w : renderable w → last_deps w = Some (deps (props_of w)) →
  world_ok (commit (props_of w) w).
Proof.
  intros [Hm Hl Hn Hc] Hd. split; simpl; try done.
  - intros Hx. by destruct (Hn Hx).
  - rewrite Hm. simpl. destruct (has_context w) eqn:E; [|by destruct (Hn eq_refl)].
    by destruct (Hc eq_refl) as [-> _]; [by rewrite Hd|].
  - intros _ Hx. destruct (Hc Hx) as (_ & props & Hlast & Hdeps & Hsize); [by rewrite Hd|].
    exists props. split; [done|]. split; [|done]. simpl. by rewrite <- Hd.
  - by rewrite Hm.
Qed.

Lemma restarted_ok w : renderable w → has_context w = true → world_ok (restarted w).
Proof.
  intros [Hm Hl Hn Hc] Hx.
  split; unfold current, settled, restarted; world_simpl; try done.
  - apply Forall_app. split; [done|]. apply Forall_singleton, started_ok.
  - by rewrite Hx.
  - rewrite Hm, Hx, length_app. simpl. f_equal. lia.
  - intros _ _. exists (props_of w). by rewrite fmap_snoc, last_snoc.
  - by rewrite Hm.
Qed.

Lemma guard_ok w : renderable w → has_context w = false →
  world_ok (effect_cleanup (commit (props_of w) w)).
Proof.
  intros [Hm Hl Hn Hc] Hx. split; simpl; try done.
  - intros _. by destruct (Hn Hx).
  - by rewrite Hx, andb_false_r.
  - intros _. by rewrite Hx.
  - by rewrite Hm.
Qed.

(** A render ends in a sound world. *)
Lemma rendered_ok w : renderable w → world_ok (rendered w).
Proof.
  intros H. destruct (decide (last_deps w = Some (deps (props_of w)))) as [Hd|Hd].
  { rewrite rendered_same by done. by apply commit_ok. }
  destruct (has_context w) eqn:Hx.
  - rewrite rendered_restart; [by apply restarted_ok|by destruct H|done..].
  - rewrite rendered_guard; [by apply guard_ok|by right|done].
Qed.

(** ** Every step keeps the world sound *)

(** The world with other calls on the context and other states of the
    loops. *)
Definition with_loops (ctx : list (DrawCmd T)) (ls : list (Running T)) w : World T :=
  mkWorld (window w) (given w) (has_context w) (mounted w) (canvasSize w)
          (last_deps w) (element w) ctx ls (listening w).

(** Unfolds the worlds the steps build down to their fields. *)
Ltac world_unfold :=
  unfold current, settled, props_of, with_loops, setCanvasSize, commit, effect_cleanup,
    unmount, resized, passed in *;
  world_simpl.

(** The browser's steps only move the loops, each within its closure. *)
Lemma with_loops_ok w ctx ls :
  world_ok w → Forall loop_ok ls → closure <$> ls = closure <$> loops w →
  world_ok (with_loops ctx ls w).
Proof.
  intros [Hl Hn Hli Hc Hs Hu] Hls Hcl.
  assert (length ls = length (loops w)) as Hlen.
  { by rewrite <- (length_fmap closure ls), Hcl, length_fmap. }
  split; world_unfold; try done.
  - intros Hx. apply (fmap_nil_inv closure). by rewrite Hcl, (Hn Hx).
  - by rewrite Hlen.
  - by rewrite Hcl.
Qed.

Lemma animation_frame_ok w : world_ok w → world_ok (animation_frame w).
Proof.
  intros Hw. apply (with_loops_ok w _ _ Hw).
  - change (Forall loop_ok (loops (animation_frame w))). rewrite animation_frame_loops.
    apply Forall_fmap, (Forall_impl _ _ _ (ok_loops w Hw)). intros l. apply advance_ok.
  - apply animation_frame_closures.
Qed.

Lemma canvas_event_ok ev w : world_ok w → world_ok (canvas_event ev w).
Proof.
  intros Hw. unfold canvas_event. destruct (listening w) as [k|] eqn:Hk; [|done].
  rewrite <- Hk. apply (with_loops_ok w _ _ Hw).
  - apply Forall_alter; [apply (ok_loops w Hw)|]. by intros l _ [??].
  - by apply fmap_alter_keep.
Qed.

Lemma unmount_ok w : world_ok w → world_ok (unmount w).
Proof. intros [Hl Hn Hli Hc Hs Hu]. by split. Qed.

(** The first render. *)
Lemma mount_rendered win (given : ClothSimulationProps T) ctx :
  mount win given ctx = Some (rendered (unrendered win given ctx)) ∧
  world_ok (rendered (unrendered win given ctx)).
Proof.
  split; [apply rerender_rendered|]. apply rendered_ok. by split.
Qed.

(** The props the resize listener was made from are the props of the
    newest loop. *)
Lemma resize_listener w props :
  world_ok w → mounted w = true → has_context w = true → current w props →
  closure <$> (listening w ≫= (loops w !!.)) = Some props.
Proof.
  intros Hw Hm Hx (Hlast & _). rewrite (ok_listening w Hw), Hm, Hx. simpl.
  by rewrite <- list_lookup_fmap, <- (length_fmap closure), <- last_lookup.
Qed.

Lemma window_resize_ok win w :
  world_ok w → ∃ w', window_resize win w = Some w' ∧ world_ok w'.
Proof.
  intros Hw. unfold window_resize.
  destruct (mounted w && has_context w) eqn:E.
  - apply andb_true_iff in E as [Hm Hx].
    destruct (ok_current w Hw Hm Hx) as [props Hp].
    rewrite (resize_listener w props) by done. rewrite rerender_rendered.
    eexists. split; [done|]. apply rendered_ok.
    destruct Hw as [Hl Hn Hli Hc Hs Hu], Hp as (Hlast & Hd & _).
    split; world_unfold; try done.
    + intros Hx'. congruence.
    + intros _ _. split; [by rewrite Hli, Hm, Hx|]. by exists props.
  - rewrite (ok_listening w Hw), E. simpl. eexists. split; [done|].
    destruct Hw as [Hl Hn Hli Hc Hs Hu].
    split; world_unfold; try done; intros Hm Hx; by rewrite Hm, Hx in E.
Qed.

Lemma parent_render_ok (props : ClothSimulationProps T) w :
  world_ok w → ∃ w', parent_render props w = Some w' ∧ world_ok w'.
Proof.
  intros Hw. unfold parent_render. destruct (mounted w) eqn:Hm; [|by eexists].
  rewrite rerender_rendered. eexists. split; [done|]. apply rendered_ok.
  destruct Hw as [Hl Hn Hli Hc Hs Hu]. rewrite Hm in Hli.
  split; world_unfold; try done.
  - intros Hx. split; [by apply Hn|]. by rewrite Hli, Hx.
  - intros Hx _. split; [by rewrite Hli, Hx|]. by apply Hc.
Qed.

(** Every step of the world is defined and keeps it sound. *)
Lemma happens_ok h w : world_ok w → ∃ w', happens h w = Some w' ∧ world_ok w'.
Proof.
  intros Hw. destruct h as [ev|win|props|]; simpl.
  - destruct ev; eexists; (split; [done|]);
      by (apply canvas_event_ok || apply animation_frame_ok).
  - by apply window_resize_ok.
  - by apply parent_render_ok.
  - eexists. split; [done|]. by apply unmount_ok.
Qed.

Lemma history_ok hs w : world_ok w → ∃ w', history hs w = Some w' ∧ world_ok w'.
Proof.
  intros Hw. unfold history. induction hs as [|h hs IH] using rev_ind; [by exists w|].
  destruct IH as (w1 & H1 & Hw1). rewrite foldl_snoc, H1. simpl.
  by apply happens_ok.
Qed.

(** C11: whatever happens after the component is mounted, every render
    settles and the world stays sound: every loop holds a well-formed
    cloth of the size of its props, the listeners are those of the newest
    loop, and the state of the component is the one its last render left. *)
Theorem history_invariant win (given : ClothSimulationProps T) ctx hs :
  ∃ w, mount win given ctx ≫= history hs = Some w ∧ world_ok w.
Proof.
  destruct (mount_rendered win given ctx) as [-> Hw]. simpl. by apply history_ok.
Qed.

(** ** No loop ever stops *)

(** A render keeps the loops and may add one. *)
Lemma rendered_loops w :
  loops (rendered w) = loops w ∨ loops (rendered w) =
    loops w ++ [started (props_of w) (canvasSize w) (context w)].
Proof.
  destruct (decide (last_deps w = Some (deps (props_of w)))) as [Hd|Hd].
  { left. by rewrite rendered_same. }
  destruct (mounted w) eqn:Hm, (has_context w) eqn:Hx;
    [right; by rewrite rendered_restart|left; rewrite rendered_guard; auto..].
Qed.

(** A step of the world keeps the closures of the loops there are. *)
Lemma happens_closures h w w' :
  happens h w = Some w' → closure <$> loops w `prefix_of` closure <$> loops w'.
Proof.
  assert (∀ w0 : World T, loops w0 = loops w →
            closure <$> loops w `prefix_of` closure <$> loops (rendered w0)) as Hr.
  { intros w0 <-. destruct (rendered_loops w0) as [-> | ->]; [done|].
    rewrite fmap_app. by apply prefix_app_r. }
  destruct h as [ev|win|props|]; simpl.
  - destruct ev; intros [= <-]; by rewrite ?canvas_event_closures, ?animation_frame_closures.
  - unfold window_resize. destruct (closure <$> (listening w ≫= _)); [|by intros [= <-]].
    rewrite rerender_rendered. intros [= <-]. by apply Hr.
  - unfold parent_render. destruct (mounted w); [|by intros [= <-]].
    rewrite rerender_rendered. intros [= <-]. by apply Hr.
  - by intros [= <-].
Qed.

(** C21: no loop ever stops: whatever happens (new props, a resize, the
    unmounting of the component), the loops that were scheduled before are
    scheduled after, each with the props it was started with. *)
Theorem loops_never_stop hs w w' :
  history hs w = Some w' → closure <$> loops w `prefix_of` closure <$> loops w'.
Proof.
  unfold history. revert w'. induction hs as [|h hs IH] using rev_ind; intros w'.
  { by intros [= <-]. }
  rewrite foldl_snoc. destruct (foldl _ _ hs) as [w1|]; [|done]. simpl. intros H.
  etrans; [by apply IH|by eapply happens_closures].
Qed.

(** The clean-up leaves the loops running: after the component is
    unmounted every loop still advances and draws on each animation frame,
    while no event of the canvas or of the window reaches its handlers. *)
Theorem unmount_leaves_loops_running w ev win :
  loops (animation_frame (unmount w)) = advance (canvas_now w) <$> loops w ∧
  canvas_event ev (unmount w) = unmount w ∧
  window_resize win (unmount w) = Some (resized win (unmount w)).
Proof. split; [by rewrite animation_frame_loops|done]. Qed.

(** ** New props *)

(** The props with another background colour. *)
Definition with_backgroundColor (color : string) (g : ClothSimulationProps T) :
    ClothSimulationProps T :=
  mkGiven (opt_width g) (opt_height g) (opt_clothWidth g) (opt_clothHeight g)
          (opt_spacing g) (opt_gravity g) (opt_mouseInfluence g) (opt_mouseCut g)
          (opt_tearDistance g) (Some color) (opt_lineColor g).

(** In a sound world with a context, React has recorded the dependencies
    of the props as they are. *)
Lemma ok_last_deps w :
  world_ok w → mounted w = true → has_context w = true →
  last_deps w = Some (deps (props_of w)).
Proof. intros Hw Hm Hx. by destruct (ok_settled w Hw Hm Hx). Qed.

(** C26: the background colour is not a dependency of the effect: a render with
    another colour restyles the element and leaves the simulation, its
    listeners, its drawing and the size of the canvas as they are. *)
Theorem backgroundColor_keeps_simulation color w :
  world_ok w → mounted w = true → has_context w = true →
  ∃ w', parent_render (with_backgroundColor color (given w)) w = Some w' ∧
        loops w' = loops w ∧ listening w' = listening w ∧ context w' = context w ∧
        canvasSize w' = canvasSize w ∧
        attr_width (element w') = attr_width (element w) ∧
        style_backgroundColor (style (element w')) = color.
Proof.
  intros Hw Hm Hx. unfold parent_render. rewrite Hm, rerender_rendered.
  eexists. split; [done|]. rewrite rendered_same.
  - destruct (ok_settled w Hw Hm Hx) as [_ He]. by rewrite He.
  - unfold passed at 1; world_simpl. by rewrite (ok_last_deps w).
Qed.

(** ** The window is resized *)

(** With a width and a height that are not falsy, [resizeCanvas] computes
    the size of the props, whatever the window. *)
Lemma resizeCanvas_truthy props iw ih :
  falsy (props_width props) = false → falsy (props_height props) = false →
  resizeCanvas props iw ih = initial_canvasSize props.
Proof. unfold resizeCanvas. by intros -> ->. Qed.

(** In a sound world whose width and height are not falsy, the resize
    listener sets the state it already has. *)
Lemma resize_sets_same win w :
  world_ok w → mounted w = true → has_context w = true →
  falsy (props_width (props_of w)) = false → falsy (props_height (props_of w)) = false →
  window_resize win w = Some (rendered (resized win w)) ∧
  canvasSize w = initial_canvasSize (props_of w).
Proof.
  intros Hw Hm Hx Hfw Hfh. destruct (ok_current w Hw Hm Hx) as [props Hp].
  assert (deps props = deps (props_of w)) as Hd.
  { destruct Hp as (_ & Hd & _). rewrite (ok_last_deps w) in Hd by done. congruence. }
  assert (canvasSize w = initial_canvasSize (props_of w)) as Hs.
  { destruct Hp as (_ & _ & ->). by rewrite (resizeCanvas_deps _ _ _ _ Hd), resizeCanvas_truthy. }
  split; [|done]. unfold window_resize. rewrite (resize_listener w props) by done.
  rewrite (resizeCanvas_deps _ _ _ _ Hd), resizeCanvas_truthy, <- Hs, rerender_rendered by done.
  by destruct w.
Qed.

(** C12: a resize of the window, when the width and the height of the props are
    not falsy.  If the props in the new window have the dependencies they
    had, nothing changes but the window.  If not, as when no [width] is
    given and the default reads the new [window.innerWidth], the effect
    runs again: a new cloth is built, on the canvas of the size it had
    before the resize, the old loop stays scheduled, and only then does
    the canvas take the size of the new props. *)
Theorem window_resize_truthy win w :
  world_ok w → mounted w = true → has_context w = true →
  falsy (props_width (props_of w)) = false → falsy (props_height (props_of w)) = false →
  window_resize win w =
    Some (if decide (deps (props_of (resized win w)) = deps (props_of w))
          then resized win w else restarted (resized win w)).
Proof.
  intros Hw Hm Hx Hfw Hfh. destruct (resize_sets_same win w) as [-> Hs]; [done..|].
  f_equal. pose proof (ok_last_deps w Hw Hm Hx) as Hl. case_decide as Hd.
  - rewrite rendered_same by (by rewrite Hd). unfold commit. rewrite Hd, <- Hl.
    destruct (ok_settled w Hw Hm Hx) as [_ He].
    by replace (canvas_element _ (canvasSize (resized win w))) with (element w).
  - apply rendered_restart; [done..|]. unfold resized at 1; world_simpl. congruence.
Qed.

(** ** One loop: the world runs the simulation of [Loop] *)

(** The world holds one loop, in the state [sim], started with the props
    [props], listening, on a canvas of the size of the props. *)
Definition runs props (sim : Sim T) w : Prop :=
  loops w = [mkRunning props (cloth sim) (mouse sim)] ∧ context w = calls sim ∧
  listening w = Some 0 ∧ canvas_now w = initial_canvasSize props.

(** A browser event moves the world as [step] moves the simulation. *)
Lemma runs_step props sim ev w :
  runs props sim w →
  ∃ w', happens (Browser ev) w = Some w' ∧
        runs props (step (initial_canvasSize props) (clothSettings props)
                         (props_lineColor props) ev sim) w'.
Proof.
  intros (Hl & Hc & Hli & Hcv). destruct sim as [s m log]. simpl in *.
  destruct ev; (eexists; split; [done|]); unfold runs, canvas_event, animation_frame;
    rewrite ?Hl, ?Hc, ?Hli, ?Hcv; by world_simpl.
Qed.

(** Mounting the component with a context starts the simulation. *)
Lemma mount_runs win (g : ClothSimulationProps T) :
  let props := destructure g (innerWidth win) (innerHeight win) in
  falsy (props_width props) = false → falsy (props_height props) = false →
  ∃ w, mount win g true = Some w ∧
       runs props (start (initial_canvasSize props) (clothSettings props)
                         (props_lineColor props)) w.
Proof.
  intros props Hfw Hfh. destruct (mount_rendered win g true) as [-> _].
  eexists. split; [done|]. rewrite rendered_restart by done.
  unfold runs, restarted, canvas_now; world_simpl.
  change (props_of (unrendered win g true)) with props.
  by rewrite resizeCanvas_truthy.
Qed.

(** C18: the component runs the simulation of [Loop]: mounted with a context
    and props whose width and height are not falsy, and as long as neither
    the props nor the window change, the world holds one loop, and the
    state of that loop after the events [evs] is the state [run] computes
    from [start]. *)
Theorem world_runs_loop win (g : ClothSimulationProps T) evs :
  let props := destructure g (innerWidth win) (innerHeight win) in
  falsy (props_width props) = false → falsy (props_height props) = false →
  ∃ w, mount win g true ≫= history (Browser <$> evs) = Some w ∧
       runs props (run (initial_canvasSize props) (clothSettings props)
                       (props_lineColor props) evs
                       (start (initial_canvasSize props) (clothSettings props)
                              (props_lineColor props))) w.
Proof.
  intros props Hfw Hfh. destruct (mount_runs win g) as (w0 & -> & H0); [done..|].
  simpl. unfold history, run. induction evs as [|ev evs IH] using rev_ind; [by exists w0|].
  destruct IH as (w & Hw & Hr). rewrite fmap_snoc, !foldl_snoc, Hw. simpl.
  by apply runs_step.
Qed.

(** ** Where a restarted cloth hangs *)

(** The loop an effect starts hangs from the pins the constructor made on
    the canvas it was given: column [gx] of the first row is pinned at
    [startX + gx * spacing], with [startX] computed from the width of that
    canvas. *)
Lemma started_pin props canvas ctx gx :
  gx ≤ props_clothWidth props →
  ∃ p, run_cloth (started props canvas ctx) !! gx = Some p ∧
       pinX p = Some (startX (Some canvas) (clothSettings props) +
                      of_nat gx * props_spacing props)%num.
Proof.
  intros Hgx. set (cs := clothSettings props).
  assert (gx < (clothHeight cs + 1) * (clothWidth cs + 1)) as Hk by (simpl; nia).
  pose proof (new_Cloth_lookup (Some canvas) cs gx Hk) as Hp.
  destruct (evolves_lookup_l _ _ _ _
    (Cloth_update_evolving (Some canvas) cs initial_mouse _) Hp) as (q & Hq & Hx & _).
  exists q. split; [done|]. rewrite Hx. simpl.
  rewrite Nat.div_small, Nat.mod_small by (simpl; lia). by rewrite decide_True.
Qed.

(** After a resize that restarts the effect, the newest cloth hangs from
    pins computed from the size the canvas had before the resize. *)
Lemma restarted_pin win w gx :
  let props := props_of (resized win w) in
  gx ≤ props_clothWidth props →
  ∃ l p, last (loops (restarted (resized win w))) = Some l ∧
         run_cloth l !! gx = Some p ∧
         pinX p = Some (startX (Some (canvasSize w)) (clothSettings props) +
                        of_nat gx * props_spacing props)%num.
Proof.
  intros props Hgx.
  destruct (started_pin props (canvasSize w) (context w) gx Hgx) as (p & Hp & Hx).
  exists (started props (canvasSize w) (context w)), p.
  split; [|done]. unfold restarted; world_simpl. apply last_snoc.
Qed.

(** ** Without a context *)

(** Whether the canvas gives a context never changes. *)
Lemma rendered_has_context w : has_context (rendered w) = has_context w.
Proof.
  unfold rendered. destruct (ClothSimulation_keeps w) as (_ & _ & H & _).
  by destruct (ClothSimulation w) as [w' [size|]].
Qed.

Lemma happens_has_context h w w' : happens h w = Some w' → has_context w' = has_context w.
Proof.
  destruct h as [ev|win|props|]; simpl.
  - by destruct ev; intros [= <-]; unfold canvas_event; try destruct (listening w).
  - unfold window_resize. destruct (closure <$> (listening w ≫= _)); [|by intros [= <-]].
    rewrite rerender_rendered. intros [= <-]. by rewrite rendered_has_context.
  - unfold parent_render. destruct (mounted w); [|by intros [= <-]].
    rewrite rerender_rendered. intros [= <-]. by rewrite rendered_has_context.
  - by intros [= <-].
Qed.

Lemma history_has_context hs w w' : history hs w = Some w' → has_context w' = has_context w.
Proof.
  unfold history. revert w'. induction hs as [|h hs IH] using rev_ind; intros w'.
  { by intros [= <-]. }
  rewrite foldl_snoc. destruct (foldl _ _ hs) as [w1|]; [|done]. simpl. intros H.
  rewrite (happens_has_context h w1 w' H). by apply IH.
Qed.

(** C37: if the canvas gives no 2D context the effect stops at its guard every
    time it runs: whatever happens, no loop is started and no listener is
    registered.  Nothing is reported either. *)
Theorem no_context_nothing_runs win (g : ClothSimulationProps T) hs :
  ∃ w, mount win g false ≫= history hs = Some w ∧ loops w = [] ∧ listening w = None.
Proof.
  destruct (mount_rendered win g false) as [-> Hw0]. simpl.
  destruct (history_ok hs _ Hw0) as (w & Hh & Hw). exists w. split; [done|].
  assert (has_context w = false) as Hx.
  { by rewrite (history_has_context hs _ w Hh), rendered_has_context. }
  split; [by apply (ok_no_context w Hw)|].
  by rewrite (ok_listening w Hw), Hx, andb_false_r.
Qed.

End component.

(** ** Exact arithmetic: the default cloth *)

Section exact.
Local Open Scope R_scope.

(** With the default props the cloth has one column per fourteen pixels of
    the window. *)
Lemma default_clothWidth (iw ih : Z) :
  props_clothWidth (default_props iw ih : Props R) = Z.to_nat (iw / 14).
Proof. unfold default_props, destructure; simpl. by rewrite floor_quotient. Qed.

(** C40: with the default props the cloth fits the width of the canvas:
    the first column is at [width / 14] or more, the last at
    [13 * width / 14] or less. *)
Theorem default_cloth_fits (iw ih : Z) :
  (0 <= iw)%Z →
  let props := default_props iw ih : Props R in
  let cs := clothSettings props in
  let cv := Some (initial_canvasSize props) in
  IZR iw / 14 <= startX cv cs ∧
  startX cv cs + of_nat (clothWidth cs) * spacing cs <= 13 * IZR iw / 14.
Proof.
  intros Hw props cs cv.
  assert (of_nat (clothWidth cs) = IZR (iw / 14)) as Hc.
  { unfold cs, props, of_nat. cbn [clothWidth clothSettings].
    rewrite default_clothWidth, Z2Nat.id; [done|]. apply Z.div_pos; lia. }
  assert (14 * IZR (iw / 14) <= IZR iw) as H.
  { rewrite <- mult_IZR. apply IZR_le, Z.mul_div_le. lia. }
  unfold startX. rewrite Hc. unfold canvas_width, n2; simpl. lra.
Qed.

(** A window of 1400 by 900: a cloth of 100 columns from [x = 100] to
    [x = 1300]. *)
Lemma default_cloth_fits_witness :
  let props := default_props 1400 900 : Props R in
  let cs := clothSettings props in
  let cv := Some (initial_canvasSize props) in
  IZR 1400 / 14 <= startX cv cs ∧
  startX cv cs + of_nat (clothWidth cs) * spacing cs <= 13 * IZR 1400 / 14.
Proof. apply (default_cloth_fits 1400 900). lia. Defined.

End exact.

(** ** Concrete runs *)

Section floating.
Local Open Scope string_scope.

(** [<ClothSimulation clothWidth={2} clothHeight={2} />] in a window of
    200 by 200: the width and the height are the window's. *)
#[local] Abbreviation window200 := (mkWindow 200 200).
#[local] Abbreviation fluid :=
  (mkGiven None None (Some 2%nat) (Some 2%nat) None None None None None None None
     : ClothSimulationProps float).
#[local] Abbreviation fixed := (small_given 2 2 : ClothSimulationProps float).
#[local] Abbreviation mounted_fluid := (rendered (unrendered window200 fluid true)).
#[local] Abbreviation mounted_fixed := (rendered (unrendered window200 fixed true)).
#[local] Abbreviation origin := (mkRect 0 0 : Rect float)%float.
#[local] Abbreviation at_centre b := (mkMouseEvent 100 22 b : MouseEvent float)%float.

(** The pins of the first row of a cloth. *)
#[local] Abbreviation pins l := (pinX <$> take 3 (run_cloth l)).

(** Without a context the effect stops at its guard: no loop, no
    listener, whatever happens. *)
Example mount_guards :
  (λ w, (loops w, listening w)) <$>
    (mount window200 fluid false ≫=
       history [Resize (mkWindow 100 200); Browser FrameE; Rerender fixed])
  = Some ([], None).
Proof. by vm_compute. Qed.

(** A new background colour on the running 2 by 2 cloth. *)
Lemma backgroundColor_keeps_simulation_witness :
  ∃ w', parent_render (with_backgroundColor "black" (given mounted_fixed)) mounted_fixed
          = Some w' ∧
        loops w' = loops mounted_fixed ∧ listening w' = listening mounted_fixed ∧
        context w' = context mounted_fixed ∧ canvasSize w' = canvasSize mounted_fixed ∧
        attr_width (element w') = attr_width (element mounted_fixed) ∧
        style_backgroundColor (style (element w')) = "black".
Proof.
  apply (backgroundColor_keeps_simulation "black" mounted_fixed); [|done..].
  apply mount_rendered.
Defined.

(** The window shrinks from 200 to 100 pixels under a component that is
    given no width: the dependencies change and the effect runs again. *)
Lemma window_resize_truthy_witness :
  window_resize (mkWindow 100 200) mounted_fluid =
    Some (if decide (deps (props_of (resized (mkWindow 100 200) mounted_fluid)) =
                     deps (props_of mounted_fluid))
          then resized (mkWindow 100 200) mounted_fluid
          else restarted (resized (mkWindow 100 200) mounted_fluid)).
Proof.
  apply (window_resize_truthy (mkWindow 100 200) mounted_fluid); [|done..].
  apply mount_rendered.
Defined.

(** After that resize the canvas is 100 pixels wide and two loops are
    scheduled; the new cloth hangs from pins at 88, 100 and 112, centred on
    the middle of the canvas as it was, which is the right edge of the
    canvas as it is.  Mounted in the small window, the same component pins
    its cloth at 38, 50 and 62. *)
Example resize_off_centre :
  (mount window200 fluid true ≫= window_resize (mkWindow 100 200)) ≫=
    (λ w, (λ l, (attr_width (element w), length (loops w), listening w, pins l))
            <$> last (loops w))
  = Some (100, 2%nat, Some 1%nat, [Some 88; Some 100; Some 112])%float ∧
  mount (mkWindow 100 200) fluid true ≫= (λ w, (λ l, pins l) <$> last (loops w))
  = Some [Some 38; Some 50; Some 62]%float.
Proof. by vm_compute. Qed.

(** With a width and a height given the same resize changes nothing but
    the window. *)
Example resize_fixed_size :
  window_resize (mkWindow 100 200) mounted_fixed =
  Some (resized (mkWindow 100 200) mounted_fixed).
Proof. by vm_compute. Qed.

(** A component given [width={0}] and [height={0}] follows the window
    without restarting, but builds its cloth on a canvas of width zero:
    the pins are centred on [x = 0]. *)
Example falsy_size_follows_window :
  let g := mkGiven (Some 0%float) (Some 0%float) (Some 2%nat) (Some 2%nat)
                   None None None None None None None in
  (mount window200 g true ≫= window_resize (mkWindow 100 200)) ≫=
    (λ w, (λ l, (canvasSize w, length (loops w), pins l)) <$> last (loops w))
  = Some (mkCanvas 100 200, 1%nat, [Some (-12); Some 0; Some 12])%float.
Proof. by vm_compute. Qed.

(** A press, a frame and a release on the mounted component. *)
Lemma world_runs_loop_witness :
  let props := destructure fixed 200 200 in
  ∃ w, mount window200 fixed true ≫=
         history (Browser <$> [MouseDownE (at_centre 0) origin; FrameE; MouseUpE]) = Some w ∧
       runs props (run (initial_canvasSize props) (clothSettings props)
                       (props_lineColor props)
                       [MouseDownE (at_centre 0) origin; FrameE; MouseUpE]
                       (start (initial_canvasSize props) (clothSettings props)
                              (props_lineColor props))) w.
Proof. by apply (world_runs_loop window200 fixed). Defined.

(** Unmounted and mounted nowhere: the loop of the first mount is still
    there after a resize, new props and two frames. *)
Lemma loops_never_stop_witness :
  closure <$> loops mounted_fluid `prefix_of`
  closure <$> loops (default mounted_fluid
    (history [Unmount; Resize (mkWindow 100 200); Browser FrameE; Browser FrameE]
       mounted_fluid)).
Proof.
  apply (loops_never_stop
    [Unmount; Resize (mkWindow 100 200); Browser FrameE; Browser FrameE]).
  by vm_compute.
Defined.

(** Two loops after a resize: the frame shows the cloth of the second. *)
Lemma animation_frame_picture_witness :
  let w := restarted (resized (mkWindow 100 200) mounted_fluid) in
  let l := started (props_of w) (mkCanvas 200 200)%float (context mounted_fluid) in
  loops (animation_frame w) = advance (canvas_now w) <$> loops w ∧
  picture (context (animation_frame w)) =
    [(props_lineColor (closure l), geometry (run_cloth (advance (canvas_now w) l)))].
Proof.
  intros w l. by apply (animation_frame_picture w (loops mounted_fluid) l).
Defined.

End floating.
