(* ===== verification/Topology.v ===== *)
(** * Topology: the links that are alive, as a finite set

    The abstract view of the cloth that the specification reasons with:
    the set of identities of the links that have not been torn or cut.
    [live] abstracts a store to that set.  The abstract machine has one
    kind of transition, the removal of links; the theorems show how the
    operations of the program refine it: [resolve] removes exactly the
    link it tears, every event of the loop removes links and never adds
    one, and the constructor starts from the identities [0 .. n-1]. *)

From stdpp Require Import gmap.
From Stdlib Require Import Floats String.
From S2P Require Import Prelude Number Float64 Data ConstraintOps PointOps ClothOps Draw Loop.

Section topology.
Context {T : Type} `{!Number T}.
Implicit Types (c : Constraint T) (s : list (Point T)) (X Y : gset nat).

(** ** The abstraction *)

(** The identities of the links the store holds. *)
Definition live s : gset nat := list_to_set (all_cids s).

(** The abstract machine: links are removed, never added. *)
Inductive removes : gset nat → gset nat → Prop :=
  | removes_some X Y : Y ⊆ X → removes X Y.

(** What an abstract state allows after any number of transitions. *)
Inductive removes_star : gset nat → gset nat → Prop :=
  | removes_refl X : removes_star X X
  | removes_step X Y Z : removes_star X Y → removes Y Z → removes_star X Z.

(** ** Membership *)

Lemma elem_of_live s id : id ∈ live s ↔ ∃ c, c ∈ all_links s ∧ cid c = id.
Proof.
  unfold live. rewrite elem_of_list_to_set, all_cids_links, list_elem_of_fmap.
  split; intros (c & ? & ?); eauto.
Qed.

(** The abstraction is monotone along [evolves]. *)
#[export] Instance live_evolves : Proper (evolves ==> flip (⊆)) live.
Proof.
  intros s s' H id. rewrite !elem_of_live. intros (c & Hc & <-).
  exists c. split; [|done]. eapply elem_of_sublist; [done|by apply evolves_links].
Qed.

(** Any number of removals is a removal. *)
Lemma removes_star_subseteq X Y : removes_star X Y ↔ Y ⊆ X.
Proof.
  split.
  - induction 1 as [X|X Y Z _ IH HZ]; [done|]. destruct HZ. set_solver.
  - intros H. eapply removes_step; [apply removes_refl|by constructor].
Qed.

(** ** The operations refine the removal of links *)

Section settings.
Context (cs : Settings T).

(** C31: [resolve] on a link of a well-formed store removes that link from
    the topology when it tears it, and leaves the topology as it is when
    it relaxes it. *)
Theorem live_resolve c s :
  wf s → c ∈ all_links s →
  live (resolve cs c s) = if tears cs c s then live s ∖ {[cid c]} else live s.
Proof.
  intros Hwf Hc. destruct (tears cs c s) eqn:Ht.
  - apply set_eq. intros id.
    rewrite elem_of_difference, !elem_of_live, resolve_tear_all_links by done.
    rewrite elem_of_singleton. setoid_rewrite without_elem. split.
    + intros (c' & [Hc' Hne] & <-). eauto.
    + intros [(c' & Hc' & <-) Hne]. eauto.
  - unfold live. rewrite !all_cids_links. unfold all_links.
    by rewrite resolve_relax_links.
Qed.

(** The frame step and any sequence of frames only remove links. *)
Lemma live_frames canvas ms s : removes (live s) (live (frames canvas cs ms s)).
Proof. constructor. apply live_evolves, frames_evolving. Qed.

(** The constructor allocates the identities [0 .. n-1]. *)
Lemma live_new_Cloth canvas :
  live (new_Cloth canvas cs) =
  set_seq 0 (clothWidth cs * (clothHeight cs + 1) + (clothWidth cs + 1) * clothHeight cs).
Proof.
  unfold live. rewrite new_Cloth_cells, grid_cids.
  rewrite alloc_before_rows. replace (clothHeight cs + 1 - 1) with (clothHeight cs) by lia.
  apply set_eq. intros id. rewrite elem_of_list_to_set, elem_of_seq, elem_of_set_seq. lia.
Qed.

End settings.

(** ** The event loop refines the abstract machine *)

(** Every event of a running simulation is a removal, or no change, of
    the abstract topology. *)
Lemma step_refines canvas cs lineColor ev (sim : Sim T) :
  removes (live (cloth sim)) (live (cloth (step canvas cs lineColor ev sim))).
Proof. constructor. apply live_evolves, step_evolves. Qed.

(** The event loop refines the abstract machine: the topology of every
    reachable state is obtained from the topology the constructor built
    by removals only. *)
Lemma reachable_topology canvas cs lineColor (sim : Sim T) :
  reachable canvas cs lineColor sim →
  removes_star (live (new_Cloth (Some canvas) cs)) (live (cloth sim)).
Proof.
  induction 1 as [|ev sim _ IH].
  - eapply removes_step; [apply removes_refl|]. constructor.
    apply live_evolves, start_evolves.
  - eapply removes_step; [done|apply step_refines].
Qed.

(** ** Tearing comes to an end *)

(** The states a simulation goes through under a trace of events, the
    first included. *)
Fixpoint trajectory canvas cs lineColor (evs : list (Event T)) (sim : Sim T) :
    list (Sim T) :=
  match evs with
  | [] => [sim]
  | ev :: evs => sim :: trajectory canvas cs lineColor evs (step canvas cs lineColor ev sim)
  end.

(** The number of steps of a sequence of topologies at which the topology
    changes. *)
Fixpoint changes (Xs : list (gset nat)) : nat :=
  match Xs with
  | X :: (Y :: _) as Ys => (if decide (X = Y) then 0 else 1) + changes Ys
  | _ => 0
  end.

(** A removal that changes the topology makes it smaller. *)
Lemma removes_size X Y : removes X Y → (if decide (X = Y) then 0 else 1) + size Y ≤ size X.
Proof.
  intros [X' Y' H]. case_decide as Hne; [by subst|].
  assert (Y' ⊂ X') as Hlt by set_solver. apply subset_size in Hlt. lia.
Qed.

Lemma trajectory_head canvas cs lineColor evs sim :
  ∃ sims, trajectory canvas cs lineColor evs sim = sim :: sims.
Proof. destruct evs; by eexists. Qed.

(** C15: the topology changes finitely often: along any trace of events, the
    number of events at which the set of live links changes is at most the
    number of links the simulation has at the start; the number of live
    links is a measure that every change decreases. *)
Theorem tearing_terminates canvas cs lineColor evs (sim : Sim T) :
  changes (live ∘ cloth <$> trajectory canvas cs lineColor evs sim) ≤ size (live (cloth sim)).
Proof.
  revert sim. induction evs as [|ev evs IH]; intros sim; simpl; [lia|].
  specialize (IH (step canvas cs lineColor ev sim)).
  destruct (trajectory_head canvas cs lineColor evs (step canvas cs lineColor ev sim))
    as [sims Hs].
  rewrite Hs in *. rewrite fmap_cons in *. simpl.
  pose proof (removes_size _ _ (step_refines canvas cs lineColor ev sim)). simpl in *. lia.
Qed.

End topology.

(** ** Concrete runs *)

Section floating.
Local Open Scope string_scope.
#[local] Abbreviation cv := (mkCanvas 200 200 : Canvas float)%float.
#[local] Abbreviation cs := (small 2 2 : Settings float).
#[local] Abbreviation c12 := (mkConstraint 0 1 0 12 : Constraint float)%float.

(** The link of a pair stretched to 100 is torn: the topology loses the
    identity [0]. *)
Lemma live_resolve_witness :
  live (resolve cs c12 (pair_at 100 0 12)) =
  if tears cs c12 (pair_at 100 0 12) then live (pair_at 100 0 12 : list (Point float)) ∖ {[cid c12]}
  else live (pair_at 100 0 12 : list (Point float)).
Proof.
  apply live_resolve; [|by apply list_elem_of_here].
  by apply (bool_decide_unpack _); vm_compute.
Defined.

(** After a cut at the centre and a frame, the topology is still part
    of the constructor's. *)
Lemma reachable_topology_witness :
  removes_star (live (new_Cloth (Some cv) cs))
    (live (cloth (run cv cs "#888"
       [MouseDownE (mkMouseEvent 100 22 2) (mkRect 0 0); FrameE]%float
       (start cv cs "#888")))).
Proof. apply (reachable_topology cv cs "#888"), reachable_run. by eexists. Defined.

(** A cut at the centre, three frames and a release: the topology changes
    at one event of the five, the first frame after the press. *)
Example tearing_one_change :
  changes (live ∘ cloth <$> trajectory cv cs "#888"
    [MouseDownE (mkMouseEvent 100 22 2) (mkRect 0 0); FrameE; FrameE; MouseUpE; FrameE]%float
    (start cv cs "#888")) = 1.
Proof. by vm_compute. Qed.

(** The same run, counted: twelve links are built and four are left. *)
Example topology_after_cut :
  size (live (new_Cloth (Some cv) cs)) = 12 ∧
  size (live (cloth (run cv cs "#888"
       [MouseDownE (mkMouseEvent 100 22 2) (mkRect 0 0); FrameE]%float
       (start cv cs "#888")))) = 4.
Proof. by vm_compute. Qed.

End floating.
